(** * Thunderbird TbSync MCP server: the orchestration core of
      [extension/mcp_server/api.js], embedded in Rocq.

    The development follows the JavaScript source function by function.
    JavaScript strings are Rocq strings restricted to 7-bit ASCII (so
    [toLowerCase] and [trim] are their ASCII restrictions), the three
    in-memory [Map]s of the server are finite maps, every [Date.now()] is a
    reading of an explicit clock, and the provider calls of Thunderbird,
    TbSync and SQLite are outcomes supplied by an explicit environment. *)

From Stdlib Require Import ZArith Ascii String Bool List Lia.
From stdpp Require Import gmap strings list fin_maps.

#[local] Arguments String.append !_ _ / : simpl nomatch.

(** ** JavaScript string primitives *)

Module Js.

(** White space as [String.prototype.trim] and the regular expression
    class [\s] see it, within ASCII: TAB, LF, VT, FF, CR and SPACE. *)
Definition is_space (c : ascii) : bool := Ascii.is_space c.

Definition is_upper (c : ascii) : bool :=
  (Ascii.leb "A" c && Ascii.leb c "Z")%char.

Definition is_digit (c : ascii) : bool :=
  (Ascii.leb "0" c && Ascii.leb c "9")%char.

Definition lower_char (c : ascii) : ascii :=
  if is_upper c then ascii_of_nat (nat_of_ascii c + 32) else c.

(** [s.toLowerCase()] *)
Fixpoint toLowerCase (s : string) : string :=
  match s with
  | EmptyString => EmptyString
  | String c r => String (lower_char c) (toLowerCase r)
  end.

Fixpoint ltrim (s : string) : string :=
  match s with
  | EmptyString => EmptyString
  | String c r => if is_space c then ltrim r else s
  end.

Fixpoint rtrim (s : string) : string :=
  match s with
  | EmptyString => EmptyString
  | String c r =>
      match rtrim r with
      | EmptyString => if is_space c then EmptyString else String c EmptyString
      | r' => String c r'
      end
  end.

(** [s.trim()] *)
Definition trim (s : string) : string := rtrim (ltrim s).

(** [s.endsWith(suf)]: [suf] is one of the tails of [s]. *)
Fixpoint endsWith (s suf : string) : bool :=
  String.eqb s suf
  || match s with
     | EmptyString => false
     | String _ r => endsWith r suf
     end.

(** [h.includes(n)]: [n] is a prefix of one of the tails of [h]. *)
Fixpoint includes (h n : string) : bool :=
  String.prefix n h
  || match h with
     | EmptyString => false
     | String _ r => includes r n
     end.

(** [s.replace(/[...]/g, "")] for a character class given as a test. *)
Fixpoint removeChars (p : ascii -> bool) (s : string) : string :=
  match s with
  | EmptyString => EmptyString
  | String c r => if p c then removeChars p r else String c (removeChars p r)
  end.

(** [s.slice(a, b)] for [0 <= a <= b]; indices past the end are clamped. *)
Definition slice (a b : nat) (s : string) : string := substring a (b - a) s.

(** [s.split(sep)] for a one-character separator. *)
Fixpoint split (sep : ascii) (s : string) : list string :=
  match s with
  | EmptyString => [EmptyString]
  | String c r =>
      match split sep r with
      | [] => [EmptyString]
      | w :: ws =>
          if Ascii.eqb c sep then EmptyString :: w :: ws
          else String c w :: ws
      end
  end.

(** Truthiness of an optional string: [undefined] and [""] are falsy. *)
Definition truthy (o : option string) : bool :=
  match o with
  | Some s => negb (String.eqb s "")
  | None => false
  end.

(** [String(o || "")] *)
Definition orEmpty (o : option string) : string :=
  match o with
  | Some s => s
  | None => ""
  end.

(** [a || b] on optional strings. *)
Definition orElse (a b : option string) : option string :=
  if truthy a then a else b.

End Js.

(** ** Titles and tags *)

(** [shortTagForEvent]: the generated tag of a request. *)
Definition shortTagForEvent (allDay : option bool) (date start end_ : option string)
  : string :=
  let allDay := default false allDay in
  if allDay && Js.truthy date then
    "mcp:" +:+ Js.removeChars (Ascii.eqb "-") (Js.orEmpty date)
  else if negb allDay && Js.truthy start && Js.truthy end_ then
    let cls c := (Ascii.eqb c "-" || Ascii.eqb c ":" || Ascii.eqb c "T"
                  || Js.is_space c)%char in
    let s := Js.removeChars cls (Js.orEmpty start) in
    let e := Js.removeChars cls (Js.orEmpty end_) in
    "mcp:" +:+ Js.slice 0 8 s +:+ "-" +:+ Js.slice 8 12 s +:+ "-" +:+ Js.slice 8 12 e
  else "mcp".

(** [withTagAtEnd]: the title with the tag in parentheses at its end. *)
Definition withTagAtEnd (title tag : option string) : string :=
  let base := Js.trim (Js.orEmpty title) in
  let t := Js.trim (Js.orEmpty tag) in
  if String.eqb t "" then base
  else if Js.endsWith base ("(" +:+ t +:+ ")") then base
  else base +:+ " (" +:+ t +:+ ")".

(** A title is blank when trimming leaves nothing of it. *)
Definition blank (s : string) : Prop := Js.trim s = "".

(** ** Exceptions and outcomes *)

(** A thrown JavaScript error object. *)
Record Exn := { exn_name : string; exn_message : string }.

(** [new Error(msg)] *)
Definition Error (msg : string) : Exn := {| exn_name := "Error"; exn_message := msg |}.

(** [e.toString()] of [Error.prototype]. *)
Definition exn_toString (e : Exn) : string :=
  if String.eqb (exn_name e) "" then exn_message e
  else if String.eqb (exn_message e) "" then exn_name e
  else exn_name e +:+ ": " +:+ exn_message e.

(** What awaiting a call gives: its value, or the exception it raised. *)
Inductive Outcome (A : Type) : Type :=
| Returned (a : A)
| Threw (e : Exn).
Arguments Returned {A} a.
Arguments Threw {A} e.

(** ** Dates and times *)

Definition digit_val (c : ascii) : Z := Z.of_nat (nat_of_ascii c) - 48.

(** The value of the longest prefix of decimal digits, if there is one. *)
Fixpoint digits_prefix (s : string) (acc : option Z) : option Z :=
  match s with
  | EmptyString => acc
  | String c r =>
      if Js.is_digit c
      then digits_prefix r (Some (10 * default 0%Z acc + digit_val c)%Z)
      else acc
  end.

(** [parseInt(s, 10)]; [None] is [NaN]. *)
Definition parseInt10 (s : string) : option Z :=
  match Js.ltrim s with
  | String "-" r => Z.opp <$> digits_prefix r None
  | String "+" r => digits_prefix r None
  | t => digits_prefix t None
  end.

(** [!n] for a number: [NaN] and [0] are falsy. *)
Definition falsy_num (n : option Z) : bool :=
  match n with
  | Some z => Z.eqb z 0
  | None => true
  end.

Record YMD := { ymd_y : Z; ymd_m : Z; ymd_d : Z }.

(** [parseDateYMD] *)
Definition parseDateYMD (dateStr : string) : option YMD :=
  let parts := parseInt10 <$> Js.split "-" dateStr in
  let y := mjoin (parts !! 0) in
  let m := mjoin (parts !! 1) in
  let d := mjoin (parts !! 2) in
  if falsy_num y || falsy_num m || falsy_num d then None
  else Some {| ymd_y := default 0%Z y; ymd_m := default 0%Z m; ymd_d := default 0%Z d |}.

Record LocalDateTime := { ldt_y : Z; ldt_mo : Z; ldt_d : Z; ldt_hh : Z; ldt_mm : Z }.

Definition digits_val (cs : list ascii) : Z :=
  fold_left (fun acc c => (10 * acc + digit_val c)%Z) cs 0%Z.

(** [parseDateTimeLocal]: the trimmed text must match
    [^(\d{4})-(\d{2})-(\d{2})[T\s](\d{2}):(\d{2})$]. *)
Definition parseDateTimeLocal (dtStr : option string) : option LocalDateTime :=
  let s := Js.trim (Js.orEmpty dtStr) in
  match list_ascii_of_string s with
  | [y1; y2; y3; y4; d1; m1; m2; d2; a1; a2; sep; h1; h2; col; n1; n2] =>
      if forallb Js.is_digit [y1; y2; y3; y4; m1; m2; a1; a2; h1; h2; n1; n2]
         && Ascii.eqb d1 "-" && Ascii.eqb d2 "-"
         && (Ascii.eqb sep "T" || Js.is_space sep)
         && Ascii.eqb col ":"
      then Some {| ldt_y := digits_val [y1; y2; y3; y4];
                   ldt_mo := digits_val [m1; m2];
                   ldt_d := digits_val [a1; a2];
                   ldt_hh := digits_val [h1; h2];
                   ldt_mm := digits_val [n1; n2] |}
      else None
  | _ => None
  end.

Inductive TimeZone := Floating | DefaultTimezone.

(** The fields the server writes into a [calIDateTime]. *)
Record DateTime := {
  dt_year : Z; dt_month : Z; dt_day : Z;
  dt_hour : Z; dt_minute : Z; dt_second : Z;
  dt_isDate : bool; dt_timezone : TimeZone }.

(** [makeAllDayRange] *)
Definition makeAllDayRange (dateStr : string) : option (DateTime * DateTime) :=
  match parseDateYMD dateStr with
  | None => None
  | Some ymd =>
      let start := {| dt_year := ymd_y ymd; dt_month := ymd_m ymd - 1; dt_day := ymd_d ymd;
                      dt_hour := 0; dt_minute := 0; dt_second := 0;
                      dt_isDate := true; dt_timezone := Floating |}%Z in
      let end_ := {| dt_year := ymd_y ymd; dt_month := ymd_m ymd - 1; dt_day := ymd_d ymd + 1;
                     dt_hour := 0; dt_minute := 0; dt_second := 0;
                     dt_isDate := true; dt_timezone := Floating |}%Z in
      Some (start, end_)
  end.

(** What [makeTimedRange] returns: [null], [{ error }] or [{ start, end }]. *)
Inductive TimedRange :=
| RangeNull
| RangeError (msg : string)
| Range (start end_ : DateTime).

Definition timedDateTime (p : LocalDateTime) : DateTime :=
  {| dt_year := ldt_y p; dt_month := ldt_mo p - 1; dt_day := ldt_d p;
     dt_hour := ldt_hh p; dt_minute := ldt_mm p; dt_second := 0;
     dt_isDate := false; dt_timezone := DefaultTimezone |}.

(** [makeTimedRange].  [nativeTime] is the calendar library's absolute time
    of a [calIDateTime] in microseconds; [end.compare(start) <= 0] holds
    exactly when the end is not later than the start on that scale. *)
Definition makeTimedRange (nativeTime : DateTime -> Z) (startStr endStr : option string)
  : TimedRange :=
  match parseDateTimeLocal startStr, parseDateTimeLocal endStr with
  | Some s, Some e =>
      let start := timedDateTime s in
      let end_ := timedDateTime e in
      if (nativeTime end_ <=? nativeTime start)%Z
      then RangeError "end must be after start"
      else Range start end_
  | _, _ => RangeNull
  end.

(** ** The environment: Thunderbird calendars, TbSync, SQLite *)

Record Calendar := { cal_id : string; cal_name : string; cal_readOnly : bool }.

(** The calendar subsystem as one synchronous stretch of code sees it. *)
Record CalEnv := {
  cal_available : bool;                      (* [cal] was imported *)
  calendars : list Calendar;                 (* [cal.manager.getCalendars()] *)
  nativeTime : DateTime -> Z;
  createInstance_throws : nat -> option Exn; (* n-th [createInstance] of the stretch *)
  addItem_throws : option Exn;               (* [target.addItem] raising at once *)
  deleteItem_throws : nat -> option Exn      (* n-th [target.deleteItem] raising at once *)
}.

Record Account := { acc_id : string; acc_user : option string }.

(** An item as TbSync's calendar wrapper lists it: its title, the instant
    of its start date in milliseconds ([None] when [toJsDate] finds none),
    and whether deleting it raises. *)
Record NativeItem := {
  ni_title : option string;
  ni_start : option Z;
  ni_delete_throws : option Exn }.

(** What [getTarget] and [getAllItems] give for a folder. *)
Inductive FolderItems :=
| ItemsThrow (e : Exn)
| ItemsNotArray
| ItemsArray (items : list NativeItem).

(** A selected EAS calendar folder and the id of its target calendar. *)
Record EasFolder := { f_target : option string; f_items : FolderItems }.

(** TbSync as one call of [getTbSyncModule] sees it. *)
Record TbSyncEnv := {
  tbs_active : bool;                 (* add-on tbsync@jobisoft.de present and active *)
  eas_active : bool;                 (* add-on eas4tbsync@jobisoft.de present and active *)
  ext_available : bool;              (* the extension object is available *)
  load_throws : option Exn;          (* importing or loading the module raises *)
  accounts : list Account;           (* [TbSyncModule.db.getAccounts()] *)
  eas_folders : list EasFolder       (* [provider.getFolders({ selected: true, ... })] *)
}.

(** A row of [cal_events] in local.sqlite. *)
Record CalEventRow := {
  row_cal_id : string; row_id : string;
  row_title : option string;         (* [None] is SQL NULL *)
  row_event_start : Z }.

Record SqlEnv := {
  open_throws : option Exn;          (* loading Sqlite or [openConnection] raises *)
  execute_throws : option Exn;       (* [conn.execute] raises *)
  cal_events : list CalEventRow;
  close_throws : option Exn          (* [conn.close] raises *)
}.

Record World := { w_cal : CalEnv; w_tb : TbSyncEnv; w_sql : SqlEnv }.

(** The readings of [Date.now()] within one synchronous stretch, in order. *)
Definition Clock := nat -> Z.

(** [resolveCalendar] *)
Definition resolveCalendar (cals : list Calendar) (calendarName calendarId : option string)
  : option Calendar :=
  if Js.truthy calendarId
  then List.find (fun c => String.eqb (cal_id c) (Js.orEmpty calendarId)) cals
  else if Js.truthy calendarName
  then List.find (fun c => String.eqb (cal_name c) (Js.orEmpty calendarName)) cals
  else None.

(** ** Requests and replies *)

(** The argument object of [createCalendarEvent] and
    [syncAndCreateCalendarEvent]; [None] is a missing field. *)
Record CreateArgs := {
  tbsyncUser : option string;
  calendarName : option string;
  calendarId : option string;
  title : option string;
  description : option string;
  allDay : option bool;
  date : option string;
  start : option string;
  end_ : option string;
  mcpTag : option string }.

(** [Object.assign({}, args, { mcpTag: tag, title: t })] *)
Definition assignTagTitle (args : CreateArgs) (tag t : string) : CreateArgs :=
  {| tbsyncUser := tbsyncUser args; calendarName := calendarName args;
     calendarId := calendarId args; title := Some t;
     description := description args; allDay := allDay args; date := date args;
     start := start args; end_ := end_ args; mcpTag := Some tag |}.

(** Job ids: ["caljob-<ms>-<seq>"] and ["wfjob-<ms>-<seq>"], kept as the
    pair of the clock reading and the sequence number. *)
Definition JobId : Type := Z * nat.

(** What [tbsyncSyncAccountByUser] returns. *)
Inductive SyncReply :=
| SyncError (msg : string)
| SyncTriggered (accountID user : string).

(** What [createCalendarEvent] returns. *)
Inductive CreateReply :=
| CreateError (msg : string)
| CreateStarted (calendar : string) (title : string) (allDay pending : bool) (jobId : JobId).

(** ** Jobs, workflows, the idempotency cache *)

Inductive JobStatus := JobPending | JobDone | JobError.

Inductive CalJobKind :=
| AddItem (calendar title : string)
| DeleteItem (reason : string) (title : option string).

Record CalendarJob := {
  cj_jobId : JobId;
  cj_status : JobStatus;
  cj_createdAtMs : Z;
  cj_meta : CalJobKind;
  cj_error : option string;
  cj_deletedId : option string }.

Inductive WfStatus := Running | WfDone | WfError.

Inductive WfMeta :=
| MetaCreate (idempotencyKey : string) (user : option string) (calendar : option string)
| MetaDelete (user : option string) (calendar : Calendar) (start end_ : option string)
    (titleMustContainAll : option (list string)).

Inductive WfResult :=
| ResultCreate (preSync : SyncReply) (created : CreateReply) (postSync postSync2 : SyncReply)
| ResultDelete (candidateCount deleteTriggered deleteErrors : nat)
    (sample : list (string * option string)).

(** A workflow job.  [wj_steps] is history: every label ever assigned to
    [job.step], oldest first. *)
Record WorkflowJob := {
  wj_jobId : JobId;
  wj_status : WfStatus;
  wj_createdAtMs : Z;
  wj_updatedAtMs : Z;
  wj_step : string;
  wj_meta : WfMeta;
  wj_result : option WfResult;
  wj_error : option string;
  wj_steps : list string }.

(** The [created] field of a cache entry. *)
Inductive Payload :=
| PendingWorkflow (workflowJobId : JobId)
| Completed (preSync : SyncReply) (created : CreateReply) (postSync postSync2 : SyncReply).

Record IdemEntry := { ts : Z; created : Payload }.

Definition IDEMPOTENCY_TTL_MS : Z := 6 * 60 * 60 * 1000.

(** The calls that leave the server. *)
Inductive Effect :=
| SyncAccount (accountID : string)
| ProviderAddItem (calendar title : string)
| ProviderDeleteItem (calendar itemId : string).

(** Where a suspended workflow continues when its awaited call settles. *)
Inductive Continuation :=
| AwaitPreSync (argsWithTag : CreateArgs) (key : string)
| AwaitCreate (argsWithTag : CreateArgs) (key : string) (pre : SyncReply)
| AwaitPostSync (user : option string) (key : string) (pre : SyncReply) (created : CreateReply)
| AwaitPostSync2 (user : option string) (key : string) (pre : SyncReply)
    (created : CreateReply) (post : SyncReply)
| AwaitSql (user : option string) (target : Calendar) (range_start range_end : DateTime)
    (titleMustContainAll : option (list string)).

(** The server: its three maps and two counters, the continuations of the
    workflows in flight, and the log of outgoing calls. *)
Record State := {
  calendarJobs : gmap JobId CalendarJob;
  calendarJobSeq : nat;
  idempotency : gmap string IdemEntry;
  workflowJobs : gmap JobId WorkflowJob;
  workflowSeq : nat;
  suspended : gmap JobId Continuation;
  effects : list Effect }.

Definition initial : State :=
  {| calendarJobs := ∅; calendarJobSeq := 0; idempotency := ∅;
     workflowJobs := ∅; workflowSeq := 0; suspended := ∅; effects := [] |}.

Definition with_calendarJobs (f : gmap JobId CalendarJob -> gmap JobId CalendarJob)
  (seq : nat) (st : State) : State :=
  {| calendarJobs := f (calendarJobs st); calendarJobSeq := seq;
     idempotency := idempotency st; workflowJobs := workflowJobs st;
     workflowSeq := workflowSeq st; suspended := suspended st; effects := effects st |}.

Definition with_idempotency (f : gmap string IdemEntry -> gmap string IdemEntry)
  (st : State) : State :=
  {| calendarJobs := calendarJobs st; calendarJobSeq := calendarJobSeq st;
     idempotency := f (idempotency st); workflowJobs := workflowJobs st;
     workflowSeq := workflowSeq st; suspended := suspended st; effects := effects st |}.

Definition with_workflowJobs (f : gmap JobId WorkflowJob -> gmap JobId WorkflowJob)
  (st : State) : State :=
  {| calendarJobs := calendarJobs st; calendarJobSeq := calendarJobSeq st;
     idempotency := idempotency st; workflowJobs := f (workflowJobs st);
     workflowSeq := workflowSeq st; suspended := suspended st; effects := effects st |}.

Definition with_workflowSeq (seq : nat) (st : State) : State :=
  {| calendarJobs := calendarJobs st; calendarJobSeq := calendarJobSeq st;
     idempotency := idempotency st; workflowJobs := workflowJobs st;
     workflowSeq := seq; suspended := suspended st; effects := effects st |}.

Definition with_suspended (f : gmap JobId Continuation -> gmap JobId Continuation)
  (st : State) : State :=
  {| calendarJobs := calendarJobs st; calendarJobSeq := calendarJobSeq st;
     idempotency := idempotency st; workflowJobs := workflowJobs st;
     workflowSeq := workflowSeq st; suspended := f (suspended st); effects := effects st |}.

Definition emit (e : Effect) (st : State) : State :=
  {| calendarJobs := calendarJobs st; calendarJobSeq := calendarJobSeq st;
     idempotency := idempotency st; workflowJobs := workflowJobs st;
     workflowSeq := workflowSeq st; suspended := suspended st;
     effects := effects st ++ [e] |}.

(** *** Workflow records *)

(** [job.step = label; job.updatedAtMs = now] *)
Definition set_step (label : string) (now : Z) (job : WorkflowJob) : WorkflowJob :=
  {| wj_jobId := wj_jobId job; wj_status := wj_status job;
     wj_createdAtMs := wj_createdAtMs job; wj_updatedAtMs := now;
     wj_step := label; wj_meta := wj_meta job; wj_result := wj_result job;
     wj_error := wj_error job; wj_steps := wj_steps job ++ [label] |}.

(** [job.status = "done"; job.step = "done"; job.updatedAtMs = now] *)
Definition set_done (now : Z) (job : WorkflowJob) : WorkflowJob :=
  {| wj_jobId := wj_jobId job; wj_status := WfDone;
     wj_createdAtMs := wj_createdAtMs job; wj_updatedAtMs := now;
     wj_step := "done"; wj_meta := wj_meta job; wj_result := wj_result job;
     wj_error := wj_error job; wj_steps := wj_steps job ++ ["done"] |}.

(** The [catch] block of a workflow:
    [job.status = "error"; job.step = "error"; job.error = e.toString()]. *)
Definition set_error (e : Exn) (now : Z) (job : WorkflowJob) : WorkflowJob :=
  {| wj_jobId := wj_jobId job; wj_status := WfError;
     wj_createdAtMs := wj_createdAtMs job; wj_updatedAtMs := now;
     wj_step := "error"; wj_meta := wj_meta job; wj_result := wj_result job;
     wj_error := Some (exn_toString e); wj_steps := wj_steps job ++ ["error"] |}.

Definition set_result (r : WfResult) (now : Z) (job : WorkflowJob) : WorkflowJob :=
  {| wj_jobId := wj_jobId job; wj_status := wj_status job;
     wj_createdAtMs := wj_createdAtMs job; wj_updatedAtMs := now;
     wj_step := wj_step job; wj_meta := wj_meta job; wj_result := Some r;
     wj_error := wj_error job; wj_steps := wj_steps job |}.

Definition put_cont (wf : JobId) (k : option Continuation)
  (m : gmap JobId Continuation) : gmap JobId Continuation :=
  match k with
  | Some c => <[wf := c]> m
  | None => delete wf m
  end.

(** Update the record of [wf] in place and leave it suspended at [k], or
    settled when [k] is [None]. *)
Definition update_job (wf : JobId) (f : WorkflowJob -> WorkflowJob)
  (k : option Continuation) (st : State) : State :=
  with_suspended (put_cont wf k) (with_workflowJobs (alter f wf) st).

(** ** TbSync *)

(** [assertTbSyncInstalled] followed by the rest of [getTbSyncModule]. *)
Definition getTbSyncModule (tb : TbSyncEnv) : Outcome unit :=
  if negb (tbs_active tb) then
    Threw (Error "TbSync is not installed/enabled (expected add-on id: tbsync@jobisoft.de).")
  else if negb (eas_active tb) then
    Threw (Error "Provider for Exchange ActiveSync is not installed/enabled (expected add-on id: eas4tbsync@jobisoft.de).")
  else if negb (ext_available tb) then
    Threw (Error "TbSync extension is not available via ExtensionParent.GlobalManager.")
  else match load_throws tb with
       | Some e => Threw e
       | None => Returned tt
       end.

(** [tbsyncSyncAccountByUser]: trigger a sync of the one account whose user
    is [userEmail]; the trigger is fire-and-forget. *)
Definition tbsyncSyncAccountByUser (tb : TbSyncEnv) (userEmail : option string)
  (st : State) : State * Outcome SyncReply :=
  match getTbSyncModule tb with
  | Threw e => (st, Threw e)
  | Returned _ =>
      let needle := Js.trim (Js.toLowerCase (Js.orEmpty userEmail)) in
      let matches :=
        acc_id <$> List.filter
          (fun a => String.eqb (Js.trim (Js.toLowerCase (Js.orEmpty (acc_user a)))) needle)
          (accounts tb) in
      match matches with
      | [] => (st, Returned (SyncError ("No TbSync account found with user=" +:+ needle)))
      | [id] => (emit (SyncAccount id) st, Returned (SyncTriggered id needle))
      | _ => (st, Returned (SyncError ("Multiple TbSync accounts found with user=" +:+ needle
                                        +:+ ": " +:+ String.concat "," matches)))
      end
  end.

(** ** Calendar jobs *)

(** [startAddItemJob]: register a pending job, then hand the item to the
    provider; a provider that raises at once marks the job failed.  What
    the provider reports later through the listener (done or failed, and
    the id of the item) is outside this model: nothing below reads it. *)
Definition startAddItemJob (env : CalEnv) (target : Calendar) (itemTitle : string)
  (meta : CalJobKind) (t_id t_created : Z) (st : State) : State * CalendarJob :=
  let jobId := (t_id, S (calendarJobSeq st)) in
  let job := {| cj_jobId := jobId; cj_status := JobPending; cj_createdAtMs := t_created;
                cj_meta := meta; cj_error := None; cj_deletedId := None |} in
  let job' := match addItem_throws env with
              | Some e => {| cj_jobId := jobId; cj_status := JobError;
                             cj_createdAtMs := t_created; cj_meta := meta;
                             cj_error := Some (exn_toString e); cj_deletedId := None |}
              | None => job
              end in
  (emit (ProviderAddItem (cal_id target) itemTitle)
     (with_calendarJobs (insert jobId job') (S (calendarJobSeq st)) st), job').

(** [startDeleteItemJob], for the [n]-th delete of the stretch; the later
    report of the listener is left out as in [startAddItemJob]. *)
Definition startDeleteItemJob (env : CalEnv) (n : nat) (target : Calendar)
  (itemId : string) (meta : CalJobKind) (t_id t_created : Z) (st : State)
  : State * CalendarJob :=
  let jobId := (t_id, S (calendarJobSeq st)) in
  let deletedId := if String.eqb itemId "" then None else Some itemId in
  let job := {| cj_jobId := jobId; cj_status := JobPending; cj_createdAtMs := t_created;
                cj_meta := meta; cj_error := None; cj_deletedId := deletedId |} in
  let job' := match deleteItem_throws env n with
              | Some e => {| cj_jobId := jobId; cj_status := JobError;
                             cj_createdAtMs := t_created; cj_meta := meta;
                             cj_error := Some (exn_toString e); cj_deletedId := deletedId |}
              | None => job
              end in
  (emit (ProviderDeleteItem (cal_id target) itemId)
     (with_calendarJobs (insert jobId job') (S (calendarJobSeq st)) st), job').

(** ** Creating an event *)

Definition requestTag (mcpTag : option string) (allDay : option bool)
  (date start end_ : option string) : string :=
  if Js.truthy mcpTag then Js.trim (Js.orEmpty mcpTag)
  else shortTagForEvent allDay date start end_.

Definition calendarNotFound (calendarName calendarId : option string) : string :=
  "Calendar not found (name=" +:+ Js.orEmpty calendarName +:+ ", id="
    +:+ Js.orEmpty calendarId +:+ ")".

Definition invalidDatetime (start end_ : option string) : string :=
  "Invalid datetime format (expected YYYY-MM-DDTHH:MM): start=" +:+ Js.orEmpty start
    +:+ " end=" +:+ Js.orEmpty end_.

(** [createCalendarEvent]; [t_id] and [t_created] are the clock readings its
    add-item job takes. *)
Definition createCalendarEvent (env : CalEnv) (t_id t_created : Z) (args : CreateArgs)
  (st : State) : State * Outcome CreateReply :=
  if negb (cal_available env) then (st, Returned (CreateError "Calendar not available"))
  else if negb (Js.truthy (title args)) then
    (st, Returned (CreateError "Missing required field: title"))
  else match allDay args with
  | None => (st, Returned (CreateError "Missing required field: allDay (boolean)"))
  | Some isAllDay =>
  match resolveCalendar (calendars env) (calendarName args) (calendarId args) with
  | None => (st, Returned (CreateError (calendarNotFound (calendarName args) (calendarId args))))
  | Some target =>
  if cal_readOnly target then
    (st, Returned (CreateError ("Calendar is read-only: " +:+ cal_name target)))
  else match createInstance_throws env 0 with
  | Some e => (st, Threw e)
  | None =>
  let tag := requestTag (mcpTag args) (allDay args) (date args) (start args) (end_ args) in
  let evTitle := withTagAtEnd (title args) (Some tag) in
  let rangeError : option string :=
    if isAllDay then
      if negb (Js.truthy (date args)) then
        Some "Missing required field for all-day events: date (YYYY-MM-DD)"
      else match makeAllDayRange (Js.orEmpty (date args)) with
           | None => Some ("Invalid date format (expected YYYY-MM-DD): "
                             +:+ Js.orEmpty (date args))
           | Some _ => None
           end
    else
      if negb (Js.truthy (start args)) || negb (Js.truthy (end_ args)) then
        Some "Missing required fields for timed events: start, end (YYYY-MM-DDTHH:MM)"
      else match makeTimedRange (nativeTime env) (start args) (end_ args) with
           | RangeNull => Some (invalidDatetime (start args) (end_ args))
           | RangeError msg => Some msg
           | Range _ _ => None
           end in
  match rangeError with
  | Some msg => (st, Returned (CreateError msg))
  | None =>
      let '(st', job) :=
        startAddItemJob env target evTitle
          (AddItem (cal_id target) (Js.orEmpty (title args))) t_id t_created st in
      (st', Returned (CreateStarted (cal_id target) (Js.orEmpty (title args)) isAllDay
                        (match cj_status job with JobPending => true | _ => false end)
                        (cj_jobId job)))
  end end end end.

(** ** The idempotency cache *)

(** The test of [cleanupIdempotency]: [!v.ts || now - v.ts > IDEMPOTENCY_TTL_MS]. *)
Definition expired (now : Z) (v : IdemEntry) : bool :=
  (ts v =? 0)%Z || (now - ts v >? IDEMPOTENCY_TTL_MS)%Z.

(** [cleanupIdempotency] *)
Definition cleanupIdempotency (now : Z) (st : State) : State :=
  with_idempotency (filter (fun kv => expired now kv.2 = false)) st.

(** [idempotencyKey] *)
Definition idempotencyKey (args : CreateArgs) : string :=
  let calKey := Js.orEmpty (Js.orElse (calendarId args) (calendarName args)) in
  let tag := requestTag (mcpTag args) (allDay args) (date args) (start args) (end_ args) in
  if default false (allDay args) then
    calKey +:+ "|" +:+ Js.orEmpty (date args) +:+ "|" +:+ tag +:+ "|" +:+ Js.orEmpty (title args)
  else
    calKey +:+ "|" +:+ (Js.orEmpty (start args) +:+ "-" +:+ Js.orEmpty (end_ args))
      +:+ "|" +:+ tag.

(** The request as the workflow carries it: tag resolved, title tagged. *)
Definition argsWithTag (args : CreateArgs) : CreateArgs :=
  let tag := requestTag (mcpTag args) (allDay args) (date args) (start args) (end_ args) in
  assignTagTitle args tag (withTagAtEnd (title args) (Some tag)).

(** The fingerprint of a request. *)
Definition fingerprint (args : CreateArgs) : string := idempotencyKey (argsWithTag args).

(** ** The create workflow *)

(** [newWorkflowJobId] *)
Definition newWorkflowJobId (now : Z) (st : State) : JobId * State :=
  ((now, S (workflowSeq st)), with_workflowSeq (S (workflowSeq st)) st).

Inductive CreateResponse :=
| RespError (msg : string)
| RespAlreadyCreated (idempotencyKey : string) (created : Payload)
| RespStarted (workflowJobId : JobId) (idempotencyKey : string).

(** [syncAndCreateCalendarEvent] up to its [return]: the cache is swept and
    consulted, and on a miss the workflow is registered, the pending entry
    is stored, and the background function runs to its first [await]. *)
Definition syncAndCreateCalendarEvent (args : CreateArgs) (clk : Clock) (st : State)
  : State * CreateResponse :=
  if negb (Js.truthy (tbsyncUser args)) then
    (st, RespError "Missing required field: tbsyncUser (email)")
  else
    let st := cleanupIdempotency (clk 0) st in
    let withTag := argsWithTag args in
    let key := idempotencyKey withTag in
    match idempotency st !! key with
    | Some seen => (st, RespAlreadyCreated key (created seen))
    | None =>
        let '(wfJobId, st) := newWorkflowJobId (clk 1) st in
        let job := {| wj_jobId := wfJobId; wj_status := Running;
                      wj_createdAtMs := clk 2; wj_updatedAtMs := clk 3;
                      wj_step := "start";
                      wj_meta := MetaCreate key (tbsyncUser args)
                                   (Js.orElse (calendarId withTag) (calendarName withTag));
                      wj_result := None; wj_error := None; wj_steps := ["start"] |} in
        let st := with_workflowJobs (insert wfJobId job) st in
        let st := with_idempotency
                    (insert key {| ts := clk 4; created := PendingWorkflow wfJobId |}) st in
        let st := update_job wfJobId (set_step "preSync" (clk 5))
                    (Some (AwaitPreSync withTag key)) st in
        (st, RespStarted wfJobId key)
    end.

(** ** Finding candidates in local.sqlite *)

(** The conjuncts of the [WHERE] clause, with their bound parameters. *)
Inductive Clause :=
| CalIdIs (cal_id : string)                    (* cal_id = :cal_id *)
| StartWithin (start_us end_us : Z)            (* event_start >= :start_us AND event_start < :end_us *)
| LowerTitleLike (pattern : string).           (* lower(title) LIKE :kwN *)

(** The keyword loop: one [LIKE] conjunct per keyword that is not blank. *)
Definition keywordClauses (titleMustContainAll : option (list string)) : list Clause :=
  flat_map
    (fun kwRaw =>
       let kw := Js.trim (Js.toLowerCase kwRaw) in
       if String.eqb kw "" then [] else [LowerTitleLike ("%" +:+ kw +:+ "%")])
    (default [] titleMustContainAll).

Definition whereClauses (env : CalEnv) (target : Calendar) (range_start range_end : DateTime)
  (titleMustContainAll : option (list string)) : list Clause :=
  CalIdIs (cal_id target)
  :: StartWithin (nativeTime env range_start) (nativeTime env range_end)
  :: keywordClauses titleMustContainAll.

(** SQLite's [LIKE]: [%] stands for any run of characters, [_] for any one
    character, and other characters match without regard to ASCII case. *)
Fixpoint sql_like (pattern text : string) : bool :=
  match pattern with
  | EmptyString => match text with EmptyString => true | _ => false end
  | String p ps =>
      if Ascii.eqb p "%" then
        (fix any (t : string) : bool :=
           sql_like ps t
           || match t with
              | EmptyString => false
              | String _ t' => any t'
              end) text
      else
        match text with
        | EmptyString => false
        | String c t' =>
            (Ascii.eqb p "_" || Ascii.eqb (Js.lower_char p) (Js.lower_char c))
            && sql_like ps t'
        end
  end.

(** One conjunct on one row; a comparison with NULL is not true. *)
Definition holds (row : CalEventRow) (c : Clause) : bool :=
  match c with
  | CalIdIs id => String.eqb (row_cal_id row) id
  | StartWithin s e => (s <=? row_event_start row)%Z && (row_event_start row <? e)%Z
  | LowerTitleLike p =>
      match row_title row with
      | Some t => sql_like p (Js.toLowerCase t)
      | None => false
      end
  end.

(** [SELECT id, title FROM cal_events WHERE c1 AND c2 AND ...] *)
Definition selectCandidates (clauses : list Clause) (table : list CalEventRow)
  : list (string * option string) :=
  (fun r => (row_id r, row_title r)) <$> List.filter (fun r => forallb (holds r) clauses) table.

(** ** The SQL delete workflow *)

Record DeleteArgs := {
  d_tbsyncUser : option string;
  d_calendarName : option string;
  d_calendarId : option string;
  d_start : option string;
  d_end : option string;
  d_titleMustContainAll : option (list string) }.

Inductive DeleteResponse :=
| DelError (msg : string)
| DelStarted (workflowJobId : JobId).

(** [syncAndDeleteEventsBySql] up to its [return]. *)
Definition syncAndDeleteEventsBySql (args : DeleteArgs) (env : CalEnv) (clk : Clock)
  (st : State) : State * Outcome DeleteResponse :=
  if negb (Js.truthy (d_tbsyncUser args)) then
    (st, Returned (DelError "Missing required field: tbsyncUser"))
  else if negb (Js.truthy (d_start args)) || negb (Js.truthy (d_end args)) then
    (st, Returned (DelError "Missing required fields: start, end (YYYY-MM-DDTHH:MM)"))
  else if negb (cal_available env) then
    (st, Threw {| exn_name := "TypeError"; exn_message := "cal is null" |})
  else match resolveCalendar (calendars env) (d_calendarName args) (d_calendarId args) with
  | None =>
      (st, Returned (DelError (calendarNotFound (d_calendarName args) (d_calendarId args))))
  | Some target =>
  if cal_readOnly target then
    (st, Returned (DelError ("Calendar is read-only: " +:+ cal_name target)))
  else match makeTimedRange (nativeTime env) (d_start args) (d_end args) with
  | RangeNull => (st, Returned (DelError (invalidDatetime (d_start args) (d_end args))))
  | RangeError msg => (st, Returned (DelError msg))
  | Range range_start range_end =>
      let '(wfJobId, st) := newWorkflowJobId (clk 0) st in
      let job := {| wj_jobId := wfJobId; wj_status := Running;
                    wj_createdAtMs := clk 1; wj_updatedAtMs := clk 2;
                    wj_step := "querySql";
                    wj_meta := MetaDelete (d_tbsyncUser args) target (d_start args)
                                 (d_end args) (d_titleMustContainAll args);
                    wj_result := Some (ResultDelete 0 0 0 []); wj_error := None;
                    wj_steps := ["querySql"] |} in
      let st := with_workflowJobs (insert wfJobId job) st in
      let st := with_suspended
                  (insert wfJobId (AwaitSql (d_tbsyncUser args) target range_start range_end
                                     (d_titleMustContainAll args))) st in
      (st, Returned (DelStarted wfJobId))
  end end.

(** The delete loop from candidate number [n] on.  The [try] holds the
    creation of the dummy event and [startDeleteItemJob]; what it catches
    adds to [deleteErrors], what passes adds to [deleteTriggered]. *)
Fixpoint dispatchDeletes (env : CalEnv) (clk : Clock) (target : Calendar) (n : nat)
  (ids : list (string * option string)) (triggered errors : nat) (st : State)
  : State * nat * nat :=
  match ids with
  | [] => (st, triggered, errors)
  | (id, title) :: rest =>
      match createInstance_throws env n with
      | Some _ => dispatchDeletes env clk target (S n) rest triggered (S errors) st
      | None =>
          let '(st', _) :=
            startDeleteItemJob env n target id (DeleteItem "sqlBulkDelete" title)
              (clk (3 * n + 1)) (clk (3 * n + 2)) st in
          dispatchDeletes env clk target (S n) rest (S triggered) errors st'
      end
  end.

(** The background function of [syncAndDeleteEventsBySql], from the opening
    of the database to the terminal status.  Its three awaits (open,
    execute, close) are taken in one stretch: between them nothing else
    writes the record of this job, and the delete loop has no await.
    [sqlStretch] below takes them apart. *)
Definition runSqlDelete (wf : JobId) (user : option string) (target : Calendar)
  (range_start range_end : DateTime) (titleMustContainAll : option (list string))
  (w : World) (clk : Clock) (st : State) : State :=
  match open_throws (w_sql w) with
  | Some e => update_job wf (set_error e (clk 0)) None st
  | None =>
      match execute_throws (w_sql w) with
      | Some e =>
          (* finally: conn.close(); what it raises replaces [e] *)
          let e' := default e (close_throws (w_sql w)) in
          update_job wf (set_error e' (clk 0)) None st
      | None =>
          let ids := selectCandidates
                       (whereClauses (w_cal w) target range_start range_end titleMustContainAll)
                       (cal_events (w_sql w)) in
          let st := update_job wf (set_step "delete" (clk 0)) None st in
          let '(st, triggered, errors) :=
            dispatchDeletes (w_cal w) clk target 0 ids 0 0 st in
          let n := length ids in
          let result := ResultDelete n triggered errors (firstn 10 ids) in
          let st := update_job wf (set_result result (clk (3 * n))) None st in
          match close_throws (w_sql w) with
          | Some e => update_job wf (set_error e (clk (3 * n + 1))) None st
          | None =>
              let st := update_job wf (set_step "postSync" (clk (3 * n + 1))) None st in
              (* two triggers, not awaited; what they return or raise is dropped *)
              let st := (tbsyncSyncAccountByUser (w_tb w) user st).1 in
              let st := (tbsyncSyncAccountByUser (w_tb w) user st).1 in
              update_job wf (set_done (clk (3 * n + 2))) None st
          end
      end
  end.

(** ** Resuming the workflows *)

(** One resumption of workflow [wf]: the awaited call settles with what the
    world [w] makes of it, and the background function runs to the next
    call it awaits, or to its end.  The timer waits [sleepMs(1500)] before
    [createCalendarEvent] and before each post-sync write nothing: each is
    taken together with the call that follows it. *)
Definition resume (wf : JobId) (w : World) (clk : Clock) (st : State) : State :=
  match suspended st !! wf with
  | None => st
  | Some (AwaitPreSync args key) =>
      match tbsyncSyncAccountByUser (w_tb w) (tbsyncUser args) st with
      | (st, Threw e) => update_job wf (set_error e (clk 0)) None st
      | (st, Returned pre) =>
          update_job wf (set_step "create" (clk 0)) (Some (AwaitCreate args key pre)) st
      end
  | Some (AwaitCreate args key pre) =>
      match createCalendarEvent (w_cal w) (clk 0) (clk 1) args st with
      | (st, Threw e) => update_job wf (set_error e (clk 2)) None st
      | (st, Returned created) =>
          update_job wf (set_step "postSync" (clk 2))
            (Some (AwaitPostSync (tbsyncUser args) key pre created)) st
      end
  | Some (AwaitPostSync user key pre created) =>
      match tbsyncSyncAccountByUser (w_tb w) user st with
      | (st, Threw e) => update_job wf (set_error e (clk 0)) None st
      | (st, Returned post) =>
          update_job wf (fun job => job) (Some (AwaitPostSync2 user key pre created post)) st
      end
  | Some (AwaitPostSync2 user key pre created post) =>
      match tbsyncSyncAccountByUser (w_tb w) user st with
      | (st, Threw e) => update_job wf (set_error e (clk 0)) None st
      | (st, Returned post2) =>
          let st := update_job wf
                      (fun job => set_result (ResultCreate pre created post post2) (clk 0)
                                    (set_done (clk 0) job)) None st in
          with_idempotency
            (insert key {| ts := clk 1; created := Completed pre created post post2 |}) st
      end
  | Some (AwaitSql user target range_start range_end needles) =>
      runSqlDelete wf user target range_start range_end needles w clk st
  end.

(** What happens to the server, one synchronous stretch at a time: a
    workflow is resumed, or a request arrives. *)
Inductive Event :=
| Resume (wf : JobId) (w : World) (clk : Clock)
| CreateRequest (args : CreateArgs) (clk : Clock)
| DeleteRequest (args : DeleteArgs) (env : CalEnv) (clk : Clock).

Definition step (ev : Event) (st : State) : State :=
  match ev with
  | Resume wf w clk => resume wf w clk st
  | CreateRequest args clk => (syncAndCreateCalendarEvent args clk st).1
  | DeleteRequest args env clk => (syncAndDeleteEventsBySql args env clk st).1
  end.

(** A run: any interleaving of resumptions and requests. *)
Fixpoint run (evs : list Event) (st : State) : State :=
  match evs with
  | [] => st
  | ev :: rest => run rest (step ev st)
  end.

(** ** Deleting through TbSync's item list *)

(** [containsAll]: every needle that is not blank, lower-cased and trimmed,
    occurs in the lower-cased haystack. *)
Definition containsAll (haystack : option string) (needles : option (list string)) : bool :=
  let h := Js.toLowerCase (Js.orEmpty haystack) in
  forallb
    (fun n =>
       let nn := Js.trim (Js.toLowerCase n) in
       String.eqb nn "" || Js.includes h nn)
    (default [] needles).

(** [toJsDate(dt).getTime()] of a range bound: the same instant in
    milliseconds. *)
Definition jsTime (env : CalEnv) (dt : DateTime) : Z := (nativeTime env dt / 1000)%Z.

(** [clampDateTimeToRange] *)
Definition clampDateTimeToRange (dt : option Z) (startJs endJs : Z) : bool :=
  match dt with
  | None => false
  | Some t => (startJs <=? t)%Z && (t <? endJs)%Z
  end.

(** The item loop of one folder; it stops at the first delete that raises. *)
Fixpoint scanItems (needles : option (list string)) (startJs endJs : Z)
  (items : list NativeItem) (matched deleted : nat) : nat * nat * option Exn :=
  match items with
  | [] => (matched, deleted, None)
  | it :: rest =>
      if negb (containsAll (ni_title it) needles) then
        scanItems needles startJs endJs rest matched deleted
      else if negb (clampDateTimeToRange (ni_start it) startJs endJs) then
        scanItems needles startJs endJs rest matched deleted
      else match ni_delete_throws it with
           | Some e => (S matched, deleted, Some e)
           | None => scanItems needles startJs endJs rest (S matched) (S deleted)
           end
  end.

Record BulkReply := {
  folderCount : nat; totalItems : nat; matched : nat; deleted : nat;
  errors : list string }.

(** The folder loop. *)
Fixpoint scanFolders (needles : option (list string)) (startJs endJs : Z)
  (folders : list EasFolder) (acc : BulkReply) : BulkReply :=
  match folders with
  | [] => acc
  | f :: rest =>
      let acc' :=
        match f_items f with
        | ItemsThrow e =>
            {| folderCount := folderCount acc; totalItems := totalItems acc;
               matched := matched acc; deleted := deleted acc;
               errors := errors acc ++ [exn_toString e] |}
        | ItemsNotArray =>
            {| folderCount := folderCount acc; totalItems := totalItems acc;
               matched := matched acc; deleted := deleted acc;
               errors := errors acc ++ ["getAllItems did not return an array"] |}
        | ItemsArray items =>
            let '(m, d, raised) :=
              scanItems needles startJs endJs items (matched acc) (deleted acc) in
            {| folderCount := folderCount acc;
               totalItems := totalItems acc + length items;
               matched := m; deleted := d;
               errors := errors acc ++ match raised with
                                       | Some e => [exn_toString e]
                                       | None => []
                                       end |}
        end in
      scanFolders needles startJs endJs rest acc'
  end.

Definition matchingFolders (tb : TbSyncEnv) (target : Calendar) : list EasFolder :=
  List.filter (fun f => String.eqb (Js.orEmpty (f_target f)) (cal_id target)) (eas_folders tb).

(** [tbsyncDeleteEasEventsByTitleRange]: [inl] is its [{ error }] reply. *)
Definition tbsyncDeleteEasEventsByTitleRange (args : DeleteArgs) (env : CalEnv)
  (tb : TbSyncEnv) : Outcome (string + BulkReply) :=
  if negb (Js.truthy (d_tbsyncUser args)) then
    Returned (inl "Missing required field: tbsyncUser")
  else if negb (Js.truthy (d_start args)) || negb (Js.truthy (d_end args)) then
    Returned (inl "Missing required fields: start, end (YYYY-MM-DDTHH:MM)")
  else if negb (cal_available env) then
    Threw {| exn_name := "TypeError"; exn_message := "cal is null" |}
  else match resolveCalendar (calendars env) (d_calendarName args) (d_calendarId args) with
  | None => Returned (inl "Calendar not found")
  | Some target =>
  match getTbSyncModule tb with
  | Threw e => Threw e
  | Returned _ =>
  match makeTimedRange (nativeTime env) (d_start args) (d_end args) with
  | RangeNull => Returned (inl (invalidDatetime (d_start args) (d_end args)))
  | RangeError msg => Returned (inl msg)
  | Range range_start range_end =>
      let folders := matchingFolders tb target in
      Returned (inr (scanFolders (d_titleMustContainAll args)
                       (jsTime env range_start) (jsTime env range_end) folders
                       {| folderCount := length folders; totalItems := 0;
                          matched := 0; deleted := 0; errors := [] |}))
  end end end.

(** ** The words of the specification, for comparison *)

(** "The title contains every required substring, case-insensitively." *)
Definition spec_containsEvery (title : string) (required : list string) : bool :=
  forallb (fun n => Js.includes (Js.toLowerCase title) (Js.toLowerCase n)) required.

(** "The time lies in [start, end)." *)
Definition spec_within (start_ end_ t : Z) : bool := (start_ <=? t)%Z && (t <? end_)%Z.

(** The required substrings as the server reads them: lower-cased, trimmed,
    blank ones dropped. *)
Definition keywords (titleMustContainAll : option (list string)) : list string :=
  List.filter (fun kw => negb (String.eqb kw ""))
    ((fun n => Js.trim (Js.toLowerCase n)) <$> default [] titleMustContainAll).

(** A keyword free of the [LIKE] wildcards [%] and [_]. *)
Fixpoint plain (kw : string) : bool :=
  match kw with
  | EmptyString => true
  | String c r => negb (Ascii.eqb c "%") && negb (Ascii.eqb c "_") && plain r
  end.

(** Every character of [s] passes the test [p]. *)
Fixpoint all_chars (p : ascii -> bool) (s : string) : bool :=
  match s with
  | EmptyString => true
  | String c r => p c && all_chars p r
  end.

Definition is_lowered (c : ascii) : bool := Ascii.eqb (Js.lower_char c) c.

(** "A local YYYY-MM-DDTHH:MM wall-clock time": the fields name a month of
    the year, a day of that month, an hour of the day and a minute of the
    hour. *)
Definition spec_leap_year (y : Z) : bool :=
  ((y mod 4 =? 0) && (negb (y mod 100 =? 0) || (y mod 400 =? 0)))%Z.

Definition spec_days_in_month (y mo : Z) : Z :=
  (if (mo =? 2) then (if spec_leap_year y then 29 else 28)
   else if (mo =? 4) || (mo =? 6) || (mo =? 9) || (mo =? 11) then 30
   else 31)%Z.

Definition spec_wall_clock (p : LocalDateTime) : bool :=
  ((1 <=? ldt_mo p) && (ldt_mo p <=? 12)
   && (1 <=? ldt_d p) && (ldt_d p <=? spec_days_in_month (ldt_y p) (ldt_mo p))
   && (0 <=? ldt_hh p) && (ldt_hh p <=? 23)
   && (0 <=? ldt_mm p) && (ldt_mm p <=? 59))%Z.

(** "Malformed: not parseable as a local YYYY-MM-DDTHH:MM wall-clock time,
    or with end not after start." *)
Definition spec_malformed_window (env : CalEnv) (s e : option string) : Prop :=
  match parseDateTimeLocal s, parseDateTimeLocal e with
  | Some ps, Some pe =>
      spec_wall_clock ps = false \/ spec_wall_clock pe = false
      \/ (nativeTime env (timedDateTime pe) <= nativeTime env (timedDateTime ps))%Z
  | _, _ => True
  end.

(** The step labels of the specification's single-item protocol. *)
Definition spec_steps : list string := ["preSync"; "mutate"; "postSync"; "postSync2"].

(** "[preSync, mutate, postSync, postSync2] ending in done, or a strict
    prefix of that sequence ending in error." *)
Definition spec_step_sequence (l : list string) : Prop :=
  l = spec_steps ++ ["done"]
  \/ exists p, p `prefix_of` spec_steps /\ p <> spec_steps /\ l = p ++ ["error"].

(** The step labels the server assigns in the create workflow. *)
Definition create_steps : list string := ["start"; "preSync"; "create"; "postSync"].

(** ** Invariants of the tables *)

(** Two states with the same cache, workflow table, counter and
    continuations: they differ in calendar jobs and outgoing calls only. *)
Definition same_tables (st st' : State) : Prop :=
  idempotency st' = idempotency st
  /\ workflowJobs st' = workflowJobs st
  /\ workflowSeq st' = workflowSeq st
  /\ suspended st' = suspended st.

(** Every workflow id in use was issued by the counter. *)

(** The fingerprint a continuation will write to the cache when its
    workflow completes. *)
Definition cont_key (k : Continuation) : option string :=
  match k with
  | AwaitPreSync _ key | AwaitCreate _ key _
  | AwaitPostSync _ key _ _ | AwaitPostSync2 _ key _ _ _ => Some key
  | AwaitSql _ _ _ _ _ => None
  end.

Definition ids_issued (st : State) : Prop :=
  map_Forall (fun id _ => id.2 <= workflowSeq st) (workflowJobs st).

(** No workflow in flight will write fingerprint [key] to the cache. *)
Definition no_carrier (key : string) (st : State) : Prop :=
  map_Forall (fun _ k => cont_key k <> Some key) (suspended st).

#[global] Instance ids_issued_dec (st : State) : Decision (ids_issued st).
Proof. unfold ids_issued. apply _. Defined.

#[global] Instance no_carrier_dec (key : string) (st : State) : Decision (no_carrier key st).
Proof. unfold no_carrier. apply _. Defined.

(** The labels recorded so far when a workflow waits at a continuation. *)
Definition cont_steps (k : Continuation) : list string :=
  match k with
  | AwaitPreSync _ _ => firstn 2 create_steps
  | AwaitCreate _ _ _ => firstn 3 create_steps
  | AwaitPostSync _ _ _ _ | AwaitPostSync2 _ _ _ _ _ => create_steps
  | AwaitSql _ _ _ _ _ => ["querySql"]
  end.

(** The label sequences of the create workflow: in flight, done, failed. *)
Definition create_sequence (status : WfStatus) (steps : list string) : Prop :=
  match status with
  | Running => exists n, 2 <= n <= 4 /\ steps = firstn n create_steps
  | WfDone => steps = create_steps ++ ["done"]
  | WfError => exists n, 2 <= n <= 4 /\ steps = firstn n create_steps ++ ["error"]
  end.

(** The record of create workflow [wf] agrees with its continuation. *)
Definition create_record_ok (wf : JobId) (st : State) : Prop :=
  exists job,
    workflowJobs st !! wf = Some job
    /\ create_sequence (wj_status job) (wj_steps job)
    /\ last (wj_steps job) = Some (wj_step job)
    /\ match suspended st !! wf with
       | Some k => wj_status job = Running /\ wj_steps job = cont_steps k
                   /\ is_Some (cont_key k)
       | None => wj_status job <> Running
       end.

(** Create workflow [wf] is registered under an id the counter has issued,
    and its record agrees with its continuation. *)
Definition create_workflow_ok (wf : JobId) (st : State) : Prop :=
  wf.2 <= workflowSeq st /\ create_record_ok wf st.

(** For as long as workflow [wf] is in flight it holds the pending cache
    entry of fingerprint [key], and no other workflow in flight carries
    [key]. *)
Definition holds_pending (wf : JobId) (key : string) (t : Z) (st : State) : Prop :=
  match suspended st !! wf with
  | Some k =>
      cont_key k = Some key
      /\ idempotency st !! key = Some {| ts := t; created := PendingWorkflow wf |}
      /\ (forall wf' k', wf' <> wf -> suspended st !! wf' = Some k' ->
          cont_key k' <> Some key)
  | None => True
  end.

Definition is_delete (e : Effect) : bool :=
  match e with ProviderDeleteItem _ _ => true | _ => false end.

Definition is_add (e : Effect) : bool :=
  match e with ProviderAddItem _ _ => true | _ => false end.

(** The state a started request leaves: sweep, registration, pending
    entry, and the background function at its first [await]. *)
Definition started_state (args : CreateArgs) (clk : Clock) (st : State) : State :=
  let key := fingerprint args in
  let wf := (clk 1, S (workflowSeq st)) in
  let job := {| wj_jobId := wf; wj_status := Running;
                wj_createdAtMs := clk 2; wj_updatedAtMs := clk 5;
                wj_step := "preSync";
                wj_meta := MetaCreate key (tbsyncUser args)
                             (Js.orElse (calendarId args) (calendarName args));
                wj_result := None; wj_error := None;
                wj_steps := ["start"; "preSync"] |} in
  {| calendarJobs := calendarJobs st; calendarJobSeq := calendarJobSeq st;
     idempotency := <[key := {| ts := clk 4; created := PendingWorkflow wf |}]>
                      (idempotency (cleanupIdempotency (clk 0) st));
     workflowJobs := <[wf := job]> (workflowJobs st);
     workflowSeq := S (workflowSeq st);
     suspended := <[wf := AwaitPreSync (argsWithTag args) key]> (suspended st);
     effects := effects st |}.

(** The event is a resumption of [wf]. *)
Definition resumes (wf : JobId) (ev : Event) : bool :=
  match ev with
  | Resume wf' _ _ => bool_decide (wf' = wf)
  | _ => false
  end.

(** The event does not sweep the cache later than the TTL after [t]. *)
Definition sweeps_within (t : Z) (ev : Event) : Prop :=
  match ev with
  | CreateRequest _ clk => (clk 0%nat - t <= IDEMPOTENCY_TTL_MS)%Z
  | _ => True
  end.

(** The request with another title. *)
Definition with_title (t : option string) (args : CreateArgs) : CreateArgs :=
  {| tbsyncUser := tbsyncUser args; calendarName := calendarName args;
     calendarId := calendarId args; title := t;
     description := description args; allDay := allDay args; date := date args;
     start := start args; end_ := end_ args; mcpTag := mcpTag args |}.

(** ** Candidates, windows and tallies *)

(** A time window the server rejects: a bound that, trimmed, does not match
    the pattern of [parseDateTimeLocal] (four digits, [-], two digits, [-],
    two digits, [T] or a white-space character, two digits, [:], two
    digits), or an end that is not after the start.  The pattern looks at
    digits only: it does not ask that they name a month, a day or an hour. *)
Definition malformed_window (env : CalEnv) (s e : option string) : Prop :=
  match parseDateTimeLocal s, parseDateTimeLocal e with
  | Some ps, Some pe =>
      (nativeTime env (timedDateTime pe) <= nativeTime env (timedDateTime ps))%Z
  | _, _ => True
  end.

(** The row belongs to the target calendar and starts in [start, end). *)
Definition in_window (env : CalEnv) (target : Calendar) (range_start range_end : DateTime)
  (row : CalEventRow) : bool :=
  String.eqb (row_cal_id row) (cal_id target)
  && spec_within (nativeTime env range_start) (nativeTime env range_end)
       (row_event_start row).

(** The lower-cased title contains every keyword. *)
Definition title_has (kws : list string) (title : option string) : bool :=
  forallb (fun kw => Js.includes (Js.toLowerCase (Js.orEmpty title)) kw) kws.

(** The candidates whose dispatch does not raise, from candidate number [n]
    on: those a delete job is started for. *)
Fixpoint dispatched (env : CalEnv) (n : nat) (ids : list (string * option string))
  : list (string * option string) :=
  match ids with
  | [] => []
  | c :: rest =>
      match createInstance_throws env n with
      | Some _ => dispatched env (S n) rest
      | None => c :: dispatched env (S n) rest
      end
  end.

(** The row matches in the server's reading of the request. *)
Definition row_matches (kws : list string) (env : CalEnv) (target : Calendar)
  (range_start range_end : DateTime) (row : CalEventRow) : bool :=
  in_window env target range_start range_end row && title_has kws (row_title row).

(** The row matches in the words of the specification. *)
Definition spec_row_matches (required : list string) (env : CalEnv) (target : Calendar)
  (range_start range_end : DateTime) (row : CalEventRow) : bool :=
  in_window env target range_start range_end row
  && spec_containsEvery (Js.orEmpty (row_title row)) required.

(** The provider calls of the delete loop. *)
Definition delete_calls (target : Calendar) (sent : list (string * option string))
  : list Effect :=
  (fun c => ProviderDeleteItem (cal_id target) c.1) <$> sent.

(** The items of a folder, when it lists them. *)
Definition folder_items (f : EasFolder) : list NativeItem :=
  match f_items f with
  | ItemsArray items => items
  | _ => []
  end.

(** The item matches in the server's reading of the request. *)
Definition item_matches (kws : list string) (startJs endJs : Z) (it : NativeItem) : bool :=
  title_has kws (ni_title it) && clampDateTimeToRange (ni_start it) startJs endJs.

(** The item matches in the words of the specification. *)
Definition spec_item_matches (required : list string) (startJs endJs : Z)
  (it : NativeItem) : bool :=
  spec_containsEvery (Js.orEmpty (ni_title it)) required
  && match ni_start it with
     | Some t => spec_within startJs endJs t
     | None => false
     end.

(** ** A sample installation *)

Module Sample.

(** A clock for dates without time zones or leap seconds; it orders
    well-formed dates as the calendar does. *)
Definition micros (d : DateTime) : Z :=
  ((((((dt_year d * 12 + dt_month d) * 31 + dt_day d) * 24 + dt_hour d) * 60
      + dt_minute d) * 60 + dt_second d) * 1000000)%Z.

Definition work : Calendar :=
  {| cal_id := "cal-1"; cal_name := "Work"; cal_readOnly := false |}.

Definition calenv : CalEnv :=
  {| cal_available := true; calendars := [work]; nativeTime := micros;
     createInstance_throws := fun _ => None; addItem_throws := None;
     deleteItem_throws := fun _ => None |}.

Definition tbsync : TbSyncEnv :=
  {| tbs_active := true; eas_active := true; ext_available := true;
     load_throws := None;
     accounts := [{| acc_id := "1"; acc_user := Some "me@example.org" |}];
     eas_folders := [] |}.

Definition sqlite : SqlEnv :=
  {| open_throws := None; execute_throws := None; cal_events := [];
     close_throws := None |}.

Definition world : World := {| w_cal := calenv; w_tb := tbsync; w_sql := sqlite |}.

(** The clock of a stretch that begins at [t] and ticks once a reading. *)
Definition clock (t : Z) : Clock := fun n => (t + Z.of_nat n)%Z.

(** create(container, allDay=true, date="2026-02-04", title="Dentist") *)
Definition dentist : CreateArgs :=
  {| tbsyncUser := Some "me@example.org"; calendarName := Some "Work";
     calendarId := None; title := Some "Dentist"; description := None;
     allDay := Some true; date := Some "2026-02-04";
     start := None; end_ := None; mcpTag := None |}.

Definition standup : CreateArgs :=
  {| tbsyncUser := Some "me@example.org"; calendarName := Some "Work";
     calendarId := None; title := Some "Standup"; description := None;
     allDay := Some false; date := None;
     start := Some "2026-02-04T06:00"; end_ := Some "2026-02-04T07:00";
     mcpTag := None |}.

(** The workflow the first request on a fresh server at [t = 1000] starts. *)
Definition wf1 : JobId := (1001%Z, 1).

(** A week's window and one event inside it. *)
Definition monday : DateTime := timedDateTime
  {| ldt_y := 2026; ldt_mo := 2; ldt_d := 2; ldt_hh := 0; ldt_mm := 0 |}.
Definition next_monday : DateTime := timedDateTime
  {| ldt_y := 2026; ldt_mo := 2; ldt_d := 9; ldt_hh := 0; ldt_mm := 0 |}.
Definition wednesday : DateTime := timedDateTime
  {| ldt_y := 2026; ldt_mo := 2; ldt_d := 4; ldt_hh := 9; ldt_mm := 0 |}.

Definition row (id title : string) : CalEventRow :=
  {| row_cal_id := "cal-1"; row_id := id; row_title := Some title;
     row_event_start := micros wednesday |}.

Definition sqlite_with (rows : list CalEventRow) : SqlEnv :=
  {| open_throws := None; execute_throws := None; cal_events := rows;
     close_throws := None |}.

Definition world_with (rows : list CalEventRow) : World :=
  {| w_cal := calenv; w_tb := tbsync; w_sql := sqlite_with rows |}.

(** A bulk delete over that week. *)
Definition sweep (needles : list string) : DeleteArgs :=
  {| d_tbsyncUser := Some "me@example.org"; d_calendarName := Some "Work";
     d_calendarId := None; d_start := Some "2026-02-02T00:00";
     d_end := Some "2026-02-09T00:00"; d_titleMustContainAll := Some needles |}.

Definition item (title : string) : NativeItem :=
  {| ni_title := Some title; ni_start := Some (micros wednesday / 1000)%Z;
     ni_delete_throws := None |}.

Definition tbsync_with (items : list NativeItem) : TbSyncEnv :=
  {| tbs_active := true; eas_active := true; ext_available := true;
     load_throws := None;
     accounts := [{| acc_id := "1"; acc_user := Some "me@example.org" |}];
     eas_folders := [{| f_target := Some "cal-1"; f_items := ItemsArray items |}] |}.

(** An installation where creating the second event object of a stretch
    raises. *)
Definition flaky_calenv : CalEnv :=
  {| cal_available := true; calendars := [work]; nativeTime := micros;
     createInstance_throws :=
       fun n => if Nat.eqb n 1 then Some (Error "NS_ERROR_FAILURE") else None;
     addItem_throws := None; deleteItem_throws := fun _ => None |}.

Definition flaky_world (rows : list CalEventRow) : World :=
  {| w_cal := flaky_calenv; w_tb := tbsync; w_sql := sqlite_with rows |}.

(** An installation whose provider raises at once on every delete. *)
Definition refusing_calenv : CalEnv :=
  {| cal_available := true; calendars := [work]; nativeTime := micros;
     createInstance_throws := fun _ => None; addItem_throws := None;
     deleteItem_throws := fun _ => Some (Error "NS_ERROR_NOT_AVAILABLE") |}.

Definition refusing_world (rows : list CalEventRow) : World :=
  {| w_cal := refusing_calenv; w_tb := tbsync; w_sql := sqlite_with rows |}.

(** The workflow a bulk delete on a fresh server at [t = 1000] starts. *)
Definition wf_sweep : JobId := (1000%Z, 1).

(** A user no TbSync account belongs to. *)
Definition stranger : CreateArgs :=
  {| tbsyncUser := Some "nobody@example.org"; calendarName := Some "Work";
     calendarId := None; title := Some "Dentist"; description := None;
     allDay := Some true; date := Some "2026-02-04";
     start := None; end_ := None; mcpTag := None |}.

End Sample.

(** A string that is empty or begins with a visible character. *)
Definition starts_nonspace (s : string) : Prop :=
  match s with
  | EmptyString => True
  | String c _ => Js.is_space c = false
  end.

(** * The rest of the server *)

(** ** Replies on the wire *)

(** The characters [sanitizeForJson] strips: the class
    [[\x00-\x08\x0b\x0c\x0e-\x1f\x7f]]. *)
Definition is_stripped (c : ascii) : bool :=
  let n := nat_of_ascii c in
  Nat.leb n 8 || Nat.eqb n 11 || Nat.eqb n 12 || (Nat.leb 14 n && Nat.leb n 31)
  || Nat.eqb n 127.

(** [sanitizeForJson] *)
Definition sanitizeForJson (text : option string) : option string :=
  if negb (Js.truthy text) then text
  else Some (Js.removeChars is_stripped (Js.orEmpty text)).

(** A character [sanitizeForJson] keeps. *)
Definition is_kept (c : ascii) : bool := negb (is_stripped c).

(** ** Dates as text *)

(** The fields [parseDateTimeLocal] can return. *)
Definition fields_in_range (p : LocalDateTime) : Prop :=
  (0 <= ldt_y p <= 9999 /\ 0 <= ldt_mo p <= 99 /\ 0 <= ldt_d p <= 99
   /\ 0 <= ldt_hh p <= 99 /\ 0 <= ldt_mm p <= 99)%Z.

(** The decimal digit of [n] at the units. *)
Definition digit_char (n : Z) : ascii := ascii_of_nat (48 + Z.to_nat (n mod 10)).

Definition two_digits (n : Z) : string :=
  String (digit_char (n / 10)) (String (digit_char n) "").

Definition four_digits (n : Z) : string :=
  String (digit_char (n / 1000)) (String (digit_char (n / 100)) (two_digits n)).

(** The text ["YYYY-MM-DD?HH:MM"] of the fields, with separator [sep]. *)
Definition formatLocal (sep : ascii) (p : LocalDateTime) : string :=
  four_digits (ldt_y p) +:+ "-" +:+ two_digits (ldt_mo p) +:+ "-" +:+ two_digits (ldt_d p)
    +:+ String sep (two_digits (ldt_hh p) +:+ ":" +:+ two_digits (ldt_mm p)).

(** The account's user is the requested one, case and surrounding white
    space apart: the test of [tbsyncSyncAccountByUser]. *)
Definition user_matches (userEmail : option string) (a : Account) : bool :=
  String.eqb (Js.trim (Js.toLowerCase (Js.orEmpty (acc_user a))))
    (Js.trim (Js.toLowerCase (Js.orEmpty userEmail))).

(** The request of another user, with another description. *)
Definition with_user_description (u d : option string) (args : CreateArgs) : CreateArgs :=
  {| tbsyncUser := u; calendarName := calendarName args;
     calendarId := calendarId args; title := title args;
     description := d; allDay := allDay args; date := date args;
     start := start args; end_ := end_ args; mcpTag := mcpTag args |}.

(** The tallies of the folder loop, [k] folders in. *)
Definition tallies_ok (k : nat) (acc : BulkReply) : Prop :=
  deleted acc <= matched acc <= totalItems acc
  /\ matched acc - deleted acc <= length (errors acc) <= k.

(** ** Polling *)

(** The fields of a workflow job that [getWorkflowJob] copies out. *)
Record WorkflowView := {
  v_jobId : JobId;
  v_status : WfStatus;
  v_createdAtMs : Z;
  v_updatedAtMs : Z;
  v_step : string;
  v_meta : WfMeta;
  v_result : option WfResult;     (* [job.result || null] *)
  v_error : option string }.      (* [job.error || null] *)

(** What [getWorkflowJob] returns: [{ error: "Unknown workflow jobId: ..." }]
    or the view of the job. *)
Inductive WorkflowPoll :=
| UnknownWorkflowJob (jobId : JobId)
| WorkflowFound (view : WorkflowView).

(** [getWorkflowJob] *)
Definition getWorkflowJob (jobId : JobId) (st : State) : WorkflowPoll :=
  match workflowJobs st !! jobId with
  | None => UnknownWorkflowJob jobId
  | Some job =>
      WorkflowFound
        {| v_jobId := wj_jobId job; v_status := wj_status job;
           v_createdAtMs := wj_createdAtMs job; v_updatedAtMs := wj_updatedAtMs job;
           v_step := wj_step job; v_meta := wj_meta job;
           v_result := wj_result job;
           v_error := if Js.truthy (wj_error job) then wj_error job else None |}
  end.

(** The current label of a record is the last one of its history. *)
Definition labelled (job : WorkflowJob) : Prop :=
  last (wj_steps job) = Some (wj_step job).

(** A record and a later record of the same job: the identity is kept, the
    history of labels is extended, and the current label stays the last
    one recorded. *)
Definition extends (job job' : WorkflowJob) : Prop :=
  wj_jobId job' = wj_jobId job
  /\ wj_createdAtMs job' = wj_createdAtMs job
  /\ wj_meta job' = wj_meta job
  /\ wj_steps job `prefix_of` wj_steps job'
  /\ (labelled job -> labelled job').

(** An update that keeps the identity of a record and adds to its labels. *)
Definition grows (g : WorkflowJob -> WorkflowJob) : Prop := forall job, extends job (g job).

(** The pending entry of [wf] sits in the cache under [key], and no
    workflow in flight will write [key]. *)
Definition pending_kept (wf : JobId) (key : string) (t : Z) (st : State) : Prop :=
  idempotency st !! key = Some {| ts := t; created := PendingWorkflow wf |}
  /\ no_carrier key st.

(** Once its workflow has failed, the pending entry stays. *)
Definition failure_keeps_pending (wf : JobId) (key : string) (t : Z) (st : State) : Prop :=
  suspended st !! wf = None ->
  (wj_status <$> workflowJobs st !! wf) = Some WfError ->
  pending_kept wf key t st.

(** ** The awaits of the SQL delete workflow *)

(** The calls the background function of [syncAndDeleteEventsBySql] awaits:
    [Sqlite.openConnection]; [conn.execute], with the clauses of the query
    it sent; and [conn.close()] in the [finally], which it reaches with
    what the [try] raised, if anything. *)
Inductive SqlAwait :=
| AtOpen
| AtExecute (clauses : list Clause)
| AtClose (raised : option Exn).

(** One stretch of that function, taken apart where [runSqlDelete] takes
    the three in one: the call awaited at [a] settles with what the world
    [w] makes of it, and the function runs to its next [await], or to its
    end ([None]).  Until the end the continuation [AwaitSql] stays in
    [suspended]: it keeps the variables the function closes over.  The two
    triggers of the last stretch are taken with the stretch that starts
    them, as in [runSqlDelete]. *)
Definition sqlStretch (wf : JobId) (a : SqlAwait) (w : World) (clk : Clock) (st : State)
  : State * option SqlAwait :=
  match suspended st !! wf with
  | Some (AwaitSql user target range_start range_end titleMustContainAll) =>
      let k := AwaitSql user target range_start range_end titleMustContainAll in
      match a with
      | AtOpen =>
          match open_throws (w_sql w) with
          | Some e => (update_job wf (set_error e (clk 0)) None st, None)
          | None =>
              (st, Some (AtExecute (whereClauses (w_cal w) target range_start range_end
                                      titleMustContainAll)))
          end
      | AtExecute clauses =>
          match execute_throws (w_sql w) with
          | Some e => (st, Some (AtClose (Some e)))
          | None =>
              let ids := selectCandidates clauses (cal_events (w_sql w)) in
              let st := update_job wf (set_step "delete" (clk 0)) (Some k) st in
              let '(st, triggered, errors) :=
                dispatchDeletes (w_cal w) clk target 0 ids 0 0 st in
              let n := length ids in
              let result := ResultDelete n triggered errors (firstn 10 ids) in
              (update_job wf (set_result result (clk (3 * n))) (Some k) st,
               Some (AtClose None))
          end
      | AtClose raised =>
          (* what [conn.close()] raises replaces what the [try] raised *)
          match close_throws (w_sql w), raised with
          | Some e, _ | None, Some e => (update_job wf (set_error e (clk 0)) None st, None)
          | None, None =>
              let st := update_job wf (set_step "postSync" (clk 0)) (Some k) st in
              let st := update_job wf (set_done (clk 1)) None st in
              (* the two triggers are started before "done" and not awaited:
                 their calls of [syncAccount] come after it *)
              let st := (tbsyncSyncAccountByUser (w_tb w) user st).1 in
              let st := (tbsyncSyncAccountByUser (w_tb w) user st).1 in
              (st, None)
          end
      end
  | _ => (st, None)
  end.

(** What happens while a delete workflow is in flight: one of its awaited
    calls settles, or the server does something else. *)
Inductive SqlEvent :=
| Stretch (w : World) (clk : Clock)
| Meanwhile (ev : Event).

(** The delete workflow [wf], waiting at [a], through a sequence of such
    events: the state at the end and where the workflow waits then. *)
Fixpoint sqlRun (wf : JobId) (a : option SqlAwait) (tr : list SqlEvent) (st : State)
  : State * option SqlAwait :=
  match tr with
  | [] => (st, a)
  | Stretch w clk :: rest =>
      match a with
      | Some a0 =>
          let '(st', a') := sqlStretch wf a0 w clk st in
          sqlRun wf a' rest st'
      | None => sqlRun wf None rest st
      end
  | Meanwhile ev :: rest => sqlRun wf a rest (step ev st)
  end.

(** What happens meanwhile is not the workflow itself, taken in one. *)
Definition apart (wf : JobId) (e : SqlEvent) : Prop :=
  match e with
  | Stretch _ _ => True
  | Meanwhile ev => resumes wf ev = false
  end.

Definition is_stretch (e : SqlEvent) : bool :=
  match e with Stretch _ _ => true | Meanwhile _ => false end.

(** The number of stretches of the workflow in a sequence of events. *)
Definition stretches (tr : list SqlEvent) : nat := length (List.filter is_stretch tr).

(** The status and the labels of the record of a delete workflow that
    waits at [a], or has ended. *)
Definition delete_labels (a : option SqlAwait) (job : WorkflowJob) : Prop :=
  match a with
  | Some (AtClose None) =>
      wj_status job = Running /\ wj_steps job = ["querySql"; "delete"]
  | Some _ =>
      wj_status job = Running /\ wj_steps job = ["querySql"]
  | None =>
      (wj_status job = WfDone
       /\ wj_steps job = ["querySql"; "delete"; "postSync"; "done"])
      \/ (wj_status job = WfError
          /\ (wj_steps job = ["querySql"; "error"]
              \/ wj_steps job = ["querySql"; "delete"; "error"]))
  end.

(** How many stretches a delete workflow is from its end, at most. *)
Definition awaits_left (a : option SqlAwait) : nat :=
  match a with
  | Some AtOpen => 3
  | Some (AtExecute _) => 2
  | Some (AtClose _) => 1
  | None => 0
  end.

(** Delete workflow [wf], waiting at [a], is registered under an id the
    counter has issued; its record carries the labels of [a], and it is in
    [suspended] for as long as it waits. *)
Definition sql_workflow_ok (wf : JobId) (a : option SqlAwait) (st : State) : Prop :=
  wf.2 <= workflowSeq st
  /\ (exists job,
        workflowJobs st !! wf = Some job /\ delete_labels a job /\ labelled job)
  /\ match a with
     | Some _ => exists user target rs re needles,
                   suspended st !! wf = Some (AwaitSql user target rs re needles)
     | None => suspended st !! wf = None
     end.

(** ** The tool table *)

(** The functions [callTool] dispatches to. *)
Inductive Handler :=
| HTbsyncListAccounts | HTbsyncSyncAccount | HTbsyncSyncAccountByUser
| HTbsyncResetEasFolderSync | HListCalendars | HTbsyncListEasCalendarFolders
| HTbsyncSelectEasCalendarFolder | HTbsyncDeleteEasEventsByTitleRange
| HTbsyncDeleteEasEventsBySqlChangelog | HTbsyncDeleteEasEventsNativeBySql
| HTbsyncCreateEasEventNative | HTbsyncModifyEasEventsBySql | HCreateCalendarEvent
| HListEventsOnDate | HListCalendarEvents | HGetCalendarJob
| HSyncAndCreateCalendarEvent | HGetWorkflowJob | HSyncAndDeleteEventsByTitle
| HSyncAndDeleteEventsBySql.

(** The names of the [tools] array, in its order: what [tools/list]
    advertises. *)
Definition tools : list string :=
  [ "tbsyncListAccounts"; "tbsyncSyncAccount"; "tbsyncSyncAccountByUser";
    "tbsyncResetEasFolderSync"; "listCalendars"; "tbsyncListEasCalendarFolders";
    "tbsyncSelectEasCalendarFolder"; "tbsyncDeleteEasEventsByTitleRange";
    "tbsyncDeleteEasEventsBySqlChangelog"; "tbsyncDeleteEasEventsNativeBySql";
    "tbsyncCreateEasEventNative"; "tbsyncModifyEasEventsBySql"; "createCalendarEvent";
    "listEventsOnDate"; "listCalendarEvents"; "getCalendarJob"; "getWorkflowJob";
    "syncAndCreateCalendarEvent"; "syncAndDeleteEventsByTitle";
    "syncAndDeleteEventsBySql" ].

(** The [switch] of [callTool]: the function a name is dispatched to. *)
Definition callTool (name : string) : Outcome Handler :=
  if String.eqb name "tbsyncListAccounts" then Returned HTbsyncListAccounts
  else if String.eqb name "tbsyncSyncAccount" then Returned HTbsyncSyncAccount
  else if String.eqb name "tbsyncSyncAccountByUser" then Returned HTbsyncSyncAccountByUser
  else if String.eqb name "tbsyncResetEasFolderSync" then Returned HTbsyncResetEasFolderSync
  else if String.eqb name "listCalendars" then Returned HListCalendars
  else if String.eqb name "tbsyncListEasCalendarFolders"
  then Returned HTbsyncListEasCalendarFolders
  else if String.eqb name "tbsyncSelectEasCalendarFolder"
  then Returned HTbsyncSelectEasCalendarFolder
  else if String.eqb name "tbsyncDeleteEasEventsByTitleRange"
  then Returned HTbsyncDeleteEasEventsByTitleRange
  else if String.eqb name "tbsyncDeleteEasEventsBySqlChangelog"
  then Returned HTbsyncDeleteEasEventsBySqlChangelog
  else if String.eqb name "tbsyncDeleteEasEventsNativeBySql"
  then Returned HTbsyncDeleteEasEventsNativeBySql
  else if String.eqb name "tbsyncCreateEasEventNative" then Returned HTbsyncCreateEasEventNative
  else if String.eqb name "tbsyncModifyEasEventsBySql" then Returned HTbsyncModifyEasEventsBySql
  else if String.eqb name "createCalendarEvent" then Returned HCreateCalendarEvent
  else if String.eqb name "listEventsOnDate" then Returned HListEventsOnDate
  else if String.eqb name "listCalendarEvents" then Returned HListCalendarEvents
  else if String.eqb name "getCalendarJob" then Returned HGetCalendarJob
  else if String.eqb name "syncAndCreateCalendarEvent"
  then Returned HSyncAndCreateCalendarEvent
  else if String.eqb name "getWorkflowJob" then Returned HGetWorkflowJob
  else if String.eqb name "syncAndDeleteEventsByTitle"
  then Returned HSyncAndDeleteEventsByTitle
  else if String.eqb name "syncAndDeleteEventsBySql" then Returned HSyncAndDeleteEventsBySql
  else Threw (Error ("Unknown tool: " +:+ name)).

(** The name each function is advertised under. *)
Definition handler_name (h : Handler) : string :=
  match h with
  | HTbsyncListAccounts => "tbsyncListAccounts"
  | HTbsyncSyncAccount => "tbsyncSyncAccount"
  | HTbsyncSyncAccountByUser => "tbsyncSyncAccountByUser"
  | HTbsyncResetEasFolderSync => "tbsyncResetEasFolderSync"
  | HListCalendars => "listCalendars"
  | HTbsyncListEasCalendarFolders => "tbsyncListEasCalendarFolders"
  | HTbsyncSelectEasCalendarFolder => "tbsyncSelectEasCalendarFolder"
  | HTbsyncDeleteEasEventsByTitleRange => "tbsyncDeleteEasEventsByTitleRange"
  | HTbsyncDeleteEasEventsBySqlChangelog => "tbsyncDeleteEasEventsBySqlChangelog"
  | HTbsyncDeleteEasEventsNativeBySql => "tbsyncDeleteEasEventsNativeBySql"
  | HTbsyncCreateEasEventNative => "tbsyncCreateEasEventNative"
  | HTbsyncModifyEasEventsBySql => "tbsyncModifyEasEventsBySql"
  | HCreateCalendarEvent => "createCalendarEvent"
  | HListEventsOnDate => "listEventsOnDate"
  | HListCalendarEvents => "listCalendarEvents"
  | HGetCalendarJob => "getCalendarJob"
  | HSyncAndCreateCalendarEvent => "syncAndCreateCalendarEvent"
  | HGetWorkflowJob => "getWorkflowJob"
  | HSyncAndDeleteEventsByTitle => "syncAndDeleteEventsByTitle"
  | HSyncAndDeleteEventsBySql => "syncAndDeleteEventsBySql"
  end.

(** ** Starting the server *)

Module Server.

Definition MCP_PORT : Z := 8766.

(** The module-level flags [_serverStarted], [_serverStarting] and
    [_serverPort]. *)
Record ServerFlags := {
  serverStarted : bool;
  serverStarting : bool;
  serverPort : option Z }.

Definition stopped : ServerFlags :=
  {| serverStarted := false; serverStarting := false; serverPort := None |}.

Inductive StartReply :=
| AlreadyStarted (port : Z)        (* { success: true, port, alreadyStarted: true } *)
| StillStarting (port : Z)         (* { success: true, port, starting: true } *)
| StartedOn (port : Z)             (* { success: true, port } *)
| StartFailed (error : string).    (* { success: false, error } *)

(** [_serverPort || MCP_PORT] *)
Definition portOrDefault (p : option Z) : Z :=
  match p with
  | Some n => if Z.eqb n 0 then MCP_PORT else n
  | None => MCP_PORT
  end.

(** [start]: [setup] is what the body of the [try] raises, if anything,
    between [_serverStarting = true] and [server.start(MCP_PORT)]
    included.  The last component tells whether the port was bound. *)
Definition start (setup : option Exn) (s : ServerFlags) : ServerFlags * StartReply * bool :=
  if serverStarted s then (s, AlreadyStarted (portOrDefault (serverPort s)), false)
  else if serverStarting s then (s, StillStarting (portOrDefault (serverPort s)), false)
  else match setup with
       | Some e =>
           ({| serverStarted := serverStarted s; serverStarting := false;
               serverPort := serverPort s |}, StartFailed (exn_toString e), false)
       | None =>
           ({| serverStarted := true; serverStarting := false;
               serverPort := Some MCP_PORT |}, StartedOn MCP_PORT, true)
       end.

(** A sequence of calls of [start]: the flags at the end, the replies and
    the number of times the port was bound. *)
Fixpoint starts (setups : list (option Exn)) (s : ServerFlags)
  : ServerFlags * list StartReply * nat :=
  match setups with
  | [] => (s, [], 0)
  | setup :: rest =>
      let '(s1, reply, bound) := start setup s in
      let '(s2, replies, n) := starts rest s1 in
      (s2, reply :: replies, (if bound then 1 else 0) + n)
  end.

End Server.

(** ** The stdio bridge *)

(** The line feed the bridge splits its input at. *)
Definition LF : ascii := "010"%char.

(** [idx = buffer.indexOf("\n")] with [buffer.slice(0, idx)] and
    [buffer.slice(idx + 1)]; [None] when [idx] is [-1]. *)
Fixpoint cutLine (buffer : string) : option (string * string) :=
  match buffer with
  | EmptyString => None
  | String c r =>
      if Ascii.eqb c LF then Some (EmptyString, r)
      else match cutLine r with
           | Some (line, rest) => Some (String c line, rest)
           | None => None
           end
  end.

(** The [while] loop of the [data] handler: the lines it hands on, trimmed
    and not blank, and the buffer it leaves.  Every turn shortens the
    buffer, so [fuel] turns are enough when [fuel] is its length. *)
Fixpoint drain (fuel : nat) (buffer : string) : list string * string :=
  match fuel with
  | 0 => ([], buffer)
  | S fuel' =>
      match cutLine buffer with
      | None => ([], buffer)
      | Some (raw, rest) =>
          let line := Js.trim raw in
          let '(lines, buffer') := drain fuel' rest in
          (if String.eqb line "" then lines else line :: lines, buffer')
      end
  end.

(** The [data] handler of standard input: [buffer += chunk], then the loop. *)
Definition onData (chunk buffer : string) : list string * string :=
  drain (String.length (buffer +:+ chunk)) (buffer +:+ chunk).

(** The handler over the chunks of a stream, in order. *)
Fixpoint onChunks (chunks : list string) (buffer : string) : list string * string :=
  match chunks with
  | [] => ([], buffer)
  | chunk :: rest =>
      let '(lines, buffer') := onData chunk buffer in
      let '(lines', buffer'') := onChunks rest buffer' in
      (lines ++ lines', buffer'')
  end.

(** ** Deleting through TbSync's item lookup *)

(** What [tbCalendar.getItem(id)], raced against a three-second timer,
    gives, and what deleting the item it found does. *)
Inductive ItemLookup :=
| LookupThrows (e : Exn)
| LookupNothing                       (* [null], or the timer fired first *)
| LookupFound (delete_throws : option Exn).

(** A selected EAS calendar folder as [tbsyncDeleteEasEventsNativeBySql]
    uses it. *)
Record NativeFolder := {
  nf_target : option string;          (* the folder property "target" *)
  nf_getTarget_throws : option Exn;   (* [folder.targetData.getTarget()] raises *)
  nf_getItem : string -> ItemLookup }.

(** The counters of the two loops. *)
Record NativeTally := {
  nt_deleted : nat; nt_notFound : nat; nt_errors : list string }.

(** One turn of the item loop: its [try] holds the lookup and the delete. *)
Definition deleteFound (lookup : ItemLookup) (acc : NativeTally) : NativeTally :=
  match lookup with
  | LookupThrows e | LookupFound (Some e) =>
      {| nt_deleted := nt_deleted acc; nt_notFound := nt_notFound acc;
         nt_errors := nt_errors acc ++ [exn_toString e] |}
  | LookupNothing =>
      {| nt_deleted := nt_deleted acc; nt_notFound := S (nt_notFound acc);
         nt_errors := nt_errors acc |}
  | LookupFound None =>
      {| nt_deleted := S (nt_deleted acc); nt_notFound := nt_notFound acc;
         nt_errors := nt_errors acc |}
  end.

(** The folder loop: a folder whose target cannot be had is skipped with
    one error; in the others every candidate is looked up and deleted. *)
Fixpoint deleteInFolders (folders : list NativeFolder) (ids : list (string * string))
  (acc : NativeTally) : NativeTally :=
  match folders with
  | [] => acc
  | f :: rest =>
      deleteInFolders rest ids
        match nf_getTarget_throws f with
        | Some e =>
            {| nt_deleted := nt_deleted acc; nt_notFound := nt_notFound acc;
               nt_errors := nt_errors acc ++ [exn_toString e] |}
        | None => fold_left (fun a it => deleteFound (nf_getItem f it.1) a) ids acc
        end
  end.

Record NativeReply := {
  nr_calendarId : string;
  nr_candidateCount : nat;
  nr_deleted : nat;
  nr_notFound : nat;
  nr_errors : list string;            (* [errors.slice(0, 5)] *)
  nr_sample : list (string * string)  (* [ids.slice(0, 10)] *) }.

(** The folders mapped to the target calendar. *)
Definition nativeFolders (folders : list NativeFolder) (target : Calendar)
  : list NativeFolder :=
  List.filter (fun f => String.eqb (Js.orEmpty (nf_target f)) (cal_id target)) folders.

(** [tbsyncDeleteEasEventsNativeBySql]: [inl] is its [{ error }] reply.
    [folders] is what [provider.getFolders({ selected: true, ... })] lists. *)
Definition tbsyncDeleteEasEventsNativeBySql (args : DeleteArgs) (env : CalEnv)
  (tb : TbSyncEnv) (folders : list NativeFolder) (sql : SqlEnv) (st : State)
  : State * Outcome (string + NativeReply) :=
  if negb (Js.truthy (d_tbsyncUser args)) then
    (st, Returned (inl "Missing required field: tbsyncUser"))
  else if negb (Js.truthy (d_start args)) || negb (Js.truthy (d_end args)) then
    (st, Returned (inl "Missing required fields: start, end (YYYY-MM-DDTHH:MM)"))
  else if negb (cal_available env) then
    (st, Threw {| exn_name := "TypeError"; exn_message := "cal is null" |})
  else match resolveCalendar (calendars env) (d_calendarName args) (d_calendarId args) with
  | None => (st, Returned (inl "Calendar not found"))
  | Some targetCal =>
  match makeTimedRange (nativeTime env) (d_start args) (d_end args) with
  | RangeNull => (st, Returned (inl (invalidDatetime (d_start args) (d_end args))))
  | RangeError msg => (st, Returned (inl msg))
  | Range range_start range_end =>
  match getTbSyncModule tb with
  | Threw e => (st, Threw e)
  | Returned _ =>
  let matching := nativeFolders folders targetCal in
  if Nat.eqb (length matching) 0 then
    (st, Returned (inl "No selected EAS folder mapped to this calendar"))
  else match open_throws sql with
  | Some e => (st, Threw e)
  | None =>
  match execute_throws sql with
  | Some e => (st, Threw (default e (close_throws sql)))   (* finally: conn.close() *)
  | None =>
  match close_throws sql with
  | Some e => (st, Threw e)
  | None =>
      let ids := (fun c : string * option string => (c.1, Js.orEmpty c.2))
                   <$> selectCandidates
                         (whereClauses env targetCal range_start range_end
                            (d_titleMustContainAll args))
                         (cal_events sql) in
      let tally := deleteInFolders matching ids
                     {| nt_deleted := 0; nt_notFound := 0; nt_errors := [] |} in
      (* one trigger, not awaited; what it returns or raises is dropped *)
      let st := (tbsyncSyncAccountByUser tb (d_tbsyncUser args) st).1 in
      (st, Returned (inr {| nr_calendarId := cal_id targetCal;
                            nr_candidateCount := length ids;
                            nr_deleted := nt_deleted tally;
                            nr_notFound := nt_notFound tally;
                            nr_errors := firstn 5 (nt_errors tally);
                            nr_sample := firstn 10 ids |}))
  end end end end end end.

(** The folders of a list whose target can be had. *)
Definition reachable (folders : list NativeFolder) : list NativeFolder :=
  List.filter (fun f => match nf_getTarget_throws f with None => true | Some _ => false end)
    folders.

(** ** More of the sample installation *)

Module Demo.

(** An installation without TbSync. *)
Definition bare_tbsync : TbSyncEnv :=
  {| tbs_active := false; eas_active := true; ext_available := true;
     load_throws := None; accounts := []; eas_folders := [] |}.

Definition bare_world : World :=
  {| w_cal := Sample.calenv; w_tb := bare_tbsync; w_sql := Sample.sqlite |}.

(** A request for a calendar that does not exist. *)
Definition lost : CreateArgs :=
  {| tbsyncUser := Some "me@example.org"; calendarName := Some "Nowhere";
     calendarId := None; title := Some "Dentist"; description := None;
     allDay := Some true; date := Some "2026-02-04";
     start := None; end_ := None; mcpTag := None |}.

(** A date and time no calendar has. *)
Definition odd_time : LocalDateTime :=
  {| ldt_y := 2026; ldt_mo := 13; ldt_d := 45; ldt_hh := 99; ldt_mm := 99 |}.

(** An item whose delete raises. *)
Definition stuck (title : string) : NativeItem :=
  {| ni_title := Some title; ni_start := Some (Sample.micros Sample.wednesday / 1000)%Z;
     ni_delete_throws := Some (Error "NS_ERROR_FAILURE") |}.

(** A folder of the work calendar that finds the event "e1" only. *)
Definition folder : NativeFolder :=
  {| nf_target := Some "cal-1"; nf_getTarget_throws := None;
     nf_getItem := fun id => if String.eqb id "e1" then LookupFound None else LookupNothing |}.

(** The server after the first request for the dentist, at [t = 1000]. *)
Definition requested : State :=
  (syncAndCreateCalendarEvent Sample.dentist (Sample.clock 1000) initial).1.

(** The server after that workflow failed at its pre-sync. *)
Definition failed : State := resume Sample.wf1 bare_world (Sample.clock 3000) requested.

End Demo.

(** * Properties *)

(** ** Strings *)

Section StringFacts.

Implicit Types s t : string.

Lemma append_empty_r s : s +:+ "" = s.
Proof. induction s as [|c r IH]; simpl; [reflexivity | now rewrite IH]. Qed.

Lemma append_assoc s t u : (s +:+ t) +:+ u = s +:+ t +:+ u.
Proof. induction s as [|c r IH]; simpl; [reflexivity | now rewrite IH]. Qed.

Lemma ltrim_starts s : starts_nonspace (Js.ltrim s).
Proof.
  induction s as [|c r IH]; simpl; [exact I |].
  destruct (Js.is_space c) eqn:E; [exact IH | exact E].
Qed.

Lemma ltrim_fixed s : starts_nonspace s -> Js.ltrim s = s.
Proof. destruct s as [|c r]; simpl; [reflexivity | now intros ->]. Qed.

Lemma rtrim_starts s : starts_nonspace s -> starts_nonspace (Js.rtrim s).
Proof.
  destruct s as [|c r]; simpl; [exact (fun H => H) |].
  intros E. rewrite E. now destruct (Js.rtrim r).
Qed.

Lemma rtrim_idem s : Js.rtrim (Js.rtrim s) = Js.rtrim s.
Proof.
  induction s as [|c r IH]; simpl; [reflexivity |].
  destruct (Js.rtrim r) as [|d r'] eqn:E.
  - destruct (Js.is_space c) eqn:Ec; simpl; [reflexivity | now rewrite Ec].
  - change (Js.rtrim (String c (String d r')) = String c (String d r')).
    simpl. simpl in IH. rewrite IH. reflexivity.
Qed.

Lemma trim_starts s : starts_nonspace (Js.trim s).
Proof. apply rtrim_starts, ltrim_starts. Qed.

Lemma trim_idem s : Js.trim (Js.trim s) = Js.trim s.
Proof.
  unfold Js.trim at 1. rewrite (ltrim_fixed _ (trim_starts s)).
  apply rtrim_idem.
Qed.

(** A string that ends in a visible character loses nothing on the right. *)
Lemma rtrim_snoc s c :
  Js.is_space c = false -> Js.rtrim (s +:+ String c "") = s +:+ String c "".
Proof.
  intros Hc. induction s as [|d r IH]; simpl.
  - now rewrite Hc.
  - rewrite IH. destruct r; reflexivity.
Qed.

Lemma starts_nonspace_append s t :
  s <> "" -> starts_nonspace s -> starts_nonspace (s +:+ t).
Proof. destruct s; [congruence | intros _ H; exact H]. Qed.

Lemma endsWith_append s t : Js.endsWith (s +:+ t) t = true.
Proof.
  induction s as [|c r IH]; simpl.
  - destruct t; simpl; [reflexivity |].
    now rewrite Ascii.eqb_refl, String.eqb_refl.
  - rewrite IH. apply orb_true_r.
Qed.

End StringFacts.

Example shortTag_allDay :
  shortTagForEvent (Some true) (Some "2026-02-04") None None = "mcp:20260204".
Proof. reflexivity. Qed.

Example shortTag_timed :
  shortTagForEvent (Some false) None (Some "2026-02-04T06:00") (Some "2026-02-04T07:00")
  = "mcp:20260204-0600-0700".
Proof. reflexivity. Qed.

Example withTag_once : withTagAtEnd (Some " Dentist ") (Some "mcp:1") = "Dentist (mcp:1)".
Proof. reflexivity. Qed.

Example split_date : Js.split "-" "2026-02-04" = ["2026"; "02"; "04"].
Proof. reflexivity. Qed.

(** ** The tag at the end of a title *)

Lemma trim_tagged (base t : string) :
  base <> "" -> starts_nonspace base ->
  Js.trim (base +:+ " (" +:+ t +:+ ")") = base +:+ " (" +:+ t +:+ ")".
Proof.
  intros Hne Hst. unfold Js.trim.
  rewrite ltrim_fixed by now apply starts_nonspace_append.
  replace (base +:+ " (" +:+ t +:+ ")") with ((base +:+ " (" +:+ t) +:+ ")")
    by now rewrite !append_assoc.
  now apply rtrim_snoc.
Qed.

Lemma endsWith_tagged (base t : string) :
  Js.endsWith (base +:+ " (" +:+ t +:+ ")") ("(" +:+ t +:+ ")") = true.
Proof.
  replace (base +:+ " (" +:+ t +:+ ")") with ((base +:+ " ") +:+ "(" +:+ t +:+ ")")
    by now rewrite !append_assoc.
  apply endsWith_append.
Qed.

Example withTag_blank_title_once : withTagAtEnd (Some "") (Some "x") = " (x)".
Proof. reflexivity. Qed.

Example withTag_blank_title_twice : withTagAtEnd (Some " (x)") (Some "x") = "(x)".
Proof. reflexivity. Qed.

(** C10 as stated fails at the empty title: the first application yields
    [" (x)"], the second trims it to ["(x)"]. *)
Lemma withTagAtEnd_not_idempotent_on_blank_title :
  ~ (forall (title tag : option string),
        Js.orEmpty tag <> "" ->
        withTagAtEnd (Some (withTagAtEnd title tag)) tag = withTagAtEnd title tag).
Proof.
  intros H. specialize (H (Some "") (Some "x")).
  assert (Hx : Js.orEmpty (Some "x") <> "") by (simpl; congruence).
  specialize (H Hx). vm_compute in H. discriminate H.
Qed.

(** C10 (amended): for every title that is not blank and every tag,
    applying [withTagAtEnd] twice with the same tag gives the same string
    as applying it once, so the title carries the trailing "(tag)" at most
    once. *)
Theorem withTagAtEnd_idempotent (title tag : option string) :
  ~ blank (Js.orEmpty title) ->
  withTagAtEnd (Some (withTagAtEnd title tag)) tag = withTagAtEnd title tag.
Proof.
  unfold blank, withTagAtEnd.
  change (Js.orEmpty (Some ?x)) with x.
  set (base := Js.trim (Js.orEmpty title)).
  set (t := Js.trim (Js.orEmpty tag)).
  intros Hbase.
  assert (Hfix : Js.trim base = base) by apply trim_idem.
  destruct (String.eqb t "") eqn:Et.
  - now rewrite Hfix.
  - destruct (Js.endsWith base ("(" +:+ t +:+ ")")) eqn:Ee.
    + now rewrite Hfix, Ee.
    + rewrite trim_tagged by (subst base; auto using trim_starts).
      now rewrite endsWith_tagged.
Qed.

Lemma withTagAtEnd_idempotent_witness :
  ~ blank (Js.orEmpty (Some "Dentist")) /\
  withTagAtEnd (Some (withTagAtEnd (Some "Dentist") (Some "mcp:20260204")))
    (Some "mcp:20260204")
  = withTagAtEnd (Some "Dentist") (Some "mcp:20260204").
Proof.
  assert (H : ~ blank (Js.orEmpty (Some "Dentist")))
    by (unfold blank; vm_compute; discriminate).
  split; [exact H | exact (withTagAtEnd_idempotent _ _ H)].
Defined.

(** ** Frames: what each operation leaves alone *)

Section Frames.

Implicit Types (st : State) (wf : JobId).

Lemma same_tables_refl st : same_tables st st.
Proof. repeat split. Qed.

Lemma same_tables_trans st1 st2 st3 :
  same_tables st1 st2 -> same_tables st2 st3 -> same_tables st1 st3.
Proof. unfold same_tables. intuition congruence. Qed.

Lemma sync_same_tables tb user st :
  same_tables st (tbsyncSyncAccountByUser tb user st).1.
Proof.
  unfold tbsyncSyncAccountByUser.
  destruct (getTbSyncModule tb); [|apply same_tables_refl].
  destruct (acc_id <$> _) as [|? [|? ?]]; repeat split.
Qed.

Lemma create_same_tables env t1 t2 args st :
  same_tables st (createCalendarEvent env t1 t2 args st).1.
Proof.
  unfold createCalendarEvent, startAddItemJob.
  repeat match goal with
         | |- context [if ?b then _ else _] => destruct b
         | |- context [match ?x with _ => _ end] => destruct x
         end; simpl; repeat split.
Qed.

Lemma dispatch_same_tables env clk target ids : forall n t e st,
  same_tables st (dispatchDeletes env clk target n ids t e st).1.1.
Proof.
  induction ids as [|[id ttl] rest IH]; intros n t e st; simpl.
  - apply same_tables_refl.
  - destruct (createInstance_throws env n); [apply IH|].
    eapply same_tables_trans; [|apply IH]. repeat split.
Qed.

Lemma update_job_jobs_eq wf f k st :
  workflowJobs (update_job wf f k st) !! wf = f <$> workflowJobs st !! wf.
Proof. unfold update_job; simpl. apply lookup_alter_eq. Qed.

Lemma update_job_jobs_ne wf wf' f k st :
  wf' <> wf -> workflowJobs (update_job wf' f k st) !! wf = workflowJobs st !! wf.
Proof. intros. unfold update_job; simpl. now apply lookup_alter_ne. Qed.

Lemma update_job_suspended_eq wf f k st :
  suspended (update_job wf f k st) !! wf = k.
Proof.
  unfold update_job, put_cont; simpl.
  destruct k; [apply lookup_insert_eq | apply lookup_delete_eq].
Qed.

Lemma update_job_suspended_ne wf wf' f k st :
  wf' <> wf -> suspended (update_job wf' f k st) !! wf = suspended st !! wf.
Proof.
  intros. unfold update_job, put_cont; simpl.
  destruct k; [now apply lookup_insert_ne | now apply lookup_delete_ne].
Qed.

Lemma update_job_idempotency wf f k st :
  idempotency (update_job wf f k st) = idempotency st.
Proof. reflexivity. Qed.

Lemma update_job_workflowSeq wf f k st :
  workflowSeq (update_job wf f k st) = workflowSeq st.
Proof. reflexivity. Qed.

Lemma update_job_effects wf f k st :
  effects (update_job wf f k st) = effects st.
Proof. reflexivity. Qed.

End Frames.

(** ** What one resumption does to the tables *)

Section Resume.

Implicit Types (st : State) (wf : JobId).

Lemma update_job_tables wf f k st st0 :
  same_tables st st0 ->
  workflowJobs (update_job wf f k st0) = alter f wf (workflowJobs st)
  /\ suspended (update_job wf f k st0) = put_cont wf k (suspended st)
  /\ workflowSeq (update_job wf f k st0) = workflowSeq st
  /\ idempotency (update_job wf f k st0) = idempotency st.
Proof.
  intros (Hi & Hj & Hq & Hs). unfold update_job, put_cont; simpl.
  now rewrite Hi, Hj, Hq, Hs.
Qed.

Lemma runSqlDelete_tables wf user target rs re needles w clk st :
  exists g,
    workflowJobs (runSqlDelete wf user target rs re needles w clk st)
    = alter g wf (workflowJobs st)
    /\ suspended (runSqlDelete wf user target rs re needles w clk st)
       = delete wf (suspended st)
    /\ workflowSeq (runSqlDelete wf user target rs re needles w clk st) = workflowSeq st
    /\ idempotency (runSqlDelete wf user target rs re needles w clk st) = idempotency st.
Proof.
  unfold runSqlDelete.
  destruct (open_throws (w_sql w)) as [e|].
  { eexists. apply (update_job_tables wf _ None st st), same_tables_refl. }
  destruct (execute_throws (w_sql w)) as [e|].
  { eexists. apply (update_job_tables wf _ None st st), same_tables_refl. }
  set (ids := selectCandidates _ _).
  set (st1 := update_job wf _ None st).
  pose proof (dispatch_same_tables (w_cal w) clk target ids 0 0 0 st1) as Hd.
  destruct (dispatchDeletes (w_cal w) clk target 0 ids 0 0 st1) as [[st2 t] e].
  simpl in Hd. destruct Hd as (Hi & Hj & Hq & Hs).
  set (st3 := update_job wf _ None st2).
  assert (H3 : exists g, workflowJobs st3 = alter g wf (workflowJobs st)
               /\ suspended st3 = delete wf (suspended st)
               /\ workflowSeq st3 = workflowSeq st
               /\ idempotency st3 = idempotency st).
  { eexists. subst st3 st1. unfold update_job, put_cont in *; simpl in *.
    rewrite Hi, Hj, Hq, Hs. rewrite alter_alter_eq, delete_delete_eq.
    repeat split. }
  clearbody st3. destruct H3 as (g3 & Hj3 & Hs3 & Hq3 & Hi3).
  destruct (close_throws (w_sql w)) as [e'|].
  { eexists. unfold update_job, put_cont; simpl. rewrite Hj3, Hs3, Hq3, Hi3.
    rewrite alter_alter_eq, delete_delete_eq. repeat split. }
  set (st4 := update_job wf _ None st3).
  pose proof (sync_same_tables (w_tb w) user st4) as Ha.
  set (st5 := (tbsyncSyncAccountByUser (w_tb w) user st4).1) in *.
  pose proof (sync_same_tables (w_tb w) user st5) as Hb.
  set (st6 := (tbsyncSyncAccountByUser (w_tb w) user st5).1) in *.
  destruct Ha as (Ha1 & Ha2 & Ha3 & Ha4), Hb as (Hb1 & Hb2 & Hb3 & Hb4).
  eexists. unfold update_job, put_cont; simpl.
  rewrite Hb1, Hb2, Hb3, Hb4, Ha1, Ha2, Ha3, Ha4. subst st4.
  unfold update_job, put_cont; simpl. rewrite Hj3, Hs3, Hq3, Hi3.
  rewrite !alter_alter_eq, !delete_delete_eq. repeat split.
Qed.

Lemma resume_idle wf w clk st :
  suspended st !! wf = None -> resume wf w clk st = st.
Proof. intros H. unfold resume. now rewrite H. Qed.

Lemma resume_tables wf w clk st k :
  suspended st !! wf = Some k ->
  exists g k',
    workflowJobs (resume wf w clk st) = alter g wf (workflowJobs st)
    /\ suspended (resume wf w clk st) = put_cont wf k' (suspended st)
    /\ workflowSeq (resume wf w clk st) = workflowSeq st
    /\ match k' with
       | Some c => cont_key c = cont_key k
                   /\ idempotency (resume wf w clk st) = idempotency st
       | None => idempotency (resume wf w clk st) = idempotency st
                 \/ exists key e, cont_key k = Some key
                      /\ idempotency (resume wf w clk st) = <[key := e]> (idempotency st)
       end.
Proof.
  intros H. unfold resume. rewrite H.
  destruct k as [args key|args key pre|user key pre cr|user key pre cr post
                |user target rs re needles].
  - pose proof (sync_same_tables (w_tb w) (tbsyncUser args) st) as Hs.
    destruct (tbsyncSyncAccountByUser _ _ st) as [st0 [pre|e]]; simpl in Hs.
    + destruct (update_job_tables wf (set_step "create" (clk 0))
                  (Some (AwaitCreate args key pre)) st st0 Hs) as (? & ? & ? & ?).
      do 2 eexists; split; [eassumption|]; split; [eassumption|];
        split; [eassumption|]; simpl; auto.
    + destruct (update_job_tables wf (set_error e (clk 0)) None st st0 Hs)
        as (? & ? & ? & ?).
      do 2 eexists; split; [eassumption|]; split; [eassumption|];
        split; [eassumption|]; simpl; auto.
  - pose proof (create_same_tables (w_cal w) (clk 0) (clk 1) args st) as Hs.
    destruct (createCalendarEvent _ _ _ _ st) as [st0 [cr|e]]; simpl in Hs.
    + destruct (update_job_tables wf (set_step "postSync" (clk 2))
                  (Some (AwaitPostSync (tbsyncUser args) key pre cr)) st st0 Hs)
        as (? & ? & ? & ?).
      do 2 eexists; split; [eassumption|]; split; [eassumption|];
        split; [eassumption|]; simpl; auto.
    + destruct (update_job_tables wf (set_error e (clk 2)) None st st0 Hs)
        as (? & ? & ? & ?).
      do 2 eexists; split; [eassumption|]; split; [eassumption|];
        split; [eassumption|]; simpl; auto.
  - pose proof (sync_same_tables (w_tb w) user st) as Hs.
    destruct (tbsyncSyncAccountByUser _ _ st) as [st0 [post|e]]; simpl in Hs.
    + destruct (update_job_tables wf (fun job => job)
                  (Some (AwaitPostSync2 user key pre cr post)) st st0 Hs)
        as (? & ? & ? & ?).
      do 2 eexists; split; [eassumption|]; split; [eassumption|];
        split; [eassumption|]; simpl; auto.
    + destruct (update_job_tables wf (set_error e (clk 0)) None st st0 Hs)
        as (? & ? & ? & ?).
      do 2 eexists; split; [eassumption|]; split; [eassumption|];
        split; [eassumption|]; simpl; auto.
  - pose proof (sync_same_tables (w_tb w) user st) as Hs.
    destruct (tbsyncSyncAccountByUser _ _ st) as [st0 [post2|e]]; simpl in Hs.
    + destruct (update_job_tables wf
                  (fun job => set_result (ResultCreate pre cr post post2) (clk 0)
                                (set_done (clk 0) job)) None st st0 Hs) as (? & ? & ? & Hi).
      exists (fun job => set_result (ResultCreate pre cr post post2) (clk 0)
                           (set_done (clk 0) job)), None.
      simpl. repeat split; eauto. right. do 2 eexists. split; [reflexivity|].
      simpl in Hi. now rewrite Hi.
    + destruct (update_job_tables wf (set_error e (clk 0)) None st st0 Hs)
        as (? & ? & ? & ?).
      do 2 eexists; split; [eassumption|]; split; [eassumption|];
        split; [eassumption|]; simpl; auto.
  - destruct (runSqlDelete_tables wf user target rs re needles w clk st)
      as (g & ? & ? & ? & ?).
    exists g, None. repeat split; eauto.
Qed.

Lemma resume_jobs_ne wf wf' w clk st :
  wf' <> wf -> workflowJobs (resume wf' w clk st) !! wf = workflowJobs st !! wf.
Proof.
  intros Hne. destruct (suspended st !! wf') as [k|] eqn:E.
  - destruct (resume_tables wf' w clk st k E) as (g & k' & -> & _).
    now apply lookup_alter_ne.
  - now rewrite resume_idle.
Qed.

Lemma resume_suspended_ne wf wf' w clk st :
  wf' <> wf -> suspended (resume wf' w clk st) !! wf = suspended st !! wf.
Proof.
  intros Hne. destruct (suspended st !! wf') as [k|] eqn:E.
  - destruct (resume_tables wf' w clk st k E) as (g & k' & _ & -> & _).
    unfold put_cont. destruct k'; [now apply lookup_insert_ne | now apply lookup_delete_ne].
  - now rewrite resume_idle.
Qed.

Lemma resume_workflowSeq wf w clk st :
  workflowSeq (resume wf w clk st) = workflowSeq st.
Proof.
  destruct (suspended st !! wf) as [k|] eqn:E.
  - now destruct (resume_tables wf w clk st k E) as (g & k' & _ & _ & -> & _).
  - now rewrite resume_idle.
Qed.

Lemma resume_jobs_dom wf w clk st id :
  is_Some (workflowJobs (resume wf w clk st) !! id) <-> is_Some (workflowJobs st !! id).
Proof.
  destruct (suspended st !! wf) as [k|] eqn:E.
  - destruct (resume_tables wf w clk st k E) as (g & k' & -> & _).
    destruct (decide (wf = id)) as [->|Hne].
    + rewrite lookup_alter_eq. apply fmap_is_Some.
    + now rewrite lookup_alter_ne.
  - now rewrite resume_idle.
Qed.

End Resume.

(** ** The label sequence of the create workflow *)

Section CreateSequence.

Implicit Types (st : State) (wf : JobId).

Lemma create_sequence_running_pre : create_sequence Running (firstn 2 create_steps).
Proof. exists 2. split; [lia | reflexivity]. Qed.

Lemma create_sequence_error n :
  2 <= n <= 4 -> create_sequence WfError (firstn n create_steps ++ ["error"]).
Proof. intros. now exists n. Qed.

Lemma cont_steps_range k :
  is_Some (cont_key k) -> exists n, 2 <= n <= 4 /\ cont_steps k = firstn n create_steps.
Proof.
  destruct k; simpl; intros [? ?]; try discriminate;
    [exists 2 | exists 3 | exists 4 | exists 4]; (split; [lia | reflexivity]).
Qed.

(** Failing from any continuation leaves a well-formed failed record. *)
Lemma fail_ok wf e now k job st st0 :
  same_tables st st0 ->
  workflowJobs st !! wf = Some job ->
  wj_steps job = cont_steps k -> is_Some (cont_key k) ->
  create_record_ok wf (update_job wf (set_error e now) None st0).
Proof.
  intros (_ & Hj & _ & _) Hjob Hsteps Hk.
  exists (set_error e now job).
  rewrite update_job_jobs_eq, update_job_suspended_eq, Hj, Hjob. simpl.
  rewrite Hsteps. destruct (cont_steps_range k Hk) as (n & Hn & ->).
  repeat split; [now apply create_sequence_error | apply last_snoc | discriminate].
Qed.

Lemma resume_record_ok wf wf' w clk st :
  create_record_ok wf st -> create_record_ok wf (resume wf' w clk st).
Proof.
  intros (job & Hjob & Hseq & Hlast & Hk).
  destruct (decide (wf' = wf)) as [->|Hne].
  2:{ exists job. now rewrite resume_jobs_ne, resume_suspended_ne. }
  destruct (suspended st !! wf) as [k|] eqn:E.
  2:{ rewrite resume_idle by assumption. exists job. now rewrite E. }
  destruct Hk as (Hrun & Hsteps & Hkey).
  unfold resume. rewrite E.
  destruct k as [args key|args key pre|user key pre cr|user key pre cr post
                |user target rs re needles].
  - pose proof (sync_same_tables (w_tb w) (tbsyncUser args) st) as Hs.
    destruct (tbsyncSyncAccountByUser _ _ st) as [st0 [pre|e]]; simpl in Hs.
    2:{ eapply fail_ok; eauto. }
    exists (set_step "create" (clk 0) job).
    rewrite update_job_jobs_eq, update_job_suspended_eq.
    destruct Hs as (_ & -> & _ & _). rewrite Hjob. simpl. rewrite Hsteps, Hrun.
    repeat split; eauto. exists 3. split; [lia | reflexivity].
  - pose proof (create_same_tables (w_cal w) (clk 0) (clk 1) args st) as Hs.
    destruct (createCalendarEvent _ _ _ _ st) as [st0 [cr|e]]; simpl in Hs.
    2:{ eapply fail_ok; eauto. }
    exists (set_step "postSync" (clk 2) job).
    rewrite update_job_jobs_eq, update_job_suspended_eq.
    destruct Hs as (_ & -> & _ & _). rewrite Hjob. simpl. rewrite Hsteps, Hrun.
    repeat split; eauto. exists 4. split; [lia | reflexivity].
  - pose proof (sync_same_tables (w_tb w) user st) as Hs.
    destruct (tbsyncSyncAccountByUser _ _ st) as [st0 [post|e]]; simpl in Hs.
    2:{ eapply fail_ok; eauto. }
    exists job.
    rewrite update_job_jobs_eq, update_job_suspended_eq.
    destruct Hs as (_ & -> & _ & _). rewrite Hjob. simpl.
    repeat split; eauto.
  - pose proof (sync_same_tables (w_tb w) user st) as Hs.
    destruct (tbsyncSyncAccountByUser _ _ st) as [st0 [post2|e]]; simpl in Hs.
    2:{ eapply fail_ok; eauto. }
    exists (set_result (ResultCreate pre cr post post2) (clk 0) (set_done (clk 0) job)).
    change (workflowJobs (with_idempotency ?f ?s)) with (workflowJobs s).
    change (suspended (with_idempotency ?f ?s)) with (suspended s).
    rewrite update_job_jobs_eq, update_job_suspended_eq.
    destruct Hs as (_ & -> & _ & _). rewrite Hjob. simpl. rewrite Hsteps.
    repeat split; eauto.
  - destruct Hkey as [? Hkey]. discriminate Hkey.
Qed.

Lemma resume_create_ok wf wf' w clk st :
  create_workflow_ok wf st -> create_workflow_ok wf (resume wf' w clk st).
Proof.
  intros [Hissued Hrec]. split; [now rewrite resume_workflowSeq|].
  now apply resume_record_ok.
Qed.

End CreateSequence.

(** ** The idempotency cache *)

Section Cache.

Implicit Types (st : State) (wf : JobId) (args : CreateArgs) (clk : Clock).

Lemma cleanup_lookup now st key :
  idempotency (cleanupIdempotency now st) !! key
  = match idempotency st !! key with
    | Some e => if expired now e then None else Some e
    | None => None
    end.
Proof.
  unfold cleanupIdempotency; simpl. rewrite map_lookup_filter.
  destruct (idempotency st !! key) as [e|]; simpl; [|reflexivity].
  destruct (expired now e) eqn:E.
  - now rewrite option_guard_False by (simpl; congruence).
  - now rewrite option_guard_True by (simpl; congruence).
Qed.

Lemma expired_after_ttl now e :
  (now - ts e > IDEMPOTENCY_TTL_MS)%Z -> expired now e = true.
Proof.
  intros H. unfold expired. apply orb_true_iff. right. now apply Z.gtb_gt.
Qed.

Lemma fresh_within_ttl now e :
  ts e <> 0%Z -> (now - ts e <= IDEMPOTENCY_TTL_MS)%Z -> expired now e = false.
Proof.
  intros H0 H. unfold expired. apply orb_false_iff. split.
  - now apply Z.eqb_neq.
  - rewrite Z.gtb_ltb. apply Z.ltb_ge. lia.
Qed.

Lemma request_starts args clk st :
  Js.truthy (tbsyncUser args) = true ->
  idempotency (cleanupIdempotency (clk 0) st) !! fingerprint args = None ->
  syncAndCreateCalendarEvent args clk st
  = (started_state args clk st,
     RespStarted (clk 1, S (workflowSeq st)) (fingerprint args)).
Proof.
  intros Hu Hk. unfold syncAndCreateCalendarEvent, fingerprint in *.
  rewrite Hu. simpl negb. cbv iota. rewrite Hk.
  unfold started_state, newWorkflowJobId, update_job, put_cont, fingerprint.
  unfold with_suspended, with_workflowJobs, with_idempotency, with_workflowSeq,
    cleanupIdempotency. simpl.
  rewrite alter_insert_eq. reflexivity.
Qed.

Lemma request_suppressed args clk st e :
  Js.truthy (tbsyncUser args) = true ->
  idempotency (cleanupIdempotency (clk 0) st) !! fingerprint args = Some e ->
  syncAndCreateCalendarEvent args clk st
  = (cleanupIdempotency (clk 0) st, RespAlreadyCreated (fingerprint args) (created e)).
Proof.
  intros Hu Hk. unfold syncAndCreateCalendarEvent, fingerprint in *.
  rewrite Hu. simpl negb. cbv iota. now rewrite Hk.
Qed.

(** What a reply of "started" tells about the request. *)
Lemma started_inv args clk st wf key :
  (syncAndCreateCalendarEvent args clk st).2 = RespStarted wf key ->
  Js.truthy (tbsyncUser args) = true
  /\ idempotency (cleanupIdempotency (clk 0) st) !! fingerprint args = None
  /\ wf = (clk 1, S (workflowSeq st)) /\ key = fingerprint args.
Proof.
  destruct (Js.truthy (tbsyncUser args)) eqn:Hu.
  2:{ unfold syncAndCreateCalendarEvent. rewrite Hu. discriminate. }
  destruct (idempotency (cleanupIdempotency (clk 0) st) !! fingerprint args)
    as [e|] eqn:Hk.
  - rewrite (request_suppressed _ _ _ e) by assumption. discriminate.
  - rewrite request_starts by assumption. simpl. intros [= <- <-]. auto.
Qed.

Lemma ids_issued_fresh st t :
  ids_issued st -> workflowJobs st !! (t, S (workflowSeq st)) = None.
Proof.
  intros H. destruct (workflowJobs st !! _) eqn:E; [|reflexivity].
  apply (map_Forall_lookup_1 _ _ _ _ H) in E. simpl in E. lia.
Qed.

Lemma started_create_ok args clk st :
  create_workflow_ok (clk 1, S (workflowSeq st)) (started_state args clk st).
Proof.
  split; [unfold started_state; simpl; lia|].
  eexists. unfold started_state; simpl. rewrite !lookup_insert_eq.
  split; [reflexivity|]. simpl.
  repeat split; eauto. exists 2. split; [lia | reflexivity].
Qed.

Lemma started_holds_pending args clk st :
  no_carrier (fingerprint args) st ->
  holds_pending (clk 1, S (workflowSeq st)) (fingerprint args) (clk 4)
    (started_state args clk st).
Proof.
  intros H. unfold holds_pending, started_state; simpl.
  rewrite !lookup_insert_eq. repeat split.
  intros wf' k Hne. rewrite lookup_insert_ne by congruence.
  apply (map_Forall_lookup_1 _ _ _ _ H).
Qed.

Lemma resume_holds_pending wf key t wf' w clk st :
  holds_pending wf key t st -> holds_pending wf key t (resume wf' w clk st).
Proof.
  unfold holds_pending. intros Hmine.
  destruct (suspended st !! wf') as [k|] eqn:E.
  2:{ now rewrite resume_idle by assumption. }
  destruct (resume_tables wf' w clk st k E) as (g & k' & _ & Hs & _ & Hi).
  rewrite Hs. destruct (decide (wf' = wf)) as [->|Hne].
  - rewrite E in Hmine. destruct Hmine as (Hkey & Hentry & Hothers).
    destruct k' as [c'|]; simpl; [|now rewrite lookup_delete_eq].
    rewrite lookup_insert_eq. destruct Hi as [-> ->].
    split; [exact Hkey|]. split; [exact Hentry|].
    intros wf'' c Hne Hc. rewrite lookup_insert_ne in Hc by congruence.
    now apply (Hothers wf'' c).
  - replace (put_cont wf' k' (suspended st) !! wf) with (suspended st !! wf)
      by (destruct k'; simpl;
          [now rewrite lookup_insert_ne | now rewrite lookup_delete_ne]).
    destruct (suspended st !! wf) as [c|]; [|exact I].
    destruct Hmine as (Hkey & Hentry & Hothers).
    assert (Hk : cont_key k <> Some key) by now apply (Hothers wf' k).
    split; [exact Hkey|]. split.
    + destruct k' as [c'|].
      * destruct Hi as [_ ->]. exact Hentry.
      * destruct Hi as [-> | (key' & e & Hk' & ->)]; [exact Hentry|].
        rewrite lookup_insert_ne; [exact Hentry | congruence].
    + intros wf'' c' Hne' Hc. destruct (decide (wf'' = wf')) as [->|Hne''].
      * destruct k' as [c''|]; simpl in Hc.
        -- rewrite lookup_insert_eq in Hc. injection Hc as <-.
           destruct Hi as [-> _]. exact Hk.
        -- now rewrite lookup_delete_eq in Hc.
      * apply (Hothers wf'' c' Hne').
        destruct k'; simpl in Hc;
          [now rewrite lookup_insert_ne in Hc | now rewrite lookup_delete_ne in Hc].
Qed.

(** A create request leaves the record and the continuation of every
    workflow issued before it alone, and never lowers the counter. *)
Lemma create_request_frame args clk st wf :
  wf.2 <= workflowSeq st ->
  workflowJobs (syncAndCreateCalendarEvent args clk st).1 !! wf = workflowJobs st !! wf
  /\ suspended (syncAndCreateCalendarEvent args clk st).1 !! wf = suspended st !! wf
  /\ workflowSeq st <= workflowSeq (syncAndCreateCalendarEvent args clk st).1.
Proof.
  intros Hissued. destruct (Js.truthy (tbsyncUser args)) eqn:Hu.
  2:{ unfold syncAndCreateCalendarEvent. rewrite Hu. simpl. repeat split; lia. }
  destruct (idempotency (cleanupIdempotency (clk 0) st) !! fingerprint args)
    as [e|] eqn:Hk.
  - rewrite (request_suppressed _ _ _ e) by assumption. simpl. repeat split; lia.
  - rewrite request_starts by assumption. unfold started_state; simpl.
    assert (Hne : (clk 1, S (workflowSeq st)) <> wf)
      by (intros <-; simpl in Hissued; lia).
    rewrite !lookup_insert_ne by assumption. repeat split; lia.
Qed.

Lemma delete_request_frame (args : DeleteArgs) (env : CalEnv) clk st wf :
  wf.2 <= workflowSeq st ->
  workflowJobs (syncAndDeleteEventsBySql args env clk st).1 !! wf = workflowJobs st !! wf
  /\ suspended (syncAndDeleteEventsBySql args env clk st).1 !! wf = suspended st !! wf
  /\ workflowSeq st <= workflowSeq (syncAndDeleteEventsBySql args env clk st).1
  /\ idempotency (syncAndDeleteEventsBySql args env clk st).1 = idempotency st.
Proof.
  intros Hissued. unfold syncAndDeleteEventsBySql.
  destruct (negb (Js.truthy (d_tbsyncUser args))); [simpl; repeat split; lia|].
  destruct (negb (Js.truthy (d_start args)) || negb (Js.truthy (d_end args)));
    [simpl; repeat split; lia|].
  destruct (negb (cal_available env)); [simpl; repeat split; lia|].
  destruct (resolveCalendar _ _ _) as [target|]; [|simpl; repeat split; lia].
  destruct (cal_readOnly target); [simpl; repeat split; lia|].
  destruct (makeTimedRange _ _ _) as [|msg|rs re];
    [simpl; repeat split; lia | simpl; repeat split; lia |].
  cbn [fst newWorkflowJobId].
  unfold with_suspended, with_workflowJobs, with_workflowSeq.
  cbn [workflowJobs workflowSeq suspended idempotency].
  assert (Hne : (clk 0, S (workflowSeq st)) <> wf)
    by (intros <-; simpl in Hissued; lia).
  rewrite !lookup_insert_ne by assumption. repeat split; lia.
Qed.

Lemma step_workflowSeq ev st : workflowSeq st <= workflowSeq (step ev st).
Proof.
  destruct ev as [wf w clk|args clk|args env clk]; cbn [step].
  - now rewrite resume_workflowSeq.
  - apply (create_request_frame args clk st (0%Z, 0)). simpl. lia.
  - apply (delete_request_frame args env clk st (0%Z, 0)). simpl. lia.
Qed.

Lemma step_create_ok wf ev st :
  create_workflow_ok wf st -> create_workflow_ok wf (step ev st).
Proof.
  destruct ev as [wf' w clk|args clk|args env clk]; cbn [step].
  - apply resume_create_ok.
  - intros [Hissued (job & Hjob & Hrec)].
    destruct (create_request_frame args clk st wf Hissued) as (Hj & Hs & Hq).
    split; [lia|]. exists job. now rewrite Hj, Hs.
  - intros [Hissued (job & Hjob & Hrec)].
    destruct (delete_request_frame args env clk st wf Hissued) as (Hj & Hs & Hq & _).
    split; [lia|]. exists job. now rewrite Hj, Hs.
Qed.

Lemma run_create_ok wf evs : forall st,
  create_workflow_ok wf st -> create_workflow_ok wf (run evs st).
Proof.
  induction evs as [|ev rest IH]; intros st H; simpl; [exact H|].
  apply IH, step_create_ok, H.
Qed.

(** A create request that sweeps within the TTL of the pending entry
    neither removes it nor starts a workflow with its fingerprint. *)
Lemma create_request_holds_pending args clk st wf key t :
  wf.2 <= workflowSeq st -> t <> 0%Z ->
  (clk 0%nat - t <= IDEMPOTENCY_TTL_MS)%Z ->
  holds_pending wf key t st ->
  holds_pending wf key t (syncAndCreateCalendarEvent args clk st).1.
Proof.
  intros Hissued Ht Httl Hmine.
  destruct (Js.truthy (tbsyncUser args)) eqn:Hu.
  2:{ unfold syncAndCreateCalendarEvent. now rewrite Hu. }
  unfold holds_pending in *.
  destruct (create_request_frame args clk st wf Hissued) as (_ & -> & _).
  destruct (suspended st !! wf) as [k|]; [|exact I].
  destruct Hmine as (Hkey & Hentry & Hothers).
  assert (Hkept : idempotency (cleanupIdempotency (clk 0) st) !! key
                  = Some {| ts := t; created := PendingWorkflow wf |}).
  { rewrite cleanup_lookup, Hentry. now rewrite fresh_within_ttl. }
  split; [exact Hkey|].
  destruct (idempotency (cleanupIdempotency (clk 0) st) !! fingerprint args)
    as [e|] eqn:Hk.
  - rewrite (request_suppressed _ _ _ e) by assumption. now split.
  - rewrite request_starts by assumption. unfold started_state; simpl.
    assert (Hne : fingerprint args <> key) by (intros E; rewrite E in Hk; congruence).
    split; [now rewrite lookup_insert_ne|].
    intros wf' k' Hwf Hk'.
    destruct (decide (wf' = (clk 1, S (workflowSeq st)))) as [->|Hne'].
    + rewrite lookup_insert_eq in Hk'. injection Hk' as <-. simpl. congruence.
    + rewrite lookup_insert_ne in Hk' by congruence. now apply (Hothers wf' k').
Qed.

Lemma delete_request_holds_pending (args : DeleteArgs) (env : CalEnv) clk st wf key t :
  wf.2 <= workflowSeq st ->
  holds_pending wf key t st ->
  holds_pending wf key t (syncAndDeleteEventsBySql args env clk st).1.
Proof.
  intros Hissued Hmine. unfold holds_pending in *.
  destruct (delete_request_frame args env clk st wf Hissued) as (_ & -> & _ & ->).
  destruct (suspended st !! wf) as [k|]; [|exact I].
  destruct Hmine as (Hkey & Hentry & Hothers).
  split; [exact Hkey|]. split; [exact Hentry|].
  intros wf' k' Hwf. unfold syncAndDeleteEventsBySql.
  destruct (negb (Js.truthy (d_tbsyncUser args))); [apply Hothers, Hwf|].
  destruct (negb (Js.truthy (d_start args)) || negb (Js.truthy (d_end args)));
    [apply Hothers, Hwf|].
  destruct (negb (cal_available env)); [apply Hothers, Hwf|].
  destruct (resolveCalendar _ _ _) as [target|]; [|apply Hothers, Hwf].
  destruct (cal_readOnly target); [apply Hothers, Hwf|].
  destruct (makeTimedRange _ _ _) as [|msg|rs re];
    [apply Hothers, Hwf | apply Hothers, Hwf |].
  cbn [fst newWorkflowJobId]. unfold with_suspended. cbn [suspended].
  destruct (decide (wf' = (clk 0, S (workflowSeq st)))) as [->|Hne'].
  - rewrite lookup_insert_eq. intros [= <-]. discriminate.
  - rewrite lookup_insert_ne by congruence. now apply Hothers.
Qed.

Lemma step_holds_pending wf key t ev st :
  create_workflow_ok wf st -> t <> 0%Z -> sweeps_within t ev ->
  holds_pending wf key t st -> holds_pending wf key t (step ev st).
Proof.
  intros [Hissued _] Ht Hev.
  destruct ev as [wf' w clk|args clk|args env clk]; cbn [step].
  - apply resume_holds_pending.
  - now apply create_request_holds_pending.
  - now apply delete_request_holds_pending.
Qed.

Lemma run_holds_pending wf key t evs : forall st,
  create_workflow_ok wf st -> t <> 0%Z -> Forall (sweeps_within t) evs ->
  holds_pending wf key t st -> holds_pending wf key t (run evs st).
Proof.
  induction evs as [|ev rest IH]; intros st Hok Ht Hevs H; simpl; [exact H|].
  inversion Hevs as [|? ? Hev Hrest]; subst.
  apply IH; auto using step_create_ok, step_holds_pending.
Qed.

(** While its workflow is in flight, the pending entry answers the
    fingerprint. *)
Lemma in_flight_entry wf key t st :
  create_workflow_ok wf st -> holds_pending wf key t st ->
  (wj_status <$> workflowJobs st !! wf) = Some Running ->
  idempotency st !! key = Some {| ts := t; created := PendingWorkflow wf |}.
Proof.
  unfold holds_pending. intros (_ & job & Hjob & _ & _ & Hk) Hmine Hrun.
  rewrite Hjob in Hrun. injection Hrun as Hrun.
  destruct (suspended st !! wf); [apply Hmine | contradiction].
Qed.

End Cache.

(** ** The claims about the create workflow and its cache *)

Lemma dentist_runs_to_done :
  let st1 := (syncAndCreateCalendarEvent Sample.dentist (Sample.clock 1000) initial).1 in
  let st5 := run [Resume Sample.wf1 Sample.world (Sample.clock 3000);
                  Resume Sample.wf1 Sample.world (Sample.clock 5000);
                  Resume Sample.wf1 Sample.world (Sample.clock 7000);
                  Resume Sample.wf1 Sample.world (Sample.clock 9000)] st1 in
  (wj_status <$> workflowJobs st5 !! Sample.wf1) = Some WfDone
  /\ (wj_steps <$> workflowJobs st5 !! Sample.wf1)
     = Some ["start"; "preSync"; "create"; "postSync"; "done"].
Proof. vm_compute. split; reflexivity. Qed.

(** C4 as stated fails on every successful run: the record carries the
    labels start, preSync, create, postSync, done; "mutate" and "postSync2"
    are never assigned. *)
Lemma create_labels_differ_from_spec :
  let st1 := (syncAndCreateCalendarEvent Sample.dentist (Sample.clock 1000) initial).1 in
  let st5 := run [Resume Sample.wf1 Sample.world (Sample.clock 3000);
                  Resume Sample.wf1 Sample.world (Sample.clock 5000);
                  Resume Sample.wf1 Sample.world (Sample.clock 7000);
                  Resume Sample.wf1 Sample.world (Sample.clock 9000)] st1 in
  exists job,
    workflowJobs st5 !! Sample.wf1 = Some job
    /\ wj_status job = WfDone
    /\ wj_steps job = ["start"; "preSync"; "create"; "postSync"; "done"]
    /\ ~ spec_step_sequence (wj_steps job).
Proof.
  eexists. split; [vm_compute; reflexivity|]. cbn [wj_status wj_steps].
  split; [reflexivity|]. split; [reflexivity|].
  intros [H | (p & _ & _ & H)]; [discriminate H|].
  apply (f_equal last) in H. rewrite last_snoc in H. discriminate H.
Qed.

(** C4 (amended): the labels recorded on the record of a create workflow are
    start, preSync, create, postSync, done when it succeeds (the second
    post-sync runs under the label postSync); while it runs they are start,
    preSync followed by at most create, postSync in that order; when a step
    raises they are such a prefix followed by error.  The current label is
    the last one recorded. *)
Theorem create_workflow_step_sequence args clk st wf key evs :
  (syncAndCreateCalendarEvent args clk st).2 = RespStarted wf key ->
  exists job,
    workflowJobs (run evs (syncAndCreateCalendarEvent args clk st).1) !! wf = Some job
    /\ create_sequence (wj_status job) (wj_steps job)
    /\ last (wj_steps job) = Some (wj_step job).
Proof.
  intros H. destruct (started_inv _ _ _ _ _ H) as (Hu & Hk & -> & ->).
  rewrite request_starts by assumption. cbn [fst].
  pose proof (run_create_ok _ evs _ (started_create_ok args clk st)) as Hok.
  destruct Hok as (_ & job & Hjob & Hseq & Hlast & _).
  exists job. repeat split; assumption.
Qed.

Lemma create_workflow_step_sequence_witness :
  let evs := [Resume Sample.wf1 Sample.world (Sample.clock 3000);
              CreateRequest Sample.standup (Sample.clock 4000);
              Resume Sample.wf1 Sample.world (Sample.clock 5000)] in
  (syncAndCreateCalendarEvent Sample.dentist (Sample.clock 1000) initial).2
  = RespStarted Sample.wf1 (fingerprint Sample.dentist)
  /\ exists job,
       workflowJobs
         (run evs (syncAndCreateCalendarEvent Sample.dentist (Sample.clock 1000) initial).1)
         !! Sample.wf1 = Some job
       /\ create_sequence (wj_status job) (wj_steps job)
       /\ last (wj_steps job) = Some (wj_step job).
Proof.
  intros evs.
  assert (H : (syncAndCreateCalendarEvent Sample.dentist (Sample.clock 1000) initial).2
              = RespStarted Sample.wf1 (fingerprint Sample.dentist))
    by (vm_compute; reflexivity).
  split; [exact H|].
  exact (create_workflow_step_sequence Sample.dentist (Sample.clock 1000) initial
           Sample.wf1 (fingerprint Sample.dentist) evs H).
Defined.

(** C6: an entry older than the TTL is absent at the next lookup: the sweep
    at the head of the request purges it, and the request starts a fresh
    workflow, whose pending entry takes the place of the stale one. *)
Theorem expired_entry_starts_fresh_workflow (args : CreateArgs) (clk : Clock)
  (st : State) (e : IdemEntry) :
  Js.truthy (tbsyncUser args) = true ->
  ids_issued st ->
  idempotency st !! fingerprint args = Some e ->
  (clk 0%nat - ts e > IDEMPOTENCY_TTL_MS)%Z ->
  let wf := (clk 1, S (workflowSeq st)) in
  let st' := (syncAndCreateCalendarEvent args clk st).1 in
  idempotency (cleanupIdempotency (clk 0) st) !! fingerprint args = None
  /\ (syncAndCreateCalendarEvent args clk st).2 = RespStarted wf (fingerprint args)
  /\ workflowJobs st !! wf = None
  /\ (exists job, workflowJobs st' !! wf = Some job /\ wj_status job = Running)
  /\ suspended st' !! wf = Some (AwaitPreSync (argsWithTag args) (fingerprint args))
  /\ idempotency st' !! fingerprint args
     = Some {| ts := clk 4; created := PendingWorkflow wf |}.
Proof.
  intros Hu Hids He Hold wf st'.
  assert (Hgone : idempotency (cleanupIdempotency (clk 0) st) !! fingerprint args = None).
  { rewrite cleanup_lookup, He. now rewrite expired_after_ttl. }
  subst st'. rewrite request_starts by assumption. cbn [fst snd].
  split; [exact Hgone|]. split; [reflexivity|].
  split; [now apply ids_issued_fresh|].
  unfold started_state; cbn [workflowJobs suspended idempotency].
  rewrite !lookup_insert_eq. repeat split. eexists. split; reflexivity.
Qed.

(** C1 as stated fails when the first workflow is still in flight after the
    TTL: its pending entry is swept like any other, and the identical
    request starts a second workflow. *)
Lemma pending_entry_expires_in_flight :
  let first := syncAndCreateCalendarEvent Sample.dentist (Sample.clock 1000) initial in
  let second := syncAndCreateCalendarEvent Sample.dentist
                  (Sample.clock (1004 + IDEMPOTENCY_TTL_MS + 1)) first.1 in
  first.2 = RespStarted Sample.wf1 (fingerprint Sample.dentist)
  /\ (wj_status <$> workflowJobs first.1 !! Sample.wf1) = Some Running
  /\ second.2 = RespStarted (21601006%Z, 2) (fingerprint Sample.dentist)
  /\ size (workflowJobs second.1) = 2.
Proof. vm_compute. repeat split. Qed.

(** C1 (amended): a valid request whose fingerprint is neither in the cache
    nor carried by a workflow in flight creates and registers exactly one
    workflow, and stores the pending entry before any call leaves the
    server; an identical request that arrives while that workflow is in
    flight, and no later than the TTL after the pending entry was stored,
    starts no second workflow and is answered with the first workflow's id. *)
Theorem duplicate_request_joins_pending_workflow (args : CreateArgs)
  (clk1 clk2 : Clock) (evs : list Event) (st : State) :
  Js.truthy (tbsyncUser args) = true ->
  ids_issued st ->
  idempotency (cleanupIdempotency (clk1 0) st) !! fingerprint args = None ->
  no_carrier (fingerprint args) st ->
  let wf := (clk1 1, S (workflowSeq st)) in
  let st1 := (syncAndCreateCalendarEvent args clk1 st).1 in
  let st2 := run evs st1 in
  (wj_status <$> workflowJobs st2 !! wf) = Some Running ->
  clk1 4 <> 0%Z ->
  Forall (sweeps_within (clk1 4)) evs ->
  (clk2 0%nat - clk1 4%nat <= IDEMPOTENCY_TTL_MS)%Z ->
  (syncAndCreateCalendarEvent args clk1 st).2 = RespStarted wf (fingerprint args)
  /\ workflowJobs st !! wf = None
  /\ (forall id, is_Some (workflowJobs st1 !! id) <-> id = wf \/ is_Some (workflowJobs st !! id))
  /\ idempotency st1 !! fingerprint args
     = Some {| ts := clk1 4; created := PendingWorkflow wf |}
  /\ effects st1 = effects st
  /\ syncAndCreateCalendarEvent args clk2 st2
     = (cleanupIdempotency (clk2 0) st2,
        RespAlreadyCreated (fingerprint args) (PendingWorkflow wf)).
Proof.
  intros Hu Hids Hnew Hothers wf st1 st2 Hrun Hts Hevs Httl.
  subst st2 st1. revert Hrun. rewrite request_starts by assumption. cbn [fst snd].
  intros Hrun. split; [reflexivity|]. split; [now apply ids_issued_fresh|].
  split.
  { intros id. unfold started_state; cbn [workflowJobs].
    destruct (decide (id = wf)) as [->|Hne].
    - subst wf. rewrite lookup_insert_eq. split; [now left | intros _; eexists; reflexivity].
    - subst wf. rewrite lookup_insert_ne by congruence.
      split; [now right | intros [->|?]; [contradiction | assumption]]. }
  split.
  { unfold started_state; cbn [idempotency]. now rewrite lookup_insert_eq. }
  split; [reflexivity|].
  pose proof (run_create_ok _ evs _ (started_create_ok args clk1 st)) as Hok.
  pose proof (run_holds_pending _ _ _ evs _ (started_create_ok args clk1 st) Hts Hevs
                (started_holds_pending args clk1 st Hothers)) as Hpend.
  pose proof (in_flight_entry _ _ _ _ Hok Hpend Hrun) as Hentry.
  rewrite (request_suppressed args clk2 _
             {| ts := clk1 4; created := PendingWorkflow wf |}); [reflexivity | assumption |].
  rewrite cleanup_lookup, Hentry. now rewrite fresh_within_ttl.
Qed.

Lemma append_inj_l (s a b : string) : s +:+ a = s +:+ b -> a = b.
Proof. induction s as [|c r IH]; simpl; [auto | intros [= H]; auto]. Qed.

(** C9: two timed requests that differ only in the title have the same
    fingerprint (with a generated tag, as with a tag of the caller's), so
    the second, arriving within the TTL of the first one's entry, is
    suppressed as a duplicate of the first; for all-day requests the
    (tagged) title is part of the fingerprint. *)
Theorem timed_fingerprint_ignores_title (args : CreateArgs) (t' : option string)
  (clk1 clk2 : Clock) (st : State) (wf : JobId) (key : string) :
  default false (allDay args) = false ->
  (syncAndCreateCalendarEvent args clk1 st).2 = RespStarted wf key ->
  clk1 4 <> 0%Z ->
  (clk2 0%nat - clk1 4%nat <= IDEMPOTENCY_TTL_MS)%Z ->
  let st1 := (syncAndCreateCalendarEvent args clk1 st).1 in
  fingerprint (with_title t' args) = fingerprint args
  /\ syncAndCreateCalendarEvent (with_title t' args) clk2 st1
     = (cleanupIdempotency (clk2 0) st1, RespAlreadyCreated key (PendingWorkflow wf))
  /\ forall (a : CreateArgs) (t1 t2 : option string),
       allDay a = Some true ->
       let tag := requestTag (mcpTag a) (allDay a) (date a) (start a) (end_ a) in
       fingerprint (with_title t1 a) = fingerprint (with_title t2 a)
       <-> withTagAtEnd t1 (Some tag) = withTagAtEnd t2 (Some tag).
Proof.
  intros Hday Hstart Hts Httl st1.
  assert (Hfp : fingerprint (with_title t' args) = fingerprint args).
  { unfold fingerprint, argsWithTag, idempotencyKey, with_title, assignTagTitle.
    cbn [tbsyncUser calendarName calendarId title description allDay date start end_ mcpTag].
    now rewrite Hday. }
  split; [exact Hfp|]. split.
  - destruct (started_inv _ _ _ _ _ Hstart) as (Hu & Hk & -> & ->).
    subst st1. rewrite (request_starts args clk1 st) by assumption. cbn [fst].
    rewrite (request_suppressed _ clk2 _
               {| ts := clk1 4;
                  created := PendingWorkflow (clk1 1, S (workflowSeq st)) |}).
    + now rewrite Hfp.
    + exact Hu.
    + rewrite Hfp, cleanup_lookup. unfold started_state; cbn [idempotency].
      rewrite lookup_insert_eq. now rewrite fresh_within_ttl.
  - intros a t1 t2 Ha tag.
    unfold fingerprint, argsWithTag, idempotencyKey, with_title, assignTagTitle.
    cbn [tbsyncUser calendarName calendarId title description allDay date start end_ mcpTag].
    rewrite Ha. change (default false (Some true)) with true. cbv iota.
    subst tag. rewrite Ha. split.
    + intros H. now do 6 apply append_inj_l in H.
    + now intros ->.
Qed.

Lemma timed_fingerprint_ignores_title_witness :
  default false (allDay Sample.standup) = false
  /\ (syncAndCreateCalendarEvent Sample.standup (Sample.clock 1000) initial).2
     = RespStarted Sample.wf1 (fingerprint Sample.standup)
  /\ Sample.clock 1000 4 <> 0%Z
  /\ (Sample.clock 2000 0%nat - Sample.clock 1000 4%nat <= IDEMPOTENCY_TTL_MS)%Z
  /\ fingerprint (with_title (Some "Retro") Sample.standup) = fingerprint Sample.standup
  /\ (syncAndCreateCalendarEvent (with_title (Some "Retro") Sample.standup)
        (Sample.clock 2000)
        (syncAndCreateCalendarEvent Sample.standup (Sample.clock 1000) initial).1).2
     = RespAlreadyCreated (fingerprint Sample.standup) (PendingWorkflow Sample.wf1).
Proof.
  assert (H1 : default false (allDay Sample.standup) = false) by reflexivity.
  assert (H2 : (syncAndCreateCalendarEvent Sample.standup (Sample.clock 1000) initial).2
               = RespStarted Sample.wf1 (fingerprint Sample.standup))
    by (vm_compute; reflexivity).
  assert (H3 : Sample.clock 1000 4 <> 0%Z) by (vm_compute; discriminate).
  assert (H4 : (Sample.clock 2000 0%nat - Sample.clock 1000 4%nat
                <= IDEMPOTENCY_TTL_MS)%Z) by (vm_compute; discriminate).
  destruct (timed_fingerprint_ignores_title Sample.standup (Some "Retro")
              (Sample.clock 1000) (Sample.clock 2000) initial Sample.wf1
              (fingerprint Sample.standup) H1 H2 H3 H4) as (Hfp & Hdup & _).
  split; [exact H1|]. split; [exact H2|]. split; [exact H3|]. split; [exact H4|].
  split; [exact Hfp|]. exact (f_equal snd Hdup).
Defined.

Lemma expired_entry_starts_fresh_workflow_witness :
  let st := (syncAndCreateCalendarEvent Sample.dentist (Sample.clock 1000) initial).1 in
  let e := {| ts := 1004; created := PendingWorkflow Sample.wf1 |} in
  let clk := Sample.clock 30000000 in
  Js.truthy (tbsyncUser Sample.dentist) = true
  /\ ids_issued st
  /\ idempotency st !! fingerprint Sample.dentist = Some e
  /\ (clk 0%nat - ts e > IDEMPOTENCY_TTL_MS)%Z
  /\ (syncAndCreateCalendarEvent Sample.dentist clk st).2
     = RespStarted (30000001%Z, 2) (fingerprint Sample.dentist).
Proof.
  intros st e clk.
  assert (H1 : Js.truthy (tbsyncUser Sample.dentist) = true) by reflexivity.
  assert (H2 : ids_issued st) by (refine (bool_decide_eq_true_1 _ _); vm_compute; reflexivity).
  assert (H3 : idempotency st !! fingerprint Sample.dentist = Some e)
    by (vm_compute; reflexivity).
  assert (H4 : (clk 0%nat - ts e > IDEMPOTENCY_TTL_MS)%Z) by (vm_compute; reflexivity).
  destruct (expired_entry_starts_fresh_workflow Sample.dentist clk st e H1 H2 H3 H4)
    as (_ & Hr & _).
  split; [exact H1|]. split; [exact H2|]. split; [exact H3|]. split; [exact H4|].
  exact Hr.
Defined.

Lemma duplicate_request_joins_pending_workflow_witness :
  let evs := [Resume Sample.wf1 Sample.world (Sample.clock 3000);
              CreateRequest Sample.standup (Sample.clock 4000)] in
  let st1 := (syncAndCreateCalendarEvent Sample.dentist (Sample.clock 1000) initial).1 in
  Js.truthy (tbsyncUser Sample.dentist) = true
  /\ ids_issued initial
  /\ idempotency (cleanupIdempotency (Sample.clock 1000 0) initial)
       !! fingerprint Sample.dentist = None
  /\ no_carrier (fingerprint Sample.dentist) initial
  /\ (wj_status <$> workflowJobs (run evs st1) !! Sample.wf1) = Some Running
  /\ Sample.clock 1000 4 <> 0%Z
  /\ Forall (sweeps_within (Sample.clock 1000 4)) evs
  /\ (Sample.clock 5000 0%nat - Sample.clock 1000 4%nat <= IDEMPOTENCY_TTL_MS)%Z
  /\ size (workflowJobs (run evs st1)) = 2
  /\ (syncAndCreateCalendarEvent Sample.dentist (Sample.clock 5000) (run evs st1)).2
     = RespAlreadyCreated (fingerprint Sample.dentist) (PendingWorkflow Sample.wf1).
Proof.
  intros evs st1.
  assert (H1 : Js.truthy (tbsyncUser Sample.dentist) = true) by reflexivity.
  assert (H2 : ids_issued initial) by (refine (bool_decide_eq_true_1 _ _); vm_compute; reflexivity).
  assert (H3 : idempotency (cleanupIdempotency (Sample.clock 1000 0) initial)
                 !! fingerprint Sample.dentist = None) by (vm_compute; reflexivity).
  assert (H4 : no_carrier (fingerprint Sample.dentist) initial)
    by (refine (bool_decide_eq_true_1 _ _); vm_compute; reflexivity).
  assert (H5 : (wj_status <$> workflowJobs (run evs st1) !! Sample.wf1) = Some Running)
    by (vm_compute; reflexivity).
  assert (H6 : Sample.clock 1000 4 <> 0%Z) by (vm_compute; discriminate).
  assert (H7 : Forall (sweeps_within (Sample.clock 1000 4)) evs).
  { constructor; [exact I|].
    constructor; [vm_compute; discriminate | constructor]. }
  assert (H8 : (Sample.clock 5000 0%nat - Sample.clock 1000 4%nat
                <= IDEMPOTENCY_TTL_MS)%Z) by (vm_compute; discriminate).
  destruct (duplicate_request_joins_pending_workflow Sample.dentist (Sample.clock 1000)
              (Sample.clock 5000) evs initial H1 H2 H3 H4 H5 H6 H7 H8)
    as (_ & _ & _ & _ & _ & Hdup).
  split; [exact H1|]. split; [exact H2|]. split; [exact H3|]. split; [exact H4|].
  split; [exact H5|]. split; [exact H6|]. split; [exact H7|]. split; [exact H8|].
  split; [vm_compute; reflexivity|].
  exact (f_equal snd Hdup).
Defined.

(** ** Pre-sync failures *)

(** A pre-sync that raises aborts the workflow at once: the record fails
    with the text of the exception, nothing is created, no call leaves. *)
Lemma presync_exception_aborts (wf : JobId) (w : World) (clk : Clock) (st : State)
  (args : CreateArgs) (key : string) (job : WorkflowJob) (e : Exn) :
  suspended st !! wf = Some (AwaitPreSync args key) ->
  workflowJobs st !! wf = Some job ->
  getTbSyncModule (w_tb w) = Threw e ->
  workflowJobs (resume wf w clk st) !! wf = Some (set_error e (clk 0) job)
  /\ suspended (resume wf w clk st) !! wf = None
  /\ effects (resume wf w clk st) = effects st
  /\ calendarJobs (resume wf w clk st) = calendarJobs st.
Proof.
  intros Hk Hjob He. unfold resume. rewrite Hk.
  unfold tbsyncSyncAccountByUser. rewrite He.
  rewrite update_job_jobs_eq, update_job_suspended_eq, Hjob. repeat split.
Qed.

(** A pre-sync that returns, be it an error reply, lets the workflow go on
    to the create step. *)
Lemma presync_reply_continues (wf : JobId) (w : World) (clk : Clock) (st : State)
  (args : CreateArgs) (key : string) :
  suspended st !! wf = Some (AwaitPreSync args key) ->
  getTbSyncModule (w_tb w) = Returned tt ->
  exists pre, suspended (resume wf w clk st) !! wf = Some (AwaitCreate args key pre).
Proof.
  intros Hk Hm. unfold resume. rewrite Hk.
  destruct (tbsyncSyncAccountByUser (w_tb w) (tbsyncUser args) st) as [st0 [pre|e]] eqn:E.
  - exists pre. apply update_job_suspended_eq.
  - unfold tbsyncSyncAccountByUser in E. rewrite Hm in E.
    destruct (acc_id <$> _) as [|? [|? ?]]; discriminate E.
Qed.

(** C5, at the failing input: the user matches no TbSync account, the
    pre-sync returns its error reply, and the workflow still creates the
    event and ends done. *)
Theorem presync_error_reply_does_not_abort :
  let st1 := (syncAndCreateCalendarEvent Sample.stranger (Sample.clock 1000) initial).1 in
  let st2 := resume Sample.wf1 Sample.world (Sample.clock 3000) st1 in
  let st5 := run [Resume Sample.wf1 Sample.world (Sample.clock 5000);
                  Resume Sample.wf1 Sample.world (Sample.clock 7000);
                  Resume Sample.wf1 Sample.world (Sample.clock 9000)] st2 in
  suspended st2 !! Sample.wf1
  = Some (AwaitCreate (argsWithTag Sample.stranger) (fingerprint Sample.stranger)
            (SyncError "No TbSync account found with user=nobody@example.org"))
  /\ (wj_step <$> workflowJobs st2 !! Sample.wf1) = Some "create"
  /\ effects st5 = [ProviderAddItem "cal-1" "Dentist (mcp:20260204)"]
  /\ (wj_status <$> workflowJobs st5 !! Sample.wf1) = Some WfDone
  /\ (wj_error <$> workflowJobs st5 !! Sample.wf1) = Some None.
Proof. vm_compute. repeat split. Qed.

(** ** Keywords and [LIKE] *)

Section Like.

Implicit Types (s t kw : string) (c p : ascii).

Lemma lower_char_idem c : Js.lower_char (Js.lower_char c) = Js.lower_char c.
Proof. destruct c as [[] [] [] [] [] [] [] []]; reflexivity. Qed.

Lemma toLowerCase_lowered s : all_chars is_lowered (Js.toLowerCase s) = true.
Proof.
  induction s as [|c r IH]; simpl; [reflexivity|].
  rewrite IH, andb_true_r. unfold is_lowered.
  rewrite lower_char_idem. apply Ascii.eqb_refl.
Qed.

Lemma ltrim_all_chars f s : all_chars f s = true -> all_chars f (Js.ltrim s) = true.
Proof.
  induction s as [|c r IH]; simpl; [auto|].
  intros H. apply andb_true_iff in H as [Hc Hr].
  destruct (Js.is_space c); [auto | simpl; now rewrite Hc, Hr].
Qed.

Lemma rtrim_all_chars f s : all_chars f s = true -> all_chars f (Js.rtrim s) = true.
Proof.
  induction s as [|c r IH]; simpl; [auto|].
  intros H. apply andb_true_iff in H as [Hc Hr]. specialize (IH Hr).
  destruct (Js.rtrim r) as [|d r'].
  - destruct (Js.is_space c); simpl; [reflexivity | now rewrite Hc].
  - change (all_chars f (String c (String d r'))) with (f c && all_chars f (String d r')).
    now rewrite Hc, IH.
Qed.

Lemma trim_all_chars f s : all_chars f s = true -> all_chars f (Js.trim s) = true.
Proof. intros. now apply rtrim_all_chars, ltrim_all_chars. Qed.

(** One step of [%]: it matches nothing here, or swallows a character. *)
Lemma like_percent ps t :
  sql_like (String "%" ps) t
  = sql_like ps t
    || match t with
       | EmptyString => false
       | String _ t' => sql_like (String "%" ps) t'
       end.
Proof. destruct t; reflexivity. Qed.

Lemma like_percent_all t : sql_like "%" t = true.
Proof.
  induction t as [|c r IH]; [reflexivity|].
  rewrite like_percent, IH. apply orb_true_r.
Qed.

Lemma prefix_cons p kw c t :
  String.prefix (String p kw) (String c t) = Ascii.eqb p c && String.prefix kw t.
Proof.
  simpl. destruct (ascii_dec p c) as [->|Hne].
  - now rewrite Ascii.eqb_refl.
  - apply Ascii.eqb_neq in Hne. now rewrite Hne.
Qed.

(** A keyword without wildcards, followed by [%], matches the texts it is
    a prefix of. *)
Lemma like_literal kw : forall t,
  plain kw = true -> all_chars is_lowered kw = true -> all_chars is_lowered t = true ->
  sql_like (kw +:+ "%") t = String.prefix kw t.
Proof.
  induction kw as [|p ps IH]; intros t Hplain Hkw Ht.
  - simpl String.append. rewrite like_percent_all. now destruct t.
  - simpl in Hplain, Hkw.
    apply andb_true_iff in Hplain as [Hp Hps].
    apply andb_true_iff in Hp as [Hpct Hund].
    apply andb_true_iff in Hkw as [Hlp Hlps].
    apply negb_true_iff in Hpct, Hund.
    destruct t as [|c t'].
    + simpl. now rewrite Hpct.
    + simpl in Ht. apply andb_true_iff in Ht as [Hlc Hlt].
      rewrite prefix_cons. simpl String.append.
      change (sql_like (String p (ps +:+ "%")) (String c t'))
        with (if Ascii.eqb p "%" then
                sql_like (String "%" (ps +:+ "%")) (String c t')
              else (Ascii.eqb p "_" || Ascii.eqb (Js.lower_char p) (Js.lower_char c))
                   && sql_like (ps +:+ "%") t').
      rewrite Hpct, Hund. simpl orb.
      unfold is_lowered in Hlp, Hlc.
      apply Ascii.eqb_eq in Hlp, Hlc. rewrite Hlp, Hlc.
      now rewrite IH.
Qed.

(** Between two [%], such a keyword matches the texts that contain it. *)
Lemma like_contains kw t :
  plain kw = true -> all_chars is_lowered kw = true -> all_chars is_lowered t = true ->
  sql_like ("%" +:+ kw +:+ "%") t = Js.includes t kw.
Proof.
  intros Hplain Hkw. simpl String.append.
  induction t as [|c r IH]; intros Ht; rewrite like_percent.
  - rewrite like_literal by assumption. simpl. now rewrite orb_false_r.
  - rewrite like_literal by assumption.
    simpl in Ht. apply andb_true_iff in Ht as [_ Hr].
    rewrite IH by assumption. reflexivity.
Qed.

Lemma keywords_lowered needles kw :
  In kw (keywords needles) -> all_chars is_lowered kw = true /\ kw <> "".
Proof.
  unfold keywords. intros H. apply filter_In in H as [H Hne].
  apply in_map_iff in H as (n & <- & _). split.
  - apply trim_all_chars, toLowerCase_lowered.
  - apply negb_true_iff in Hne. now apply String.eqb_neq.
Qed.

Lemma keywordClauses_keywords needles :
  keywordClauses needles
  = (fun kw => LowerTitleLike ("%" +:+ kw +:+ "%")) <$> keywords needles.
Proof.
  unfold keywordClauses, keywords.
  induction (default [] needles) as [|n rest IH]; [reflexivity|].
  simpl in *. rewrite IH.
  destruct (String.eqb (Js.trim (Js.toLowerCase n)) ""); reflexivity.
Qed.

Lemma containsAll_keywords ttl needles :
  containsAll ttl needles = title_has (keywords needles) ttl.
Proof.
  unfold containsAll, title_has, keywords.
  induction (default [] needles) as [|n rest IH]; [reflexivity|].
  simpl. rewrite IH.
  destruct (String.eqb (Js.trim (Js.toLowerCase n)) ""); reflexivity.
Qed.

(** With keywords free of wildcards, the [LIKE] conjuncts ask that the
    lower-cased title contain every keyword. *)
Lemma like_clauses_title_has row kws :
  (forall kw, In kw kws -> all_chars is_lowered kw = true /\ kw <> "") ->
  forallb plain kws = true ->
  forallb (holds row) ((fun kw => LowerTitleLike ("%" +:+ kw +:+ "%")) <$> kws)
  = title_has kws (row_title row).
Proof.
  unfold title_has. induction kws as [|kw rest IH]; intros Hkws Hplain; [reflexivity|].
  simpl in Hplain. apply andb_true_iff in Hplain as [Hp Hps].
  destruct (Hkws kw (or_introl eq_refl)) as [Hlow Hne].
  cbn [fmap list_fmap forallb]. rewrite IH by (auto; intros; apply Hkws; now right).
  f_equal. unfold holds. destruct (row_title row) as [t|]; simpl.
  - apply like_contains; auto using toLowerCase_lowered.
  - destruct kw; [congruence | reflexivity].
Qed.

Lemma where_clauses_select env target rs re needles row :
  forallb plain (keywords needles) = true ->
  forallb (holds row) (whereClauses env target rs re needles)
  = in_window env target rs re row && title_has (keywords needles) (row_title row).
Proof.
  intros Hplain. unfold whereClauses. cbn [forallb].
  rewrite keywordClauses_keywords.
  rewrite like_clauses_title_has; [| intros kw; apply keywords_lowered | assumption].
  unfold in_window, spec_within. cbn [holds]. now rewrite andb_assoc.
Qed.

Lemma selectCandidates_length clauses table :
  length (selectCandidates clauses table)
  = length (List.filter (fun r => forallb (holds r) clauses) table).
Proof. unfold selectCandidates. apply length_fmap. Qed.

End Like.

(** ** The SQL delete workflow *)

Section SqlDelete.

Implicit Types (st : State) (wf : JobId) (env : CalEnv).

Lemma dispatched_length env ids : forall n, length (dispatched env n ids) <= length ids.
Proof.
  induction ids as [|c rest IH]; intros n; simpl; [lia|].
  specialize (IH (S n)). destruct (createInstance_throws env n); simpl; lia.
Qed.

Lemma startDeleteItemJob_effects env n target id meta t1 t2 st :
  effects (startDeleteItemJob env n target id meta t1 t2 st).1
  = effects st ++ [ProviderDeleteItem (cal_id target) id].
Proof. reflexivity. Qed.

(** [startDeleteItemJob] never raises: what the provider raises is kept on
    the job it registers. *)
Lemma startDeleteItemJob_records env n target id meta t1 t2 st :
  let job := (startDeleteItemJob env n target id meta t1 t2 st).2 in
  calendarJobs (startDeleteItemJob env n target id meta t1 t2 st).1 !! cj_jobId job
  = Some job
  /\ cj_status job = match deleteItem_throws env n with
                     | Some _ => JobError
                     | None => JobPending
                     end
  /\ cj_error job = exn_toString <$> deleteItem_throws env n.
Proof.
  unfold startDeleteItemJob. cbn [fst snd emit with_calendarJobs calendarJobs].
  destruct (deleteItem_throws env n); cbn [cj_jobId cj_status cj_error];
    rewrite lookup_insert_eq; repeat split.
Qed.

#[local] Arguments startDeleteItemJob : simpl never.

(** The loop visits every candidate: each one adds to exactly one tally,
    and a delete call leaves for each one whose dispatch does not raise. *)
Lemma dispatch_tally env clk target ids : forall n t e st,
  (dispatchDeletes env clk target n ids t e st).1.2
  = t + length (dispatched env n ids)
  /\ (dispatchDeletes env clk target n ids t e st).2
     = e + (length ids - length (dispatched env n ids))
  /\ effects (dispatchDeletes env clk target n ids t e st).1.1
     = effects st ++ delete_calls target (dispatched env n ids).
Proof.
  induction ids as [|[id ttl] rest IH]; intros n t e st;
    cbn [dispatchDeletes dispatched length].
  - unfold delete_calls. cbn [fmap list_fmap fst snd length].
    rewrite app_nil_r. repeat split; lia.
  - pose proof (dispatched_length env rest (S n)) as Hlen.
    destruct (createInstance_throws env n).
    + destruct (IH (S n) t (S e) st) as (-> & -> & ->). repeat split; lia.
    + pose proof (startDeleteItemJob_effects env n target id
                    (DeleteItem "sqlBulkDelete" ttl)
                    (clk (3 * n + 1)) (clk (3 * n + 2)) st) as He.
      destruct (startDeleteItemJob env n target id (DeleteItem "sqlBulkDelete" ttl)
                  (clk (3 * n + 1)) (clk (3 * n + 2)) st) as [st' j].
      cbn [fst] in He.
      destruct (IH (S n) (S t) e st') as (-> & -> & ->).
      rewrite He. unfold delete_calls. cbn [fmap list_fmap length fst].
      rewrite <- app_assoc. repeat split; simpl; lia.
Qed.

Lemma sync_keeps_deletes tb user st :
  List.filter is_delete (effects (tbsyncSyncAccountByUser tb user st).1)
  = List.filter is_delete (effects st).
Proof.
  unfold tbsyncSyncAccountByUser.
  destruct (getTbSyncModule tb); [|reflexivity].
  destruct (acc_id <$> _) as [|? [|? ?]]; try reflexivity.
  simpl. rewrite List.filter_app. simpl. apply app_nil_r.
Qed.

Lemma filter_delete_calls target sent :
  List.filter is_delete (delete_calls target sent) = delete_calls target sent.
Proof. induction sent as [|c rest IH]; simpl; [reflexivity | now rewrite IH]. Qed.

Lemma sql_open_fails wf user target rs re needles w clk st job e :
  workflowJobs st !! wf = Some job ->
  open_throws (w_sql w) = Some e ->
  workflowJobs (runSqlDelete wf user target rs re needles w clk st) !! wf
  = Some (set_error e (clk 0) job).
Proof.
  intros Hjob Ho. unfold runSqlDelete. rewrite Ho.
  now rewrite update_job_jobs_eq, Hjob.
Qed.

Lemma sql_execute_fails wf user target rs re needles w clk st job e :
  workflowJobs st !! wf = Some job ->
  open_throws (w_sql w) = None ->
  execute_throws (w_sql w) = Some e ->
  workflowJobs (runSqlDelete wf user target rs re needles w clk st) !! wf
  = Some (set_error (default e (close_throws (w_sql w))) (clk 0) job)
  /\ effects (runSqlDelete wf user target rs re needles w clk st) = effects st.
Proof.
  intros Hjob Ho He. unfold runSqlDelete. rewrite Ho, He.
  now rewrite update_job_jobs_eq, Hjob.
Qed.

(** Once the query has returned its rows, the terminal record depends on
    the release of the connection only. *)
Lemma sql_query_ok wf user target rs re needles w clk st job :
  workflowJobs st !! wf = Some job ->
  open_throws (w_sql w) = None ->
  execute_throws (w_sql w) = None ->
  let ids := selectCandidates (whereClauses (w_cal w) target rs re needles)
               (cal_events (w_sql w)) in
  let sent := dispatched (w_cal w) 0 ids in
  let st' := runSqlDelete wf user target rs re needles w clk st in
  exists job',
    workflowJobs st' !! wf = Some job'
    /\ wj_result job'
       = Some (ResultDelete (length ids) (length sent) (length ids - length sent)
                 (firstn 10 ids))
    /\ List.filter is_delete (effects st')
       = List.filter is_delete (effects st) ++ delete_calls target sent
    /\ match close_throws (w_sql w) with
       | Some e => wj_status job' = WfError
                   /\ wj_steps job' = wj_steps job ++ ["delete"; "error"]
                   /\ wj_error job' = Some (exn_toString e)
       | None => wj_status job' = WfDone
                 /\ wj_steps job' = wj_steps job ++ ["delete"; "postSync"; "done"]
                 /\ wj_error job' = wj_error job
       end.
Proof.
  intros Hjob Ho He ids sent st'. subst st'. unfold runSqlDelete.
  rewrite Ho, He. fold ids.
  set (st1 := update_job wf (set_step "delete" (clk 0)) None st).
  pose proof (dispatch_same_tables (w_cal w) clk target ids 0 0 0 st1)
    as (_ & Hj & _ & _).
  pose proof (dispatch_tally (w_cal w) clk target ids 0 0 0 st1) as (Ht & Hx & Hf).
  fold sent in Ht, Hx, Hf.
  destruct (dispatchDeletes (w_cal w) clk target 0 ids 0 0 st1) as [[st2 t] x].
  cbn [fst snd] in Hj, Ht, Hx, Hf. subst t x.
  assert (Hjob1 : workflowJobs st2 !! wf = Some (set_step "delete" (clk 0) job)).
  { rewrite Hj. subst st1. now rewrite update_job_jobs_eq, Hjob. }
  assert (Heff : effects st2 = effects st ++ delete_calls target sent)
    by (rewrite Hf; reflexivity).
  destruct (close_throws (w_sql w)) as [e|].
  - eexists. rewrite !update_job_jobs_eq, Hjob1. cbn [fmap option_fmap option_map].
    split; [reflexivity|]. cbn [wj_result set_error set_result].
    split; [reflexivity|]. split.
    + rewrite !update_job_effects, Heff, List.filter_app, filter_delete_calls.
      reflexivity.
    + cbn. rewrite <- !app_assoc. repeat split.
  - eexists. rewrite !update_job_jobs_eq.
    pose proof (sync_same_tables (w_tb w) user
                  (update_job wf (set_step "postSync" (clk (3 * length ids + 1))) None
                     (update_job wf
                        (set_result
                           (ResultDelete (length ids) (0 + length sent)
                              (0 + (length ids - length sent)) (firstn 10 ids))
                           (clk (3 * length ids))) None st2))) as (_ & Ha & _ & _).
    match type of Ha with
    | workflowJobs ?s = _ =>
        pose proof (sync_same_tables (w_tb w) user s) as (_ & Hb & _ & _);
        pose proof (sync_keeps_deletes (w_tb w) user s) as Hd2
    end.
    match type of Ha with
    | _ = workflowJobs ?s => pose proof (sync_keeps_deletes (w_tb w) user s) as Hd1
    end.
    rewrite Hb, Ha, !update_job_jobs_eq, Hjob1.
    cbn [fmap option_fmap option_map].
    split; [reflexivity|]. cbn [wj_result set_done set_step set_result].
    split; [reflexivity|]. split.
    + rewrite update_job_effects, Hd2, Hd1, !update_job_effects, Heff,
        List.filter_app, filter_delete_calls. reflexivity.
    + cbn. rewrite <- !app_assoc. repeat split.
Qed.

End SqlDelete.

Lemma dispatched_lookup env ids : forall n j c,
  ids !! j = Some c -> createInstance_throws env (n + j) = None ->
  In c (dispatched env n ids).
Proof.
  induction ids as [|d rest IH]; intros n j c Hj Hok; [discriminate|].
  destruct j as [|j]; simpl in Hj.
  - injection Hj as ->. simpl. rewrite Nat.add_0_r in Hok. rewrite Hok. now left.
  - simpl. assert (In c (dispatched env (S n) rest)).
    { apply (IH (S n) j); [assumption|]. now rewrite <- Nat.add_succ_comm in Hok. }
    destruct (createInstance_throws env n); [assumption | now right].
Qed.

(** C7 as stated fails when the provider raises while a candidate's delete
    is handed over: the delete job takes the failure, the error tally stays
    at zero and the candidate counts as triggered. *)
Lemma provider_failure_is_not_tallied :
  let st := (syncAndDeleteEventsBySql (Sample.sweep ["standup"]) Sample.calenv
               (Sample.clock 1000) initial).1 in
  let w := Sample.refusing_world [Sample.row "e1" "Standup"] in
  let st' := resume Sample.wf_sweep w (Sample.clock 2000) st in
  deleteItem_throws (w_cal w) 0 = Some (Error "NS_ERROR_NOT_AVAILABLE")
  /\ (wj_result <$> workflowJobs st' !! Sample.wf_sweep)
     = Some (Some (ResultDelete 1 1 0 [("e1", Some "Standup")]))
  /\ (wj_status <$> workflowJobs st' !! Sample.wf_sweep) = Some WfDone
  /\ (cj_status <$> calendarJobs st' !! (2001%Z, 1)) = Some JobError
  /\ (cj_error <$> calendarJobs st' !! (2001%Z, 1))
     = Some (Some "Error: NS_ERROR_NOT_AVAILABLE").
Proof. vm_compute. repeat split. Qed.

(** C7 (amended): in the SQL delete workflow every candidate is dispatched
    on its own: a dispatch that raises before its delete job is started (the
    creation of the event object) adds one to the error tally and is
    skipped, the candidates after it are still dispatched, and a provider
    that raises inside the delete job fails that job while the candidate
    counts as triggered; the workflow ends done whatever the tallies are,
    and ends in error only when the query step raises: opening the
    database, running the query or releasing its connection (the post-sync
    triggers are not awaited and cannot fail it). *)
Theorem sql_delete_isolates_candidate_failures (wf : JobId) (user : option string)
  (target : Calendar) (rs re : DateTime) (needles : option (list string))
  (w : World) (clk : Clock) (st : State) (job : WorkflowJob) :
  suspended st !! wf = Some (AwaitSql user target rs re needles) ->
  workflowJobs st !! wf = Some job ->
  let st' := resume wf w clk st in
  let ids := selectCandidates (whereClauses (w_cal w) target rs re needles)
               (cal_events (w_sql w)) in
  let sent := dispatched (w_cal w) 0 ids in
  exists job',
    workflowJobs st' !! wf = Some job'
    /\ (wj_status job' = WfDone \/ wj_status job' = WfError)
    /\ (open_throws (w_sql w) = None -> execute_throws (w_sql w) = None ->
        wj_result job'
        = Some (ResultDelete (length ids) (length sent) (length ids - length sent)
                  (firstn 10 ids))
        /\ List.filter is_delete (effects st')
           = List.filter is_delete (effects st) ++ delete_calls target sent
        /\ (forall j c, ids !! j = Some c -> createInstance_throws (w_cal w) j = None ->
            In (ProviderDeleteItem (cal_id target) c.1) (effects st'))
        /\ (close_throws (w_sql w) = None -> wj_status job' = WfDone))
    /\ (wj_status job' = WfError ->
        open_throws (w_sql w) <> None \/ execute_throws (w_sql w) <> None
        \/ close_throws (w_sql w) <> None).
Proof.
  intros Hk Hjob st' ids sent. subst st'. unfold resume. rewrite Hk.
  destruct (open_throws (w_sql w)) as [eo|] eqn:Ho.
  { exists (set_error eo (clk 0) job).
    split; [now apply sql_open_fails|]. split; [now right|].
    split; [discriminate|]. intros _. left. discriminate. }
  destruct (execute_throws (w_sql w)) as [ee|] eqn:He.
  { destruct (sql_execute_fails wf user target rs re needles w clk st job ee Hjob Ho He)
      as [Hj _].
    eexists. split; [exact Hj|]. split; [now right|].
    split; [discriminate|]. intros _. right. left. discriminate. }
  destruct (sql_query_ok wf user target rs re needles w clk st job Hjob Ho He)
    as (job' & Hj & Hres & Heff & Hclose).
  exists job'. split; [exact Hj|].
  split; [destruct (close_throws (w_sql w)); [right | left]; apply Hclose|].
  split.
  - intros _ _. split; [exact Hres|]. split; [exact Heff|]. split.
    + intros j c Hjc Hok.
      assert (Hin : In (ProviderDeleteItem (cal_id target) c.1)
                      (List.filter is_delete
                         (effects (runSqlDelete wf user target rs re needles w clk st)))).
      { rewrite Heff. apply in_or_app. right. unfold delete_calls.
        apply (in_map (fun c => ProviderDeleteItem (cal_id target) c.1)).
        now apply (dispatched_lookup (w_cal w) ids 0 j c). }
      now apply filter_In in Hin as [Hin _].
    + intros Hc. rewrite Hc in Hclose. apply Hclose.
  - intros Herr. right. right. destruct (close_throws (w_sql w)); [discriminate|].
    destruct Hclose as [Hd _]. congruence.
Qed.

Lemma sql_delete_isolates_candidate_failures_witness :
  let rows := [Sample.row "e1" "Standup A"; Sample.row "e2" "Standup B";
               Sample.row "e3" "Standup C"; Sample.row "e4" "Lunch"] in
  let w := Sample.flaky_world rows in
  let st := (syncAndDeleteEventsBySql (Sample.sweep ["standup"]) Sample.calenv
               (Sample.clock 1000) initial).1 in
  let st' := resume Sample.wf_sweep w (Sample.clock 2000) st in
  exists job job',
    suspended st !! Sample.wf_sweep
    = Some (AwaitSql (Some "me@example.org") Sample.work Sample.monday Sample.next_monday
              (Some ["standup"]))
    /\ workflowJobs st !! Sample.wf_sweep = Some job
    /\ workflowJobs st' !! Sample.wf_sweep = Some job'
    /\ wj_status job' = WfDone
    /\ wj_result job'
       = Some (ResultDelete 3 2 1
                 [("e1", Some "Standup A"); ("e2", Some "Standup B");
                  ("e3", Some "Standup C")]).
Proof.
  intros rows w st st'.
  assert (Hk : suspended st !! Sample.wf_sweep
               = Some (AwaitSql (Some "me@example.org") Sample.work Sample.monday
                         Sample.next_monday (Some ["standup"])))
    by (vm_compute; reflexivity).
  destruct (workflowJobs st !! Sample.wf_sweep) as [job|] eqn:Hjob;
    [|vm_compute in Hjob; discriminate Hjob].
  destruct (sql_delete_isolates_candidate_failures Sample.wf_sweep _ _ _ _ _ w
              (Sample.clock 2000) st job Hk Hjob)
    as (job' & Hj' & _ & Hok & _).
  destruct (Hok eq_refl eq_refl) as (Hres & _ & _ & Hdone).
  exists job, job'. split; [exact Hk|]. split; [reflexivity|]. split; [exact Hj'|].
  split; [exact (Hdone eq_refl)|]. exact Hres.
Defined.

(** ** Validation of the time window *)

Lemma malformed_range env s e :
  malformed_window env s e ->
  makeTimedRange (nativeTime env) s e = RangeNull
  \/ makeTimedRange (nativeTime env) s e = RangeError "end must be after start".
Proof.
  unfold malformed_window, makeTimedRange.
  destruct (parseDateTimeLocal s) as [ps|]; [|now left].
  destruct (parseDateTimeLocal e) as [pe|]; [|now left].
  intros H. right. apply Z.leb_le in H. now rewrite H.
Qed.

(** C8 as stated fails: a bound whose digits name no wall-clock time (month
    13, day 45, 99:99) matches the pattern; its fields are written as they
    are, the request is accepted and a workflow is registered. *)
Lemma out_of_range_time_is_accepted :
  let args := {| d_tbsyncUser := Some "me@example.org"; d_calendarName := Some "Work";
                 d_calendarId := None; d_start := Some "2026-13-45T99:99";
                 d_end := Some "2027-06-01T00:00";
                 d_titleMustContainAll := Some ["standup"] |} in
  let req := syncAndDeleteEventsBySql args Sample.calenv (Sample.clock 1000) initial in
  parseDateTimeLocal (d_start args)
  = Some {| ldt_y := 2026; ldt_mo := 13; ldt_d := 45; ldt_hh := 99; ldt_mm := 99 |}
  /\ spec_malformed_window Sample.calenv (d_start args) (d_end args)
  /\ ~ malformed_window Sample.calenv (d_start args) (d_end args)
  /\ req.2 = Returned (DelStarted Sample.wf_sweep)
  /\ (wj_status <$> workflowJobs req.1 !! Sample.wf_sweep) = Some Running
  /\ req.1 <> initial.
Proof.
  cbv zeta. split; [vm_compute; reflexivity|].
  split; [vm_compute; now left|].
  split; [vm_compute; intros H; now apply H|].
  split; [vm_compute; reflexivity|].
  split; [vm_compute; reflexivity|].
  intros H. apply (f_equal workflowSeq) in H. vm_compute in H. discriminate H.
Qed.

(** C8 (amended): a bulk-delete request whose window is malformed, that is,
    one with a bound that does not match the pattern YYYY-MM-DD, T or white
    space, HH:MM, or with an end that is not after the start, fails before
    it returns: the server's state is left as it was (no workflow job, no
    continuation, no outgoing call), the reply is never "started", it is an
    error reply whenever the calendar module is there, and for a request
    that is valid otherwise it is the error of the time window. *)
Theorem malformed_window_fails_synchronously (args : DeleteArgs) (env : CalEnv)
  (clk : Clock) (st : State) :
  malformed_window env (d_start args) (d_end args) ->
  (syncAndDeleteEventsBySql args env clk st).1 = st
  /\ (forall wf, (syncAndDeleteEventsBySql args env clk st).2 <> Returned (DelStarted wf))
  /\ (cal_available env = true ->
      exists msg, (syncAndDeleteEventsBySql args env clk st).2 = Returned (DelError msg))
  /\ (forall target,
        Js.truthy (d_tbsyncUser args) = true ->
        Js.truthy (d_start args) = true -> Js.truthy (d_end args) = true ->
        cal_available env = true ->
        resolveCalendar (calendars env) (d_calendarName args) (d_calendarId args)
        = Some target ->
        cal_readOnly target = false ->
        (syncAndDeleteEventsBySql args env clk st).2
        = Returned (DelError (invalidDatetime (d_start args) (d_end args)))
        \/ (syncAndDeleteEventsBySql args env clk st).2
           = Returned (DelError "end must be after start")).
Proof.
  intros Hbad. apply malformed_range in Hbad.
  unfold syncAndDeleteEventsBySql.
  destruct (Js.truthy (d_tbsyncUser args)); cbn [negb];
    [|repeat split; try discriminate; eauto].
  destruct (Js.truthy (d_start args)); cbn [negb orb];
    [|repeat split; try discriminate; eauto].
  destruct (Js.truthy (d_end args)); cbn [negb];
    [|repeat split; try discriminate; eauto].
  destruct (cal_available env); cbn [negb];
    [|repeat split; try discriminate; eauto].
  destruct (resolveCalendar _ _ _) as [target|];
    [|repeat split; try discriminate; eauto].
  destruct (cal_readOnly target) eqn:Hro.
  { repeat split; try discriminate; eauto.
    intros t _ _ _ _ [= <-]. congruence. }
  destruct Hbad as [-> | ->]; repeat split; try discriminate; eauto.
Qed.

Lemma malformed_window_fails_synchronously_witness :
  let args := {| d_tbsyncUser := Some "me@example.org"; d_calendarName := Some "Work";
                 d_calendarId := None; d_start := Some "next tuesday";
                 d_end := Some "2026-02-09T00:00";
                 d_titleMustContainAll := Some ["standup"] |} in
  malformed_window Sample.calenv (d_start args) (d_end args)
  /\ syncAndDeleteEventsBySql args Sample.calenv (Sample.clock 1000) initial
     = (initial,
        Returned (DelError "Invalid datetime format (expected YYYY-MM-DDTHH:MM): start=next tuesday end=2026-02-09T00:00")).
Proof.
  intros args.
  assert (H : malformed_window Sample.calenv (d_start args) (d_end args))
    by (vm_compute; exact I).
  destruct (malformed_window_fails_synchronously args Sample.calenv (Sample.clock 1000)
              initial H) as (Hst & _ & _ & Hmsg).
  split; [exact H|].
  destruct (Hmsg Sample.work eq_refl eq_refl eq_refl eq_refl eq_refl eq_refl) as [Hr|Hr].
  - rewrite (surjective_pairing (syncAndDeleteEventsBySql _ _ _ _)), Hst, Hr.
    reflexivity.
  - vm_compute in Hr. discriminate Hr.
Defined.

(** ** Bulk deletes: who is a candidate *)

Section Candidates.

Implicit Types (st : State) (env : CalEnv) (args : DeleteArgs).

(** A request that passes every check starts a workflow, whatever its
    list of substrings is. *)
Lemma delete_request_starts args env clk st target rs re :
  Js.truthy (d_tbsyncUser args) = true ->
  Js.truthy (d_start args) = true -> Js.truthy (d_end args) = true ->
  cal_available env = true ->
  resolveCalendar (calendars env) (d_calendarName args) (d_calendarId args)
  = Some target ->
  cal_readOnly target = false ->
  makeTimedRange (nativeTime env) (d_start args) (d_end args) = Range rs re ->
  let wf := (clk 0, S (workflowSeq st)) in
  let st1 := (syncAndDeleteEventsBySql args env clk st).1 in
  (syncAndDeleteEventsBySql args env clk st).2 = Returned (DelStarted wf)
  /\ suspended st1 !! wf
     = Some (AwaitSql (d_tbsyncUser args) target rs re (d_titleMustContainAll args))
  /\ (exists job, workflowJobs st1 !! wf = Some job /\ wj_status job = Running
                  /\ wj_steps job = ["querySql"])
  /\ effects st1 = effects st.
Proof.
  intros Hu Hs He Hc Ht Hro Hr wf st1. subst st1 wf.
  unfold syncAndDeleteEventsBySql.
  rewrite Hu, Hs, He, Hc, Ht, Hro, Hr. cbn [negb orb fst snd newWorkflowJobId].
  unfold with_suspended, with_workflowJobs, with_workflowSeq.
  cbn [suspended workflowJobs effects workflowSeq]. rewrite !lookup_insert_eq.
  repeat split. eexists. repeat split.
Qed.

Lemma resume_sql wf user target rs re needles w clk st :
  suspended st !! wf = Some (AwaitSql user target rs re needles) ->
  resume wf w clk st = runSqlDelete wf user target rs re needles w clk st.
Proof. intros H. unfold resume. now rewrite H. Qed.

Lemma no_keywords_whole_window env target rs re needles table :
  keywords needles = [] ->
  selectCandidates (whereClauses env target rs re needles) table
  = (fun r => (row_id r, row_title r)) <$> List.filter (in_window env target rs re) table.
Proof.
  intros Hk. unfold selectCandidates, whereClauses.
  rewrite keywordClauses_keywords, Hk. cbn [fmap list_fmap forallb].
  f_equal. apply List.filter_ext. intros r.
  unfold in_window, spec_within. cbn [holds]. now rewrite andb_true_r.
Qed.

Lemma keywords_select_matches env target rs re needles table :
  forallb plain (keywords needles) = true ->
  length (selectCandidates (whereClauses env target rs re needles) table)
  = length (List.filter (row_matches (keywords needles) env target rs re) table).
Proof.
  intros Hp. rewrite selectCandidates_length. f_equal.
  apply List.filter_ext. intros r. unfold row_matches.
  now apply where_clauses_select.
Qed.

Lemma scanItems_count needles s e items : forall m d,
  (forall it, In it items -> ni_delete_throws it = None) ->
  scanItems needles s e items m d
  = (m + length (List.filter (item_matches (keywords needles) s e) items),
     d + length (List.filter (item_matches (keywords needles) s e) items), None).
Proof.
  induction items as [|it rest IH]; intros m d Hok; cbn [scanItems List.filter].
  - cbn [length]. now rewrite !Nat.add_0_r.
  - assert (Hm : item_matches (keywords needles) s e it
                 = containsAll (ni_title it) needles
                   && clampDateTimeToRange (ni_start it) s e)
      by (unfold item_matches; now rewrite containsAll_keywords).
    rewrite Hm.
    assert (Hrest : forall it', In it' rest -> ni_delete_throws it' = None)
      by (intros; apply Hok; now right).
    destruct (containsAll (ni_title it) needles); cbn [negb andb]; [|now apply IH].
    destruct (clampDateTimeToRange (ni_start it) s e); cbn [negb]; [|now apply IH].
    rewrite (Hok it (or_introl eq_refl)), IH by assumption.
    cbn [length]. now rewrite !Nat.add_succ_comm.
Qed.

Lemma scanFolders_matched needles s e folders : forall acc,
  (forall f it, In f folders -> In it (folder_items f) -> ni_delete_throws it = None) ->
  matched (scanFolders needles s e folders acc)
  = matched acc
    + length (List.filter (item_matches (keywords needles) s e)
                (flat_map folder_items folders)).
Proof.
  induction folders as [|f rest IH]; intros acc Hok; cbn [scanFolders flat_map].
  - cbn [List.filter length]. lia.
  - rewrite IH by (intros; eapply Hok; [right|]; eassumption).
    rewrite List.filter_app, length_app.
    assert (Hf : forall it, In it (folder_items f) -> ni_delete_throws it = None)
      by (intros; eapply Hok; [left; reflexivity | assumption]).
    unfold folder_items in *. destruct (f_items f) as [ex| |items]; cbn [matched].
    + cbn [List.filter length]. lia.
    + cbn [List.filter length]. lia.
    + rewrite scanItems_count by assumption. cbn [matched]. lia.
Qed.

End Candidates.

(** C3 as stated fails: a bulk delete with an empty list of substrings is
    accepted, every event of the calendar in the window is a candidate, and
    a delete leaves for each of them. *)
Lemma empty_filter_is_accepted :
  let first := syncAndDeleteEventsBySql (Sample.sweep []) Sample.calenv
                 (Sample.clock 1000) initial in
  let w := Sample.world_with [Sample.row "e1" "Lunch"; Sample.row "e2" "Standup"] in
  let st' := resume Sample.wf_sweep w (Sample.clock 2000) first.1 in
  first.2 = Returned (DelStarted Sample.wf_sweep)
  /\ (wj_result <$> workflowJobs st' !! Sample.wf_sweep)
     = Some (Some (ResultDelete 2 2 0 [("e1", Some "Lunch"); ("e2", Some "Standup")]))
  /\ List.filter is_delete (effects st')
     = [ProviderDeleteItem "cal-1" "e1"; ProviderDeleteItem "cal-1" "e2"].
Proof. vm_compute. repeat split. Qed.

(** C3 (amended): a bulk-delete request whose list of substrings is empty
    (or holds blank entries only) and which is valid otherwise is accepted
    and starts a workflow; the list adds no condition to the query, so every
    event of the target calendar that starts in the window is a candidate,
    and a delete is dispatched for each candidate. *)
Theorem empty_filter_selects_whole_window (args : DeleteArgs) (env : CalEnv)
  (clk : Clock) (st : State) (target : Calendar) (rs re : DateTime) :
  keywords (d_titleMustContainAll args) = [] ->
  Js.truthy (d_tbsyncUser args) = true ->
  Js.truthy (d_start args) = true -> Js.truthy (d_end args) = true ->
  cal_available env = true ->
  resolveCalendar (calendars env) (d_calendarName args) (d_calendarId args) = Some target ->
  cal_readOnly target = false ->
  makeTimedRange (nativeTime env) (d_start args) (d_end args) = Range rs re ->
  let wf := (clk 0, S (workflowSeq st)) in
  let st1 := (syncAndDeleteEventsBySql args env clk st).1 in
  (syncAndDeleteEventsBySql args env clk st).2 = Returned (DelStarted wf)
  /\ forall (w : World) (clk' : Clock),
       open_throws (w_sql w) = None -> execute_throws (w_sql w) = None ->
       let window := List.filter (in_window (w_cal w) target rs re) (cal_events (w_sql w)) in
       let ids := (fun r => (row_id r, row_title r)) <$> window in
       let sent := dispatched (w_cal w) 0 ids in
       exists job',
         workflowJobs (resume wf w clk' st1) !! wf = Some job'
         /\ wj_result job'
            = Some (ResultDelete (length window) (length sent) (length window - length sent)
                      (firstn 10 ids))
         /\ List.filter is_delete (effects (resume wf w clk' st1))
            = List.filter is_delete (effects st) ++ delete_calls target sent.
Proof.
  intros Hk Hu Hs He Hc Ht Hro Hr wf st1.
  destruct (delete_request_starts args env clk st target rs re Hu Hs He Hc Ht Hro Hr)
    as (Hresp & Hsusp & (job & Hjob & _) & Heff).
  fold st1 in Hsusp, Hjob, Heff. fold wf in Hresp, Hsusp, Hjob.
  split; [exact Hresp|].
  intros w clk' Ho Hx window ids sent.
  destruct (sql_query_ok wf (d_tbsyncUser args) target rs re (d_titleMustContainAll args)
              w clk' st1 job Hjob Ho Hx) as (job' & Hj' & Hres & Hdel & _).
  rewrite (no_keywords_whole_window _ _ _ _ _ _ Hk) in Hres, Hdel.
  fold window in Hres, Hdel. fold ids in Hres, Hdel. fold sent in Hres, Hdel.
  exists job'.
  rewrite (resume_sql wf _ _ _ _ _ w clk' st1 Hsusp).
  split; [exact Hj'|]. split.
  - rewrite Hres. subst ids. now rewrite length_fmap.
  - now rewrite Hdel, Heff.
Qed.

Lemma empty_filter_selects_whole_window_witness :
  let args := Sample.sweep ["  "] in
  let w := Sample.world_with [Sample.row "e1" "Lunch"; Sample.row "e2" "Standup"] in
  keywords (d_titleMustContainAll args) = []
  /\ Js.truthy (d_tbsyncUser args) = true
  /\ Js.truthy (d_start args) = true /\ Js.truthy (d_end args) = true
  /\ cal_available Sample.calenv = true
  /\ resolveCalendar (calendars Sample.calenv) (d_calendarName args) (d_calendarId args)
     = Some Sample.work
  /\ cal_readOnly Sample.work = false
  /\ makeTimedRange (nativeTime Sample.calenv) (d_start args) (d_end args)
     = Range Sample.monday Sample.next_monday
  /\ (syncAndDeleteEventsBySql args Sample.calenv (Sample.clock 1000) initial).2
     = Returned (DelStarted Sample.wf_sweep)
  /\ exists job',
       workflowJobs
         (resume Sample.wf_sweep w (Sample.clock 2000)
            (syncAndDeleteEventsBySql args Sample.calenv (Sample.clock 1000) initial).1)
         !! Sample.wf_sweep = Some job'
       /\ wj_result job'
          = Some (ResultDelete 2 2 0 [("e1", Some "Lunch"); ("e2", Some "Standup")]).
Proof.
  intros args w.
  assert (H1 : keywords (d_titleMustContainAll args) = []) by reflexivity.
  assert (H8 : makeTimedRange (nativeTime Sample.calenv) (d_start args) (d_end args)
               = Range Sample.monday Sample.next_monday) by reflexivity.
  destruct (empty_filter_selects_whole_window args Sample.calenv (Sample.clock 1000)
              initial Sample.work Sample.monday Sample.next_monday
              H1 eq_refl eq_refl eq_refl eq_refl eq_refl eq_refl H8) as (Hresp & Hrun).
  destruct (Hrun w (Sample.clock 2000) eq_refl eq_refl) as (job' & Hj & Hres & _).
  do 8 (split; [reflexivity|]). split; [exact Hresp|].
  exists job'. split; [exact Hj|exact Hres].
Defined.

(** C2 as stated fails: substrings are trimmed before they are looked for,
    so [" a"] counts the title "ab", which does not contain it; both the
    item-list delete and the SQL delete report one match where the
    specification's reading finds none. *)
Lemma matched_counts_trimmed_substrings :
  let needles := [" a"] in
  let items := [Sample.item "ab"] in
  let rows := [Sample.row "e1" "ab"] in
  let st := (syncAndDeleteEventsBySql (Sample.sweep needles) Sample.calenv
               (Sample.clock 1000) initial).1 in
  (matched <$> match tbsyncDeleteEasEventsByTitleRange (Sample.sweep needles)
                       Sample.calenv (Sample.tbsync_with items) with
               | Returned (inr reply) => Some reply
               | _ => None
               end) = Some 1
  /\ length (List.filter
               (spec_item_matches needles (jsTime Sample.calenv Sample.monday)
                  (jsTime Sample.calenv Sample.next_monday)) items) = 0
  /\ (wj_result <$> workflowJobs
                      (resume Sample.wf_sweep (Sample.world_with rows) (Sample.clock 2000) st)
                      !! Sample.wf_sweep)
     = Some (Some (ResultDelete 1 1 0 [("e1", Some "ab")]))
  /\ length (List.filter
               (spec_row_matches needles Sample.calenv Sample.work Sample.monday
                  Sample.next_monday) rows) = 0.
Proof. vm_compute. repeat split. Qed.

(** C2 (amended): the reported count of matches is the number of items of
    the target calendar whose start lies in [start, end) and whose title
    contains, without regard to case, every required substring after
    trimming, blank substrings being ignored.  For the SQL workflow this
    holds when no substring contains the [LIKE] wildcards [%] and [_]; for
    the delete through TbSync's item list it holds when no delete raises. *)
Theorem matched_counts_keyword_matches_in_window :
  (forall (wf : JobId) (user : option string) (target : Calendar) (rs re : DateTime)
          (needles : option (list string)) (w : World) (clk : Clock) (st : State)
          (job : WorkflowJob),
      suspended st !! wf = Some (AwaitSql user target rs re needles) ->
      workflowJobs st !! wf = Some job ->
      open_throws (w_sql w) = None -> execute_throws (w_sql w) = None ->
      forallb plain (keywords needles) = true ->
      exists job' n t e sample,
        workflowJobs (resume wf w clk st) !! wf = Some job'
        /\ wj_result job' = Some (ResultDelete n t e sample)
        /\ n = length (List.filter (row_matches (keywords needles) (w_cal w) target rs re)
                         (cal_events (w_sql w))))
  /\ (forall (args : DeleteArgs) (env : CalEnv) (tb : TbSyncEnv) (target : Calendar)
             (rs re : DateTime) (reply : BulkReply),
        resolveCalendar (calendars env) (d_calendarName args) (d_calendarId args)
        = Some target ->
        makeTimedRange (nativeTime env) (d_start args) (d_end args) = Range rs re ->
        tbsyncDeleteEasEventsByTitleRange args env tb = Returned (inr reply) ->
        (forall f it, In f (matchingFolders tb target) -> In it (folder_items f) ->
                      ni_delete_throws it = None) ->
        matched reply
        = length (List.filter
                    (item_matches (keywords (d_titleMustContainAll args))
                       (jsTime env rs) (jsTime env re))
                    (flat_map folder_items (matchingFolders tb target)))).
Proof.
  split.
  - intros wf user target rs re needles w clk st job Hk Hjob Ho Hx Hplain.
    destruct (sql_query_ok wf user target rs re needles w clk st job Hjob Ho Hx)
      as (job' & Hj' & Hres & _).
    exists job'. do 4 eexists. unfold resume. rewrite Hk.
    split; [exact Hj'|]. split; [exact Hres|].
    now apply keywords_select_matches.
  - intros args env tb target rs re reply Ht Hr Hreply Hok.
    unfold tbsyncDeleteEasEventsByTitleRange in Hreply. rewrite Ht, Hr in Hreply.
    destruct (negb (Js.truthy (d_tbsyncUser args))); [discriminate|].
    destruct (negb (Js.truthy (d_start args)) || negb (Js.truthy (d_end args)));
      [discriminate|].
    destruct (negb (cal_available env)); [discriminate|].
    destruct (getTbSyncModule tb); [|discriminate].
    injection Hreply as <-.
    now rewrite scanFolders_matched.
Qed.

Lemma matched_counts_keyword_matches_in_window_witness :
  let needles := ["Stand "] in
  let rows := [Sample.row "e1" "Daily STANDUP"; Sample.row "e2" "Lunch"] in
  let items := [Sample.item "Daily STANDUP"; Sample.item "Lunch"] in
  let st := (syncAndDeleteEventsBySql (Sample.sweep needles) Sample.calenv
               (Sample.clock 1000) initial).1 in
  let st' := resume Sample.wf_sweep (Sample.world_with rows) (Sample.clock 2000) st in
  forallb plain (keywords (Some needles)) = true
  /\ (exists job' t e sample,
        workflowJobs st' !! Sample.wf_sweep = Some job'
        /\ wj_result job' = Some (ResultDelete 1 t e sample))
  /\ exists reply,
       tbsyncDeleteEasEventsByTitleRange (Sample.sweep needles) Sample.calenv
         (Sample.tbsync_with items) = Returned (inr reply)
       /\ matched reply = 1.
Proof.
  intros needles rows items st st'.
  destruct matched_counts_keyword_matches_in_window as [Hsql Htb].
  assert (Hp : forallb plain (keywords (Some needles)) = true) by reflexivity.
  split; [exact Hp|]. split.
  - destruct (workflowJobs st !! Sample.wf_sweep) as [job|] eqn:Hjob;
      [|vm_compute in Hjob; discriminate Hjob].
    destruct (Hsql Sample.wf_sweep (Some "me@example.org") Sample.work Sample.monday
                Sample.next_monday (Some needles) (Sample.world_with rows)
                (Sample.clock 2000) st job) as (job' & n & t & e & sample & Hj & Hres & Hn);
      try reflexivity; try assumption.
    exists job', t, e, sample. split; [exact Hj|]. rewrite Hres, Hn. reflexivity.
  - eexists. split; [reflexivity|].
    apply (Htb (Sample.sweep needles) Sample.calenv (Sample.tbsync_with items)
             Sample.work Sample.monday Sample.next_monday); try reflexivity.
    intros f it [<-|[]] [<-|[<-|[]]]; reflexivity.
Defined.

(** ** The counter of workflow ids *)

Lemma ids_issued_initial : ids_issued initial.
Proof. apply map_Forall_empty. Qed.

Lemma ids_issued_resume (wf : JobId) (w : World) (clk : Clock) (st : State) :
  ids_issued st -> ids_issued (resume wf w clk st).
Proof.
  unfold ids_issued. rewrite !map_Forall_lookup. intros H id job Hjob.
  rewrite resume_workflowSeq.
  destruct (proj1 (resume_jobs_dom wf w clk st id) (mk_is_Some _ _ Hjob)) as [job0 H0].
  exact (H id job0 H0).
Qed.

Lemma ids_issued_create_request (args : CreateArgs) (clk : Clock) (st : State) :
  ids_issued st -> ids_issued (syncAndCreateCalendarEvent args clk st).1.
Proof.
  intros H. destruct (Js.truthy (tbsyncUser args)) eqn:Hu.
  2:{ unfold syncAndCreateCalendarEvent. now rewrite Hu. }
  destruct (idempotency (cleanupIdempotency (clk 0) st) !! fingerprint args)
    as [e|] eqn:Hk.
  - now rewrite (request_suppressed _ _ _ e).
  - rewrite request_starts by assumption. unfold ids_issued, started_state in *.
    cbn [fst workflowJobs workflowSeq]. apply map_Forall_insert_2; [simpl; lia|].
    eapply map_Forall_impl; [exact H|]. simpl. intros. lia.
Qed.

Lemma ids_issued_delete_request (args : DeleteArgs) (env : CalEnv) (clk : Clock)
  (st : State) :
  ids_issued st -> ids_issued (syncAndDeleteEventsBySql args env clk st).1.
Proof.
  intros H. unfold syncAndDeleteEventsBySql.
  destruct (negb (Js.truthy (d_tbsyncUser args))); [exact H|].
  destruct (negb (Js.truthy (d_start args)) || negb (Js.truthy (d_end args))); [exact H|].
  destruct (negb (cal_available env)); [exact H|].
  destruct (resolveCalendar _ _ _) as [target|]; [|exact H].
  destruct (cal_readOnly target); [exact H|].
  destruct (makeTimedRange _ _ _) as [|msg|rs re]; [exact H | exact H |].
  unfold ids_issued in *. cbn [fst newWorkflowJobId].
  unfold with_suspended, with_workflowJobs, with_workflowSeq.
  cbn [workflowJobs workflowSeq].
  apply map_Forall_insert_2; [simpl; lia|].
  eapply map_Forall_impl; [exact H|]. simpl. intros. lia.
Qed.

(** Every state the server reaches from the initial one satisfies the
    hypothesis [ids_issued] of the cache theorems. *)
Lemma ids_issued_run (evs : list Event) : forall st : State,
  ids_issued st -> ids_issued (run evs st).
Proof.
  induction evs as [|ev rest IH]; intros st H; simpl; [exact H|].
  apply IH. destruct ev as [wf w clk|args clk|args env clk]; cbn [step].
  - now apply ids_issued_resume.
  - now apply ids_issued_create_request.
  - now apply ids_issued_delete_request.
Qed.

(** * Properties of the rest of the server *)

Section MoreStrings.

Implicit Types (s t : string) (c : ascii) (p : ascii -> bool).

Lemma removeChars_clean p s :
  all_chars (fun c => negb (p c)) (Js.removeChars p s) = true.
Proof.
  induction s as [|c r IH]; simpl; [reflexivity|].
  destruct (p c) eqn:E; simpl; [exact IH | now rewrite E, IH].
Qed.

Lemma removeChars_fixed p s :
  all_chars (fun c => negb (p c)) s = true -> Js.removeChars p s = s.
Proof.
  induction s as [|c r IH]; simpl; [reflexivity|].
  intros H. apply andb_true_iff in H as [Hc Hr].
  apply negb_true_iff in Hc. now rewrite Hc, IH.
Qed.

Lemma removeChars_app p s t :
  Js.removeChars p (s +:+ t) = Js.removeChars p s +:+ Js.removeChars p t.
Proof.
  induction s as [|c r IH]; simpl; [reflexivity|].
  rewrite IH. now destruct (p c).
Qed.

End MoreStrings.

(** X1: [sanitizeForJson] leaves none of the control characters it strips,
    so applying it again changes nothing; a text without them comes back
    as it was, and the text of two parts is the two sanitized parts, one
    after the other. *)
Theorem sanitizeForJson_strips_once (text : option string) :
  all_chars is_kept (Js.orEmpty (sanitizeForJson text)) = true
  /\ sanitizeForJson (sanitizeForJson text) = sanitizeForJson text
  /\ (all_chars is_kept (Js.orEmpty text) = true -> sanitizeForJson text = text)
  /\ forall s t : string,
       sanitizeForJson (Some (s +:+ t))
       = Some (Js.orEmpty (sanitizeForJson (Some s)) +:+ Js.orEmpty (sanitizeForJson (Some t))).
Proof.
  assert (Hsome : forall s, sanitizeForJson (Some s) = Some (Js.removeChars is_stripped s)).
  { intros s. unfold sanitizeForJson. simpl. destruct s; reflexivity. }
  repeat split.
  - destruct text as [s|]; [|reflexivity]. rewrite Hsome. apply removeChars_clean.
  - destruct text as [s|]; [|reflexivity]. rewrite !Hsome.
    f_equal. apply removeChars_fixed, removeChars_clean.
  - destruct text as [s|]; [|reflexivity]. simpl. intros H.
    rewrite Hsome. f_equal. now apply removeChars_fixed.
  - intros s t. rewrite !Hsome. simpl. now rewrite removeChars_app.
Qed.

Section MoreTrim.

Implicit Types (s t ws : string) (c : ascii).

Lemma ltrim_spaces ws : all_chars Js.is_space ws = true -> Js.ltrim ws = "".
Proof.
  induction ws as [|c r IH]; simpl; [reflexivity|].
  intros H. apply andb_true_iff in H as [Hc Hr]. now rewrite Hc, IH.
Qed.

Lemma rtrim_spaces ws : all_chars Js.is_space ws = true -> Js.rtrim ws = "".
Proof.
  induction ws as [|c r IH]; simpl; [reflexivity|].
  intros H. apply andb_true_iff in H as [Hc Hr]. now rewrite IH, Hc.
Qed.

Lemma ltrim_app s t :
  Js.ltrim (s +:+ t) = match Js.ltrim s with
                       | EmptyString => Js.ltrim t
                       | String c r => String c r +:+ t
                       end.
Proof.
  induction s as [|c r IH]; simpl; [reflexivity|].
  now destruct (Js.is_space c).
Qed.

Lemma rtrim_app_spaces s ws :
  all_chars Js.is_space ws = true -> Js.rtrim (s +:+ ws) = Js.rtrim s.
Proof.
  intros H. induction s as [|c r IH]; simpl; [now apply rtrim_spaces|].
  now rewrite IH.
Qed.

(** White space around a text is lost on [trim]. *)
Lemma trim_padded ws1 s ws2 :
  all_chars Js.is_space ws1 = true -> all_chars Js.is_space ws2 = true ->
  Js.trim (ws1 +:+ s +:+ ws2) = Js.trim s.
Proof.
  intros H1 H2. unfold Js.trim.
  rewrite ltrim_app, ltrim_spaces by assumption.
  rewrite ltrim_app. destruct (Js.ltrim s) as [|c r].
  - now rewrite ltrim_spaces.
  - now apply rtrim_app_spaces.
Qed.

Lemma rtrim_cons c s :
  Js.is_space c = false -> Js.rtrim (String c s) = String c (Js.rtrim s).
Proof. intros H. simpl. rewrite H. now destruct (Js.rtrim s). Qed.

Lemma toLowerCase_app s t :
  Js.toLowerCase (s +:+ t) = Js.toLowerCase s +:+ Js.toLowerCase t.
Proof. induction s as [|c r IH]; simpl; [reflexivity | now rewrite IH]. Qed.

Lemma toLowerCase_idem s : Js.toLowerCase (Js.toLowerCase s) = Js.toLowerCase s.
Proof.
  induction s as [|c r IH]; simpl; [reflexivity|].
  now rewrite lower_char_idem, IH.
Qed.

Lemma lower_char_space c : Js.is_space (Js.lower_char c) = Js.is_space c.
Proof. destruct c as [[] [] [] [] [] [] [] []]; reflexivity. Qed.

Lemma toLowerCase_spaces ws :
  all_chars Js.is_space ws = true -> all_chars Js.is_space (Js.toLowerCase ws) = true.
Proof.
  induction ws as [|c r IH]; simpl; [reflexivity|].
  intros H. apply andb_true_iff in H as [Hc Hr].
  now rewrite lower_char_space, Hc, IH.
Qed.

Lemma prefix_append s t : String.prefix s (s +:+ t) = true.
Proof.
  induction s as [|c r IH]; simpl; [now destruct t|].
  destruct (ascii_dec c c); [exact IH | congruence].
Qed.

End MoreTrim.

Lemma withTagAtEnd_tagged (title tag : option string) :
  Js.trim (Js.orEmpty tag) <> "" ->
  Js.endsWith (withTagAtEnd title tag) ("(" +:+ Js.trim (Js.orEmpty tag) +:+ ")") = true
  /\ (withTagAtEnd title tag = Js.trim (Js.orEmpty title)
      \/ withTagAtEnd title tag
         = Js.trim (Js.orEmpty title) +:+ " (" +:+ Js.trim (Js.orEmpty tag) +:+ ")").
Proof.
  intros Ht. unfold withTagAtEnd.
  destruct (String.eqb_spec (Js.trim (Js.orEmpty tag)) "") as [E|_]; [contradiction|].
  destruct (Js.endsWith (Js.trim (Js.orEmpty title)) _) eqn:E; [auto|].
  split; [apply endsWith_tagged | now right].
Qed.

(** X2: the result of [withTagAtEnd] begins with the trimmed title; with a
    blank tag it is the trimmed title, and with any other tag it ends with
    the trimmed tag in parentheses, being the trimmed title as it stood or
    the trimmed title, a space and the parenthesised tag. *)
Theorem withTagAtEnd_closes_title (title tag : option string) :
  let base := Js.trim (Js.orEmpty title) in
  let t := Js.trim (Js.orEmpty tag) in
  String.prefix base (withTagAtEnd title tag) = true
  /\ (t = "" -> withTagAtEnd title tag = base)
  /\ (t <> "" -> Js.endsWith (withTagAtEnd title tag) ("(" +:+ t +:+ ")") = true
                 /\ (withTagAtEnd title tag = base
                     \/ withTagAtEnd title tag = base +:+ " (" +:+ t +:+ ")")).
Proof.
  intros base t. split; [|split].
  - unfold withTagAtEnd. fold base t.
    destruct (String.eqb t ""); [|destruct (Js.endsWith _ _)];
      try apply prefix_append;
      rewrite <- (append_empty_r base) at 2; apply prefix_append.
  - intros Ht. unfold withTagAtEnd. fold t. now rewrite Ht.
  - apply withTagAtEnd_tagged.
Qed.

Lemma shortTag_starts_mcp (a : option bool) (d s e : option string) :
  exists rest, shortTagForEvent a d s e = "mcp" +:+ rest.
Proof.
  unfold shortTagForEvent.
  destruct (default false a && Js.truthy d); [eexists; reflexivity|].
  destruct (negb (default false a) && Js.truthy s && Js.truthy e);
    [eexists; reflexivity | now exists ""].
Qed.

Lemma trim_mcp (rest : string) : Js.trim ("mcp" +:+ rest) = "mcp" +:+ Js.rtrim rest.
Proof.
  unfold Js.trim. rewrite ltrim_fixed by reflexivity.
  cbn [String.append]. now rewrite !rtrim_cons by reflexivity.
Qed.

(** X3: a request without [mcpTag] is given the tag of [shortTagForEvent],
    which begins with "mcp" and so is never blank, and the title the
    workflow carries ends with that tag in parentheses. *)
Theorem generated_tag_closes_title (args : CreateArgs) :
  Js.truthy (mcpTag args) = false ->
  let tag := shortTagForEvent (allDay args) (date args) (start args) (end_ args) in
  mcpTag (argsWithTag args) = Some tag
  /\ String.prefix "mcp" (Js.trim tag) = true
  /\ exists ttl, title (argsWithTag args) = Some ttl
                 /\ Js.endsWith ttl ("(" +:+ Js.trim tag +:+ ")") = true.
Proof.
  intros Hm tag. unfold argsWithTag, requestTag. rewrite Hm. fold tag.
  cbn [mcpTag title assignTagTitle].
  destruct (shortTag_starts_mcp (allDay args) (date args) (start args) (end_ args))
    as [rest Hrest]. fold tag in Hrest.
  assert (Htrim : Js.trim tag = "mcp" +:+ Js.rtrim rest) by (rewrite Hrest; apply trim_mcp).
  split; [reflexivity|]. split; [rewrite Htrim; apply prefix_append|].
  eexists. split; [reflexivity|].
  apply (withTagAtEnd_tagged (title args) (Some tag)).
  cbn [Js.orEmpty]. rewrite Htrim. discriminate.
Qed.

Lemma generated_tag_closes_title_witness :
  Js.truthy (mcpTag Sample.dentist) = false
  /\ mcpTag (argsWithTag Sample.dentist) = Some "mcp:20260204"
  /\ title (argsWithTag Sample.dentist) = Some "Dentist (mcp:20260204)".
Proof.
  assert (H : Js.truthy (mcpTag Sample.dentist) = false) by reflexivity.
  destruct (generated_tag_closes_title Sample.dentist H) as (Htag & _ & ttl & Httl & _).
  split; [exact H|]. split; [exact Htag | reflexivity].
Defined.

(** ** Parsing dates *)

Section ParseFacts.

Implicit Types (c : ascii) (s : string).

Lemma digit_val_range c : Js.is_digit c = true -> (0 <= digit_val c <= 9)%Z.
Proof. destruct c as [[] [] [] [] [] [] [] []]; vm_compute; intuition discriminate. Qed.

Lemma digit_not_space c : Js.is_digit c = true -> Js.is_space c = false.
Proof. destruct c as [[] [] [] [] [] [] [] []]; vm_compute; intuition discriminate. Qed.

Lemma digits_val_two a b :
  Js.is_digit a = true -> Js.is_digit b = true -> (0 <= digits_val [a; b] <= 99)%Z.
Proof.
  intros Ha Hb. apply digit_val_range in Ha, Hb. unfold digits_val; simpl. lia.
Qed.

Lemma digits_val_four a b c d :
  Js.is_digit a = true -> Js.is_digit b = true ->
  Js.is_digit c = true -> Js.is_digit d = true ->
  (0 <= digits_val [a; b; c; d] <= 9999)%Z.
Proof.
  intros Ha Hb Hc Hd. apply digit_val_range in Ha, Hb, Hc, Hd.
  unfold digits_val; simpl. lia.
Qed.

End ParseFacts.

(** X4: what [parseDateTimeLocal] accepts has sixteen characters once
    trimmed, and the fields it returns are a year from 0 to 9999 and a
    month, day, hour and minute from 0 to 99: digits are all it checks. *)
Theorem parseDateTimeLocal_fields (dtStr : option string) (p : LocalDateTime) :
  parseDateTimeLocal dtStr = Some p ->
  fields_in_range p /\ String.length (Js.trim (Js.orEmpty dtStr)) = 16.
Proof.
  unfold parseDateTimeLocal.
  rewrite <- (string_of_list_ascii_of_string (Js.trim (Js.orEmpty dtStr))) at 2.
  destruct (list_ascii_of_string (Js.trim (Js.orEmpty dtStr)))
    as [|y1 [|y2 [|y3 [|y4 [|d1 [|m1 [|m2 [|d2 [|a1 [|a2 [|sep [|h1 [|h2 [|col
        [|n1 [|n2 [|x rest]]]]]]]]]]]]]]]]]; try discriminate.
  destruct (forallb _ _ && _ && _ && _ && _) eqn:E; [|discriminate].
  intros [= <-].
  do 4 (apply andb_true_iff in E as [E _]).
  rewrite forallb_forall in E.
  split; [|reflexivity].
  unfold fields_in_range. cbn [ldt_y ldt_mo ldt_d ldt_hh ldt_mm].
  repeat split;
    first [apply digits_val_two | apply digits_val_four]; apply E; simpl; tauto.
Qed.

Lemma parseDateTimeLocal_fields_witness :
  parseDateTimeLocal (Some " 2026-13-45 99:99 ") = Some Demo.odd_time
  /\ fields_in_range Demo.odd_time.
Proof.
  assert (H : parseDateTimeLocal (Some " 2026-13-45 99:99 ") = Some Demo.odd_time)
    by reflexivity.
  split; [exact H | exact (proj1 (parseDateTimeLocal_fields _ _ H))].
Defined.

Section FormatFacts.

Lemma digit_char_spec (n : Z) :
  Js.is_digit (digit_char n) = true /\ digit_val (digit_char n) = (n mod 10)%Z.
Proof.
  unfold digit_char.
  assert (H : (0 <= n mod 10 < 10)%Z) by (apply Z.mod_pos_bound; lia).
  assert (Hc : (n mod 10 = 0 \/ n mod 10 = 1 \/ n mod 10 = 2 \/ n mod 10 = 3
               \/ n mod 10 = 4 \/ n mod 10 = 5 \/ n mod 10 = 6 \/ n mod 10 = 7
               \/ n mod 10 = 8 \/ n mod 10 = 9)%Z) by lia.
  destruct Hc as [->|[->|[->|[->|[->|[->|[->|[->|[->| ->]]]]]]]]]; split; reflexivity.
Qed.

Lemma digits_val_two_digits (n : Z) :
  (0 <= n <= 99)%Z -> digits_val [digit_char (n / 10); digit_char n] = n.
Proof.
  intros H. unfold digits_val; simpl.
  rewrite !(proj2 (digit_char_spec _)).
  rewrite (Z.mod_small (n / 10) 10) by (split; [apply Z.div_pos; lia | apply Z.div_lt_upper_bound; lia]).
  pose proof (Z.div_mod n 10). lia.
Qed.

Lemma digits_val_four_digits (n : Z) :
  (0 <= n <= 9999)%Z ->
  digits_val [digit_char (n / 1000); digit_char (n / 100); digit_char (n / 10); digit_char n]
  = n.
Proof.
  intros H. unfold digits_val; simpl.
  rewrite !(proj2 (digit_char_spec _)).
  rewrite (Z.mod_small (n / 1000) 10)
    by (split; [apply Z.div_pos; lia | apply Z.div_lt_upper_bound; lia]).
  replace (n / 100)%Z with (n / 10 / 10)%Z by (rewrite Z.div_div; [reflexivity|lia|lia]).
  replace (n / 1000)%Z with (n / 10 / 10 / 10)%Z
    by (rewrite !Z.div_div; [reflexivity|lia|lia|lia|lia]).
  pose proof (Z.div_mod n 10). pose proof (Z.div_mod (n / 10) 10).
  pose proof (Z.div_mod (n / 10 / 10) 10). lia.
Qed.

End FormatFacts.

(** X5: every such combination of fields is accepted: written as
    YYYY-MM-DD, a "T" or a white-space character, HH:MM, with any white
    space around it, it parses back to the same fields (a month 13 or an
    hour 99 included). *)
Theorem parseDateTimeLocal_formatLocal (sep : ascii) (p : LocalDateTime) (ws1 ws2 : string) :
  fields_in_range p ->
  sep = "T"%char \/ Js.is_space sep = true ->
  all_chars Js.is_space ws1 = true -> all_chars Js.is_space ws2 = true ->
  parseDateTimeLocal (Some (ws1 +:+ formatLocal sep p +:+ ws2)) = Some p.
Proof.
  intros (Hy & Hmo & Hd & Hh & Hm) Hsep H1 H2.
  unfold parseDateTimeLocal. cbn [Js.orEmpty]. rewrite trim_padded by assumption.
  assert (Hdig : forall n, Js.is_digit (digit_char n) = true)
    by (intros n; apply digit_char_spec).
  assert (Htrim : Js.trim (formatLocal sep p) = formatLocal sep p).
  { unfold Js.trim.
    rewrite ltrim_fixed by (apply digit_not_space, Hdig).
    unfold formatLocal, four_digits, two_digits. cbn [String.append].
    match goal with
    | |- Js.rtrim (String ?c1 (String ?c2 (String ?c3 (String ?c4 (String ?c5 (String ?c6
           (String ?c7 (String ?c8 (String ?c9 (String ?c10 (String ?c11 (String ?c12
           (String ?c13 (String ?c14 (String ?c15 (String ?c16 "")))))))))))))))) = _ =>
        apply (rtrim_snoc
                 (String c1 (String c2 (String c3 (String c4 (String c5 (String c6
                 (String c7 (String c8 (String c9 (String c10 (String c11 (String c12
                 (String c13 (String c14 (String c15 ""))))))))))))))) c16)
    end.
    apply digit_not_space, Hdig. }
  rewrite Htrim. unfold formatLocal, four_digits, two_digits.
  cbn [String.append list_ascii_of_string forallb].
  rewrite !Hdig. cbn [andb Ascii.eqb Bool.eqb].
  assert (Hs : (Ascii.eqb sep "T" || Js.is_space sep) = true).
  { destruct Hsep as [-> | ->]; [reflexivity | apply orb_true_r]. }
  rewrite Hs.
  rewrite digits_val_four_digits, !digits_val_two_digits by assumption.
  now destruct p.
Qed.

Lemma parseDateTimeLocal_formatLocal_witness :
  fields_in_range Demo.odd_time
  /\ formatLocal "T" Demo.odd_time = "2026-13-45T99:99"
  /\ parseDateTimeLocal (Some (" " +:+ formatLocal "T" Demo.odd_time +:+ "  "))
     = Some Demo.odd_time.
Proof.
  assert (H : fields_in_range Demo.odd_time)
    by (unfold fields_in_range, Demo.odd_time; simpl; lia).
  split; [exact H|]. split; [reflexivity|].
  exact (parseDateTimeLocal_formatLocal "T" Demo.odd_time " " "  " H
           (or_introl eq_refl) eq_refl eq_refl).
Defined.

Section YmdFacts.

Implicit Types (s : string) (c sep : ascii).

(** No part of a split text holds the separator. *)
Lemma split_parts_free sep s part :
  In part (Js.split sep s) ->
  all_chars (fun c => negb (Ascii.eqb c sep)) part = true.
Proof.
  revert part. induction s as [|c r IH]; intros part; simpl.
  - intros [<-|[]]. reflexivity.
  - destruct (Js.split sep r) as [|w ws]; [intros [<-|[]]; reflexivity|].
    destruct (Ascii.eqb c sep) eqn:E.
    + intros [<-|H]; [reflexivity | now apply IH].
    + intros [<-|H].
      * simpl. rewrite E. simpl. apply IH. now left.
      * apply IH. now right.
Qed.

Lemma digits_prefix_nonneg s : forall acc z,
  (forall a, acc = Some a -> (0 <= a)%Z) ->
  digits_prefix s acc = Some z -> (0 <= z)%Z.
Proof.
  induction s as [|c r IH]; intros acc z Hacc; simpl.
  - intros ->. now apply Hacc.
  - destruct (Js.is_digit c) eqn:E; [|intros ->; now apply Hacc].
    apply IH. intros a [= <-]. apply digit_val_range in E.
    destruct acc as [a0|]; simpl; [specialize (Hacc a0 eq_refl)|]; lia.
Qed.

(** Without a minus sign, [parseInt] gives no negative number. *)
Lemma parseInt10_nonneg s z :
  all_chars (fun c => negb (Ascii.eqb c "-")) s = true ->
  parseInt10 s = Some z -> (0 <= z)%Z.
Proof.
  intros Hfree. apply (ltrim_all_chars _ s) in Hfree.
  unfold parseInt10. destruct (Js.ltrim s) as [|c r].
  - discriminate.
  - simpl in Hfree. apply andb_true_iff in Hfree as [Hc _].
    destruct c as [[] [] [] [] [] [] [] []]; try discriminate Hc;
      apply digits_prefix_nonneg; discriminate.
Qed.

Lemma part_positive sep s i z :
  sep = "-"%char ->
  mjoin ((parseInt10 <$> Js.split sep s) !! i) = Some z ->
  falsy_num (Some z) = false -> (0 < z)%Z.
Proof.
  intros -> H Hz. rewrite list_lookup_fmap in H.
  destruct (Js.split "-" s !! i) as [part|] eqn:E; [|discriminate].
  simpl in H. apply list_elem_of_lookup_2, list_elem_of_In in E.
  apply split_parts_free in E. pose proof (parseInt10_nonneg part z E H).
  simpl in Hz. apply Z.eqb_neq in Hz. lia.
Qed.

End YmdFacts.

(** X6: the year, month and day [parseDateYMD] returns are positive: a part
    that is missing, not a number or zero makes it return [null], and no
    part can carry a minus sign, the text being split at "-". *)
Theorem parseDateYMD_positive (dateStr : string) (ymd : YMD) :
  parseDateYMD dateStr = Some ymd ->
  (0 < ymd_y ymd /\ 0 < ymd_m ymd /\ 0 < ymd_d ymd)%Z.
Proof.
  unfold parseDateYMD.
  destruct (mjoin ((parseInt10 <$> Js.split "-" dateStr) !! 0)) as [y|] eqn:Ey;
    [|discriminate].
  destruct (mjoin ((parseInt10 <$> Js.split "-" dateStr) !! 1)) as [m|] eqn:Em;
    [|simpl; rewrite orb_true_r; discriminate].
  destruct (mjoin ((parseInt10 <$> Js.split "-" dateStr) !! 2)) as [d|] eqn:Ed;
    [|simpl; rewrite !orb_true_r; discriminate].
  destruct (falsy_num (Some y)) eqn:Hy; [discriminate|].
  destruct (falsy_num (Some m)) eqn:Hm; [discriminate|].
  destruct (falsy_num (Some d)) eqn:Hd; [discriminate|].
  intros [= <-]. cbn [ymd_y ymd_m ymd_d default].
  repeat split; eapply (part_positive "-" dateStr); eauto.
Qed.

Lemma parseDateYMD_positive_witness :
  parseDateYMD "2026-02-04T09:00" = Some {| ymd_y := 2026; ymd_m := 2; ymd_d := 4 |}
  /\ (0 < 2026 /\ 0 < 2 /\ 0 < 4)%Z.
Proof.
  assert (H : parseDateYMD "2026-02-04T09:00"
              = Some {| ymd_y := 2026; ymd_m := 2; ymd_d := 4 |}) by reflexivity.
  split; [exact H | exact (parseDateYMD_positive _ _ H)].
Defined.

(** X7: [resolveCalendar] answers with a calendar of the list that has the
    requested id, or the requested name when no id is given, and with
    [null] exactly when the list has none; when an id is given the name is
    not looked at, so an unknown id is not rescued by a known name. *)
Theorem resolveCalendar_characterised (cals : list Calendar) (name id : option string) :
  match resolveCalendar cals name id with
  | Some c =>
      In c cals
      /\ (if Js.truthy id then cal_id c = Js.orEmpty id
          else Js.truthy name = true /\ cal_name c = Js.orEmpty name)
  | None =>
      forall c, In c cals ->
        if Js.truthy id then cal_id c <> Js.orEmpty id
        else Js.truthy name = true -> cal_name c <> Js.orEmpty name
  end
  /\ (Js.truthy id = true -> resolveCalendar cals name id = resolveCalendar cals None id).
Proof.
  unfold resolveCalendar. split.
  - destruct (Js.truthy id).
    + destruct (find _ cals) as [c|] eqn:E.
      * apply find_some in E as [Hin Heq]. split; [exact Hin|]. now apply String.eqb_eq.
      * intros c Hin. apply (find_none _ _ E) in Hin. now apply String.eqb_neq.
    + destruct (Js.truthy name).
      * destruct (find _ cals) as [c|] eqn:E.
        -- apply find_some in E as [Hin Heq]. split; [exact Hin|].
           split; [reflexivity | now apply String.eqb_eq].
        -- intros c Hin _. apply (find_none _ _ E) in Hin. now apply String.eqb_neq.
      * intros c _ H. discriminate H.
  - now intros ->.
Qed.

(** X8: [containsAll] does not change when the title or the needles are
    lower-cased first, it is the conjunction over the needles, and it
    depends on which needles are listed only, not on their order or
    repetition. *)
Theorem containsAll_insensitive (h : string) (ns ns' : list string) :
  containsAll (Some (Js.toLowerCase h)) (Some ns) = containsAll (Some h) (Some ns)
  /\ containsAll (Some h) (Some (Js.toLowerCase <$> ns)) = containsAll (Some h) (Some ns)
  /\ containsAll (Some h) (Some (ns ++ ns'))
     = containsAll (Some h) (Some ns) && containsAll (Some h) (Some ns')
  /\ ((forall n, In n ns <-> In n ns') ->
      containsAll (Some h) (Some ns) = containsAll (Some h) (Some ns')).
Proof.
  unfold containsAll. cbn [Js.orEmpty].
  repeat change (default [] (Some ?l)) with l. repeat split.
  - now rewrite toLowerCase_idem.
  - induction ns as [|n rest IH]; [reflexivity|].
    cbn [fmap list_fmap forallb] in *. rewrite IH.
    now rewrite toLowerCase_idem.
  - apply forallb_app.
  - intros Hsame. apply eq_true_iff_eq. rewrite !forallb_forall.
    split; intros H n Hn; apply H, Hsame, Hn.
Qed.

Section LikeAny.

Implicit Types (kw t : string).

(** Whatever its characters, a keyword followed by [%] matches the texts
    it is a prefix of: a wildcard in it matches itself. *)
Lemma like_prefix_any kw : forall t,
  String.prefix kw t = true -> sql_like (kw +:+ "%") t = true.
Proof.
  induction kw as [|p ps IH]; intros t H.
  - apply like_percent_all.
  - destruct t as [|c t']; [discriminate H|].
    rewrite prefix_cons in H. apply andb_true_iff in H as [Hpc Hps].
    apply Ascii.eqb_eq in Hpc. subst c. specialize (IH t' Hps).
    cbn [String.append].
    change (sql_like (String p (ps +:+ "%")) (String p t'))
      with (if Ascii.eqb p "%" then
              sql_like (String "%" (ps +:+ "%")) (String p t')
            else (Ascii.eqb p "_" || Ascii.eqb (Js.lower_char p) (Js.lower_char p))
                 && sql_like (ps +:+ "%") t').
    destruct (Ascii.eqb p "%").
    + rewrite like_percent, (like_percent _ t'), IH.
      rewrite orb_true_r. reflexivity.
    + now rewrite Ascii.eqb_refl, orb_true_r, IH.
Qed.

Lemma like_includes_any kw t :
  Js.includes t kw = true -> sql_like ("%" +:+ kw +:+ "%") t = true.
Proof.
  cbn [String.append]. induction t as [|c r IH]; rewrite like_percent; cbn [Js.includes].
  - rewrite orb_false_r. intros H. now rewrite like_prefix_any.
  - intros H. apply orb_true_iff in H as [H|H].
    + now rewrite like_prefix_any.
    + rewrite IH by assumption. apply orb_true_r.
Qed.

Lemma like_clauses_keep row kws :
  (forall kw, In kw kws -> kw <> "") ->
  title_has kws (row_title row) = true ->
  forallb (holds row) ((fun kw => LowerTitleLike ("%" +:+ kw +:+ "%")) <$> kws) = true.
Proof.
  unfold title_has. induction kws as [|kw rest IH]; intros Hne H; [reflexivity|].
  cbn [forallb] in H. apply andb_true_iff in H as [Hkw Hrest].
  cbn [fmap list_fmap forallb]. cbn [fmap] in IH.
  rewrite IH by (auto; intros; apply Hne; now right).
  rewrite andb_true_r. unfold holds.
  destruct (row_title row) as [t|]; cbn [Js.orEmpty] in Hkw.
  - now apply like_includes_any.
  - assert (kw <> "") by (apply Hne; now left).
    destruct kw; [congruence | discriminate Hkw].
Qed.

End LikeAny.

(** X9: the SQL filter of the bulk operations never misses a row: a row of
    the target calendar that starts in the window and whose lower-cased
    title contains every keyword is among the candidates, also when a
    keyword holds the [LIKE] wildcards [%] and [_] (which then match
    themselves, among others). *)
Theorem sql_filter_keeps_literal_matches (env : CalEnv) (target : Calendar)
  (rs re : DateTime) (needles : option (list string)) (table : list CalEventRow)
  (row : CalEventRow) :
  In row table ->
  row_matches (keywords needles) env target rs re row = true ->
  In (row_id row, row_title row)
     (selectCandidates (whereClauses env target rs re needles) table).
Proof.
  intros Hin Hm. unfold row_matches in Hm. apply andb_true_iff in Hm as [Hw Ht].
  unfold selectCandidates.
  apply (in_map (fun r => (row_id r, row_title r))), filter_In. split; [exact Hin|].
  unfold whereClauses. cbn [forallb]. rewrite keywordClauses_keywords.
  rewrite like_clauses_keep; [| intros kw Hkw; now apply (keywords_lowered needles) | exact Ht].
  unfold in_window, spec_within in Hw. cbn [holds]. now rewrite andb_true_r.
Qed.

Lemma sql_filter_keeps_literal_matches_witness :
  let row := Sample.row "e1" "Sale 100% off" in
  let table := [Sample.row "e0" "Lunch"; row] in
  In row table
  /\ row_matches (keywords (Some ["100%"])) Sample.calenv Sample.work Sample.monday
       Sample.next_monday row = true
  /\ In ("e1", Some "Sale 100% off")
       (selectCandidates
          (whereClauses Sample.calenv Sample.work Sample.monday Sample.next_monday
             (Some ["100%"])) table).
Proof.
  intros row table.
  assert (H1 : In row table) by (right; left; reflexivity).
  assert (H2 : row_matches (keywords (Some ["100%"])) Sample.calenv Sample.work
                 Sample.monday Sample.next_monday row = true) by (vm_compute; reflexivity).
  split; [exact H1|]. split; [exact H2|].
  exact (sql_filter_keeps_literal_matches Sample.calenv Sample.work Sample.monday
           Sample.next_monday (Some ["100%"]) table row H1 H2).
Defined.

(** X10: [tbsyncSyncAccountByUser] triggers one sync, of the one account
    whose user is the requested one (case and surrounding white space
    apart), and nothing else; with no such account or with several, and
    when TbSync cannot be loaded, it leaves the server as it was. *)
Theorem tbsyncSyncAccountByUser_triggers_unique (tb : TbSyncEnv)
  (userEmail : option string) (st : State) :
  match tbsyncSyncAccountByUser tb userEmail st with
  | (st', Returned (SyncTriggered id user)) =>
      st' = emit (SyncAccount id) st
      /\ user = Js.trim (Js.toLowerCase (Js.orEmpty userEmail))
      /\ exists a, List.filter (user_matches userEmail) (accounts tb) = [a] /\ acc_id a = id
  | (st', Returned (SyncError _)) =>
      st' = st /\ length (List.filter (user_matches userEmail) (accounts tb)) <> 1
  | (st', Threw e) => st' = st /\ getTbSyncModule tb = Threw e
  end.
Proof.
  unfold tbsyncSyncAccountByUser.
  destruct (getTbSyncModule tb) as [[]|e]; [|now split].
  fold (user_matches userEmail).
  destruct (List.filter (user_matches userEmail) (accounts tb)) as [|a [|b rest]];
    cbn [fmap list_fmap length].
  - split; [reflexivity | discriminate].
  - split; [reflexivity|]. split; [reflexivity|]. now exists a.
  - split; [reflexivity | discriminate].
Qed.

(** X11: the user of [tbsyncSyncAccountByUser] is read without regard to
    case and to white space around it: the call with the padded address
    does what the call with the lower-cased bare address does. *)
Theorem tbsyncSyncAccountByUser_normalises (tb : TbSyncEnv) (u ws1 ws2 : string)
  (st : State) :
  all_chars Js.is_space ws1 = true -> all_chars Js.is_space ws2 = true ->
  tbsyncSyncAccountByUser tb (Some (ws1 +:+ u +:+ ws2)) st
  = tbsyncSyncAccountByUser tb (Some (Js.toLowerCase u)) st.
Proof.
  intros H1 H2. unfold tbsyncSyncAccountByUser. cbn [Js.orEmpty].
  rewrite !toLowerCase_app, toLowerCase_idem.
  now rewrite trim_padded by now apply toLowerCase_spaces.
Qed.

Lemma tbsyncSyncAccountByUser_normalises_witness :
  all_chars Js.is_space " " = true
  /\ tbsyncSyncAccountByUser Sample.tbsync (Some (" " +:+ "Me@Example.ORG" +:+ " ")) initial
     = tbsyncSyncAccountByUser Sample.tbsync (Some "me@example.org") initial.
Proof.
  assert (H : all_chars Js.is_space " " = true) by reflexivity.
  split; [exact H|].
  exact (tbsyncSyncAccountByUser_normalises Sample.tbsync "Me@Example.ORG" " " " "
           initial H H).
Defined.

Lemma expired_mono (now1 now2 : Z) (e : IdemEntry) :
  (now1 <= now2)%Z -> expired now1 e = true -> expired now2 e = true.
Proof.
  unfold expired. intros Hle H. apply orb_true_iff in H as [H|H].
  - now rewrite H.
  - apply Z.gtb_gt in H. apply orb_true_iff. right. apply Z.gtb_gt. lia.
Qed.

Lemma expired_spec (now : Z) (e : IdemEntry) :
  expired now e = false <-> (ts e <> 0 /\ now - ts e <= IDEMPOTENCY_TTL_MS)%Z.
Proof.
  unfold expired. rewrite orb_false_iff, Z.eqb_neq, Z.gtb_ltb, Z.ltb_ge. reflexivity.
Qed.

(** X12: after [cleanupIdempotency] the cache holds exactly the entries it
    held that have a time stamp other than 0 and no older than the TTL; an
    entry stamped 0 is swept at any time.  Nothing else of the server
    changes. *)
Theorem cleanupIdempotency_keeps_fresh (now : Z) (st : State) :
  (forall key e,
      idempotency (cleanupIdempotency now st) !! key = Some e
      <-> idempotency st !! key = Some e
          /\ ts e <> 0%Z /\ (now - ts e <= IDEMPOTENCY_TTL_MS)%Z)
  /\ workflowJobs (cleanupIdempotency now st) = workflowJobs st
  /\ suspended (cleanupIdempotency now st) = suspended st
  /\ calendarJobs (cleanupIdempotency now st) = calendarJobs st
  /\ effects (cleanupIdempotency now st) = effects st.
Proof.
  split; [|repeat split].
  intros key e. rewrite cleanup_lookup, <- expired_spec.
  destruct (idempotency st !! key) as [e'|]; [|intuition discriminate].
  destruct (expired now e') eqn:E.
  - split; [discriminate | intros [[= ->] H]; congruence].
  - split; [intros [= ->]; auto | now intros [H _]].
Qed.

Lemma state_eq_idempotency (st st' : State) :
  calendarJobs st = calendarJobs st' -> calendarJobSeq st = calendarJobSeq st' ->
  idempotency st = idempotency st' -> workflowJobs st = workflowJobs st' ->
  workflowSeq st = workflowSeq st' -> suspended st = suspended st' ->
  effects st = effects st' -> st = st'.
Proof. destruct st, st'; simpl; intros; subst; reflexivity. Qed.

(** X13: sweeping the cache at some time and again at a later time leaves
    what the later sweep alone leaves; in particular a second sweep at the
    same time changes nothing. *)
Theorem cleanupIdempotency_composes (now1 now2 : Z) (st : State) :
  (now1 <= now2)%Z ->
  cleanupIdempotency now2 (cleanupIdempotency now1 st) = cleanupIdempotency now2 st.
Proof.
  intros Hle. apply state_eq_idempotency; try reflexivity.
  apply map_eq. intros key. rewrite !cleanup_lookup.
  destruct (idempotency st !! key) as [e|]; [|reflexivity].
  destruct (expired now1 e) eqn:E1; [|reflexivity].
  now rewrite (expired_mono now1 now2 e Hle E1).
Qed.

Lemma cleanupIdempotency_composes_witness :
  (2000 <= 30000000)%Z
  /\ cleanupIdempotency 30000000 (cleanupIdempotency 2000 Demo.requested)
     = cleanupIdempotency 30000000 Demo.requested.
Proof.
  assert (H : (2000 <= 30000000)%Z) by lia.
  split; [exact H | exact (cleanupIdempotency_composes 2000 30000000 Demo.requested H)].
Defined.

(** X14: the fingerprint of a request does not depend on [tbsyncUser] nor
    on the description: the same event requested for another user, within
    the TTL of the first request's entry, is suppressed as a duplicate and
    answered with the first workflow's id. *)
Theorem fingerprint_ignores_user (args : CreateArgs) (u d : option string)
  (clk1 clk2 : Clock) (st : State) (wf : JobId) (key : string) :
  Js.truthy u = true ->
  (syncAndCreateCalendarEvent args clk1 st).2 = RespStarted wf key ->
  clk1 4 <> 0%Z ->
  (clk2 0%nat - clk1 4%nat <= IDEMPOTENCY_TTL_MS)%Z ->
  let st1 := (syncAndCreateCalendarEvent args clk1 st).1 in
  fingerprint (with_user_description u d args) = fingerprint args
  /\ syncAndCreateCalendarEvent (with_user_description u d args) clk2 st1
     = (cleanupIdempotency (clk2 0) st1, RespAlreadyCreated key (PendingWorkflow wf)).
Proof.
  intros Hu Hstart Hts Httl st1.
  assert (Hfp : fingerprint (with_user_description u d args) = fingerprint args)
    by reflexivity.
  split; [exact Hfp|].
  destruct (started_inv _ _ _ _ _ Hstart) as (Hu1 & Hk & -> & ->).
  subst st1. rewrite (request_starts args clk1 st) by assumption. cbn [fst].
  rewrite (request_suppressed _ clk2 _
             {| ts := clk1 4; created := PendingWorkflow (clk1 1, S (workflowSeq st)) |}).
  - now rewrite Hfp.
  - exact Hu.
  - rewrite Hfp, cleanup_lookup. unfold started_state; cbn [idempotency].
    rewrite lookup_insert_eq. now rewrite fresh_within_ttl.
Qed.

Lemma fingerprint_ignores_user_witness :
  let other := with_user_description (Some "you@example.org") (Some "check-up")
                 Sample.dentist in
  Js.truthy (Some "you@example.org") = true
  /\ (syncAndCreateCalendarEvent Sample.dentist (Sample.clock 1000) initial).2
     = RespStarted Sample.wf1 (fingerprint Sample.dentist)
  /\ Sample.clock 1000 4 <> 0%Z
  /\ (Sample.clock 2000 0%nat - Sample.clock 1000 4%nat <= IDEMPOTENCY_TTL_MS)%Z
  /\ (syncAndCreateCalendarEvent other (Sample.clock 2000) Demo.requested).2
     = RespAlreadyCreated (fingerprint Sample.dentist) (PendingWorkflow Sample.wf1).
Proof.
  intros other.
  assert (H1 : Js.truthy (Some "you@example.org") = true) by reflexivity.
  assert (H2 : (syncAndCreateCalendarEvent Sample.dentist (Sample.clock 1000) initial).2
               = RespStarted Sample.wf1 (fingerprint Sample.dentist))
    by (vm_compute; reflexivity).
  assert (H3 : Sample.clock 1000 4 <> 0%Z) by (vm_compute; discriminate).
  assert (H4 : (Sample.clock 2000 0%nat - Sample.clock 1000 4%nat
                <= IDEMPOTENCY_TTL_MS)%Z) by (vm_compute; discriminate).
  destruct (fingerprint_ignores_user Sample.dentist (Some "you@example.org")
              (Some "check-up") (Sample.clock 1000) (Sample.clock 2000) initial
              Sample.wf1 (fingerprint Sample.dentist) H1 H2 H3 H4) as [_ Hdup].
  split; [exact H1|]. split; [exact H2|]. split; [exact H3|]. split; [exact H4|].
  exact (f_equal snd Hdup).
Defined.

(** X15: [createCalendarEvent] answers "started" only after resolving a
    calendar that is not read-only; it then hands one item to that
    calendar, under the title [withTagAtEnd] gives, and registers one
    calendar job under the id it returns; when the provider raises at once
    that job is failed with the provider's error and reported as not
    pending.  With any other answer the server is left as it was.  (What
    the provider reports through the job's listener is not stated.) *)
Theorem createCalendarEvent_writes_once (env : CalEnv) (t_id t_created : Z)
  (args : CreateArgs) (st : State) :
  match createCalendarEvent env t_id t_created args st with
  | (st', Returned (CreateStarted c ttl isAllDay pending jobId)) =>
      exists target job,
        resolveCalendar (calendars env) (calendarName args) (calendarId args) = Some target
        /\ cal_readOnly target = false
        /\ c = cal_id target
        /\ effects st'
           = effects st
               ++ [ProviderAddItem (cal_id target)
                     (withTagAtEnd (title args)
                        (Some (requestTag (mcpTag args) (allDay args) (date args)
                                 (start args) (end_ args))))]
        /\ jobId = (t_id, S (calendarJobSeq st))
        /\ calendarJobs st' = <[jobId := job]> (calendarJobs st)
        /\ calendarJobSeq st' = S (calendarJobSeq st)
        /\ cj_jobId job = jobId
        /\ (forall e, addItem_throws env = Some e ->
            cj_status job = JobError /\ cj_error job = Some (exn_toString e)
            /\ pending = false)
  | (st', _) => st' = st
  end.
Proof.
  unfold createCalendarEvent.
  destruct (negb (cal_available env)); [reflexivity|].
  destruct (negb (Js.truthy (title args))); [reflexivity|].
  destruct (allDay args) as [isAllDay|]; [|reflexivity].
  destruct (resolveCalendar _ _ _) as [target|]; [|reflexivity].
  destruct (cal_readOnly target) eqn:Hro; [reflexivity|].
  destruct (createInstance_throws env 0); [reflexivity|].
  match goal with
  | |- context [match ?r with Some msg => _ | None => _ end] =>
      destruct r as [msg|]; [reflexivity|]
  end.
  unfold startAddItemJob. cbn [fst snd].
  destruct (addItem_throws env) as [e|]; eexists target, _.
  all: repeat split; try first [exact Hro | reflexivity]; intros; simpl; congruence.
Qed.

Section DeleteCalls.

Implicit Types (st : State) (wf : JobId) (env : CalEnv).

Lemma dispatched_subset env ids : forall n c, In c (dispatched env n ids) -> In c ids.
Proof.
  induction ids as [|d rest IH]; intros n c; simpl; [auto|].
  destruct (createInstance_throws env n); simpl; [eauto|].
  intros [->|H]; eauto.
Qed.

(** The delete calls one run of the background function adds. *)
Lemma runSqlDelete_delete_calls wf user target rs re needles w clk st :
  exists sent,
    List.filter is_delete (effects (runSqlDelete wf user target rs re needles w clk st))
    = List.filter is_delete (effects st) ++ delete_calls target sent
    /\ forall c, In c sent ->
         In c (selectCandidates (whereClauses (w_cal w) target rs re needles)
                 (cal_events (w_sql w))).
Proof.
  unfold runSqlDelete.
  destruct (open_throws (w_sql w)).
  { exists []. rewrite update_job_effects, app_nil_r. split; [reflexivity | intros ? []]. }
  destruct (execute_throws (w_sql w)).
  { exists []. rewrite update_job_effects, app_nil_r. split; [reflexivity | intros ? []]. }
  set (ids := selectCandidates _ _).
  exists (dispatched (w_cal w) 0 ids).
  split; [|intros c; apply dispatched_subset].
  set (st1 := update_job wf (set_step "delete" (clk 0)) None st).
  pose proof (dispatch_tally (w_cal w) clk target ids 0 0 0 st1) as (_ & _ & Hf).
  destruct (dispatchDeletes (w_cal w) clk target 0 ids 0 0 st1) as [[st2 t] x].
  cbn [fst snd] in Hf. subst st1. rewrite update_job_effects in Hf.
  destruct (close_throws (w_sql w)).
  - rewrite !update_job_effects, Hf, List.filter_app, filter_delete_calls. reflexivity.
  - rewrite update_job_effects, !sync_keeps_deletes, !update_job_effects, Hf,
      List.filter_app, filter_delete_calls. reflexivity.
Qed.

End DeleteCalls.

(** X16: a bulk SQL delete that was accepted sends nothing at request time,
    and whenever its workflow runs, every delete it sends is for the
    calendar resolved from the request, which is not read-only, and for a
    row of that calendar that starts inside the window, whatever the
    keywords are. *)
Theorem bulk_delete_stays_in_window (args : DeleteArgs) (env : CalEnv) (clk : Clock)
  (st : State) (wf : JobId) :
  (syncAndDeleteEventsBySql args env clk st).2 = Returned (DelStarted wf) ->
  let st1 := (syncAndDeleteEventsBySql args env clk st).1 in
  exists target rs re,
    resolveCalendar (calendars env) (d_calendarName args) (d_calendarId args) = Some target
    /\ cal_readOnly target = false
    /\ makeTimedRange (nativeTime env) (d_start args) (d_end args) = Range rs re
    /\ effects st1 = effects st
    /\ forall (w : World) (clk' : Clock) (cal id : string),
         In (ProviderDeleteItem cal id) (effects (resume wf w clk' st1)) ->
         In (ProviderDeleteItem cal id) (effects st)
         \/ (cal = cal_id target
             /\ exists row, In row (cal_events (w_sql w)) /\ row_id row = id
                            /\ in_window (w_cal w) target rs re row = true).
Proof.
  intros Hresp st1. subst st1.
  assert (Hu : Js.truthy (d_tbsyncUser args) = true).
  { unfold syncAndDeleteEventsBySql in Hresp.
    destruct (Js.truthy (d_tbsyncUser args)); [reflexivity | discriminate Hresp]. }
  assert (Hse : Js.truthy (d_start args) = true /\ Js.truthy (d_end args) = true).
  { unfold syncAndDeleteEventsBySql in Hresp. rewrite Hu in Hresp. cbn [negb] in Hresp.
    destruct (Js.truthy (d_start args)), (Js.truthy (d_end args));
      try discriminate Hresp; auto. }
  destruct Hse as [Hs He].
  assert (Hc : cal_available env = true).
  { unfold syncAndDeleteEventsBySql in Hresp. rewrite Hu, Hs, He in Hresp.
    cbn [negb orb] in Hresp.
    destruct (cal_available env); [reflexivity | discriminate Hresp]. }
  destruct (resolveCalendar (calendars env) (d_calendarName args) (d_calendarId args))
    as [target|] eqn:Ht.
  2:{ unfold syncAndDeleteEventsBySql in Hresp. rewrite Hu, Hs, He, Hc, Ht in Hresp.
      discriminate Hresp. }
  destruct (cal_readOnly target) eqn:Hro.
  { unfold syncAndDeleteEventsBySql in Hresp. rewrite Hu, Hs, He, Hc, Ht, Hro in Hresp.
    discriminate Hresp. }
  destruct (makeTimedRange (nativeTime env) (d_start args) (d_end args))
    as [|msg|rs re] eqn:Hr;
    try (unfold syncAndDeleteEventsBySql in Hresp;
         rewrite Hu, Hs, He, Hc, Ht, Hro, Hr in Hresp; discriminate Hresp).
  destruct (delete_request_starts args env clk st target rs re Hu Hs He Hc Ht Hro Hr)
    as (Hresp' & Hsusp & _ & Heff).
  rewrite Hresp' in Hresp. injection Hresp as <-.
  exists target, rs, re. do 4 (split; [solve [auto]|]).
  intros w clk' cal id Hin.
  rewrite (resume_sql _ _ _ _ _ _ w clk' _ Hsusp) in Hin.
  destruct (runSqlDelete_delete_calls (clk 0, S (workflowSeq st)) (d_tbsyncUser args)
              target rs re (d_titleMustContainAll args) w clk'
              (syncAndDeleteEventsBySql args env clk st).1) as (sent & Hf & Hsent).
  assert (Hin' : In (ProviderDeleteItem cal id)
                   (List.filter is_delete (effects st) ++ delete_calls target sent)).
  { rewrite <- Heff, <- Hf. apply filter_In. now split. }
  apply in_app_or in Hin' as [Hold|Hnew].
  - left. now apply filter_In in Hold as [Hold _].
  - right. unfold delete_calls in Hnew.
    apply in_map_iff in Hnew as (c & [= <- <-] & Hc').
    split; [reflexivity|]. apply Hsent in Hc'. unfold selectCandidates in Hc'.
    apply in_map_iff in Hc' as (row & <- & Hrow).
    apply filter_In in Hrow as [Hrow Hholds].
    exists row. split; [exact Hrow|]. split; [reflexivity|].
    unfold whereClauses in Hholds. cbn [forallb holds] in Hholds.
    apply andb_true_iff in Hholds as [H1 H2]. apply andb_true_iff in H2 as [H2 _].
    unfold in_window, spec_within. now rewrite H1, H2.
Qed.

Lemma bulk_delete_stays_in_window_witness :
  let req := syncAndDeleteEventsBySql (Sample.sweep ["standup"]) Sample.calenv
               (Sample.clock 1000) initial in
  req.2 = Returned (DelStarted Sample.wf_sweep)
  /\ exists target rs re,
       resolveCalendar (calendars Sample.calenv) (Some "Work") None = Some target
       /\ cal_readOnly target = false
       /\ makeTimedRange (nativeTime Sample.calenv) (Some "2026-02-02T00:00")
            (Some "2026-02-09T00:00") = Range rs re
       /\ effects req.1 = [].
Proof.
  intros req.
  assert (H : req.2 = Returned (DelStarted Sample.wf_sweep)) by (vm_compute; reflexivity).
  split; [exact H|].
  destruct (bulk_delete_stays_in_window (Sample.sweep ["standup"]) Sample.calenv
              (Sample.clock 1000) initial Sample.wf_sweep H)
    as (target & rs & re & Ht & Hro & Hr & Heff & _).
  exists target, rs, re. auto.
Defined.

Section Tallies.

Lemma scanItems_tally needles s e items : forall m d m' d' raised,
  scanItems needles s e items m d = (m', d', raised) ->
  m <= m' /\ d <= d' /\ m' - m <= length items
  /\ m' - m = d' - d + (match raised with Some _ => 1 | None => 0 end).
Proof.
  induction items as [|it rest IH]; intros m d m' d' raised; cbn [scanItems length].
  - intros [= <- <- <-]. lia.
  - destruct (negb (containsAll (ni_title it) needles)).
    { intros H. apply IH in H. lia. }
    destruct (negb (clampDateTimeToRange (ni_start it) s e)).
    { intros H. apply IH in H. lia. }
    destruct (ni_delete_throws it).
    + intros [= <- <- <-]. lia.
    + intros H. apply IH in H. lia.
Qed.

Lemma scanFolders_tally needles s e folders : forall k acc,
  tallies_ok k acc ->
  tallies_ok (k + length folders) (scanFolders needles s e folders acc)
  /\ folderCount (scanFolders needles s e folders acc) = folderCount acc.
Proof.
  induction folders as [|f rest IH]; intros k acc Hacc; cbn [scanFolders length].
  - rewrite Nat.add_0_r. now split.
  - replace (k + S (length rest)) with (S k + length rest) by lia.
    set (acc' := match f_items f with
                 | ItemsThrow _ => _ | ItemsNotArray => _ | ItemsArray _ => _ end).
    assert (H' : tallies_ok (S k) acc' /\ folderCount acc' = folderCount acc).
    { destruct Hacc as ((H1 & H2) & H3 & H4). subst acc'. unfold tallies_ok.
      destruct (f_items f) as [ex| |items].
      - cbn [deleted matched totalItems errors folderCount]. rewrite length_app.
        simpl. lia.
      - cbn [deleted matched totalItems errors folderCount]. rewrite length_app.
        simpl. lia.
      - destruct (scanItems needles s e items (matched acc) (deleted acc))
          as [[m d] raised] eqn:E.
        apply scanItems_tally in E.
        cbn [deleted matched totalItems errors folderCount]. rewrite length_app.
        destruct raised; simpl; lia. }
    destruct H' as [H' Hfc]. destruct (IH (S k) acc' H') as [Ht Hf].
    split; [exact Ht | congruence].
Qed.

Lemma scanFolders_totalItems needles s e folders : forall acc,
  totalItems (scanFolders needles s e folders acc)
  = totalItems acc + length (flat_map folder_items folders).
Proof.
  induction folders as [|f rest IH]; intros acc; cbn [scanFolders flat_map].
  - simpl. lia.
  - rewrite IH, length_app. unfold folder_items.
    destruct (f_items f) as [ex| |items]; cbn [totalItems length]; try lia.
    destruct (scanItems _ _ _ _ _ _) as [[m d] raised]. cbn [totalItems]. lia.
Qed.

End Tallies.

(** X17: in every reply of [tbsyncDeleteEasEventsByTitleRange],
    deleted <= matched <= totalItems; every match that was not deleted has
    its error in the list, which holds at most one error per folder;
    folderCount is the number of folders mapped to the calendar and
    totalItems the number of items they list. *)
Theorem title_range_delete_tallies (args : DeleteArgs) (env : CalEnv) (tb : TbSyncEnv)
  (reply : BulkReply) :
  tbsyncDeleteEasEventsByTitleRange args env tb = Returned (inr reply) ->
  deleted reply <= matched reply <= totalItems reply
  /\ matched reply - deleted reply <= length (errors reply) <= folderCount reply
  /\ exists target,
       resolveCalendar (calendars env) (d_calendarName args) (d_calendarId args)
       = Some target
       /\ folderCount reply = length (matchingFolders tb target)
       /\ totalItems reply = length (flat_map folder_items (matchingFolders tb target)).
Proof.
  unfold tbsyncDeleteEasEventsByTitleRange.
  destruct (negb (Js.truthy (d_tbsyncUser args))); [discriminate|].
  destruct (negb (Js.truthy (d_start args)) || negb (Js.truthy (d_end args)));
    [discriminate|].
  destruct (negb (cal_available env)); [discriminate|].
  destruct (resolveCalendar _ _ _) as [target|]; [|discriminate].
  destruct (getTbSyncModule tb); [|discriminate].
  destruct (makeTimedRange _ _ _) as [|msg|rs re]; try discriminate.
  intros [= <-].
  set (acc0 := {| folderCount := length (matchingFolders tb target); totalItems := 0;
                  matched := 0; deleted := 0; errors := [] |}).
  destruct (scanFolders_tally (d_titleMustContainAll args) (jsTime env rs) (jsTime env re)
              (matchingFolders tb target) 0 acc0) as [(H1 & H2 & H3) Hfc].
  { unfold tallies_ok, acc0; simpl. lia. }
  rewrite Hfc. cbn [folderCount acc0]. simpl in H3.
  split; [exact H1|]. split; [lia|].
  exists target. split; [reflexivity|]. split; [reflexivity|].
  now rewrite scanFolders_totalItems.
Qed.

Lemma title_range_delete_tallies_witness :
  let tb := Sample.tbsync_with
              [Sample.item "Standup A"; Demo.stuck "Standup B"; Sample.item "Standup C"] in
  let reply := {| folderCount := 1; totalItems := 3; matched := 2; deleted := 1;
                  errors := ["Error: NS_ERROR_FAILURE"] |} in
  tbsyncDeleteEasEventsByTitleRange (Sample.sweep ["standup"]) Sample.calenv tb
  = Returned (inr reply)
  /\ deleted reply <= matched reply <= totalItems reply
  /\ matched reply - deleted reply <= length (errors reply) <= folderCount reply.
Proof.
  intros tb reply.
  assert (H : tbsyncDeleteEasEventsByTitleRange (Sample.sweep ["standup"]) Sample.calenv tb
              = Returned (inr reply)) by (vm_compute; reflexivity).
  destruct (title_range_delete_tallies _ _ _ _ H) as (H1 & H2 & _).
  split; [exact H|]. split; [exact H1 | exact H2].
Defined.

Section Registry.

Implicit Types (st : State) (wf : JobId) (ev : Event).

(** A request leaves alone what it did not issue. *)
Lemma request_frame wf ev st :
  wf.2 <= workflowSeq st ->
  resumes wf ev = false ->
  suspended (step ev st) !! wf = suspended st !! wf
  /\ (suspended st !! wf = None -> workflowJobs (step ev st) !! wf = workflowJobs st !! wf).
Proof.
  intros Hissued Hr. destruct ev as [wf' w clk|args clk|args env clk]; cbn [step].
  - cbn [resumes] in Hr. apply bool_decide_eq_false in Hr.
    rewrite resume_suspended_ne, resume_jobs_ne by assumption. auto.
  - destruct (create_request_frame args clk st wf Hissued) as (-> & -> & _). auto.
  - destruct (delete_request_frame args env clk st wf Hissued) as (-> & -> & _). auto.
Qed.

Lemma step_settled wf ev st :
  wf.2 <= workflowSeq st -> suspended st !! wf = None ->
  workflowJobs (step ev st) !! wf = workflowJobs st !! wf
  /\ suspended (step ev st) !! wf = None.
Proof.
  intros Hissued Hs. destruct (resumes wf ev) eqn:Hr.
  - destruct ev as [wf' w clk| |]; try discriminate Hr.
    cbn [resumes] in Hr. apply bool_decide_eq_true in Hr. subst wf'.
    cbn [step]. now rewrite resume_idle.
  - destruct (request_frame wf ev st Hissued Hr) as [H1 H2].
    rewrite H1. auto.
Qed.

Lemma run_settled wf evs : forall st,
  wf.2 <= workflowSeq st -> suspended st !! wf = None ->
  workflowJobs (run evs st) !! wf = workflowJobs st !! wf
  /\ suspended (run evs st) !! wf = None.
Proof.
  induction evs as [|ev rest IH]; intros st Hissued Hs; cbn [run]; [auto|].
  destruct (step_settled wf ev st Hissued Hs) as [Hj Hs'].
  pose proof (step_workflowSeq ev st).
  destruct (IH (step ev st) ltac:(lia) Hs') as [Hj' Hs''].
  split; [congruence | exact Hs''].
Qed.

End Registry.

(** X18: once a workflow has settled, [getWorkflowJob] answers the same for
    its id whatever the server does afterwards: resumptions and requests,
    in any number and order, leave the record as it is (and an id the
    counter has passed without a record stays unknown). *)
Theorem settled_workflow_is_final (wf : JobId) (evs : list Event) (st : State) :
  wf.2 <= workflowSeq st ->
  suspended st !! wf = None ->
  getWorkflowJob wf (run evs st) = getWorkflowJob wf st.
Proof.
  intros Hissued Hs. unfold getWorkflowJob.
  now destruct (run_settled wf evs st Hissued Hs) as [-> _].
Qed.

Lemma settled_workflow_is_final_witness :
  let evs := [CreateRequest Sample.standup (Sample.clock 4000);
              Resume Sample.wf1 Sample.world (Sample.clock 5000);
              Resume (4001%Z, 2) Sample.world (Sample.clock 6000)] in
  Sample.wf1.2 <= workflowSeq Demo.failed
  /\ suspended Demo.failed !! Sample.wf1 = None
  /\ getWorkflowJob Sample.wf1 (run evs Demo.failed) = getWorkflowJob Sample.wf1 Demo.failed.
Proof.
  intros evs.
  assert (H1 : Sample.wf1.2 <= workflowSeq Demo.failed) by (vm_compute; lia).
  assert (H2 : suspended Demo.failed !! Sample.wf1 = None) by (vm_compute; reflexivity).
  split; [exact H1|]. split; [exact H2|].
  exact (settled_workflow_is_final Sample.wf1 evs Demo.failed H1 H2).
Defined.

Section Extends.

Implicit Types (st : State) (wf : JobId) (job : WorkflowJob).

Lemma extends_refl job : extends job job.
Proof. repeat split; auto. Qed.

Lemma extends_trans job1 job2 job3 :
  extends job1 job2 -> extends job2 job3 -> extends job1 job3.
Proof.
  intros (? & ? & ? & ? & ?) (? & ? & ? & ? & ?). repeat split; try congruence; auto.
  etransitivity; eassumption.
Qed.

Lemma grows_id : grows (fun job => job).
Proof. intros job. apply extends_refl. Qed.

Lemma grows_set_step l t : grows (set_step l t).
Proof.
  intros job. repeat split; [now apply prefix_app_r | intros _; apply last_snoc].
Qed.

Lemma grows_set_done t : grows (set_done t).
Proof.
  intros job. repeat split; [now apply prefix_app_r | intros _; apply last_snoc].
Qed.

Lemma grows_set_error e t : grows (set_error e t).
Proof.
  intros job. repeat split; [now apply prefix_app_r | intros _; apply last_snoc].
Qed.

Lemma grows_set_result r t : grows (set_result r t).
Proof. intros job. repeat split; auto. Qed.

Ltac grows_chain :=
  intros ?job; unfold compose; cbv beta;
  repeat first
    [ apply extends_refl
    | match goal with
      | H : grows ?g |- extends _ (?g _) => apply H
      | |- extends _ (set_step _ _ _) => eapply extends_trans; [|apply grows_set_step]
      | |- extends _ (set_done _ _) => eapply extends_trans; [|apply grows_set_done]
      | |- extends _ (set_error _ _ _) => eapply extends_trans; [|apply grows_set_error]
      | |- extends _ (set_result _ _ _) => eapply extends_trans; [|apply grows_set_result]
      end ].

Lemma runSqlDelete_grows wf user target rs re needles w clk st :
  exists g,
    workflowJobs (runSqlDelete wf user target rs re needles w clk st)
    = alter g wf (workflowJobs st)
    /\ grows g.
Proof.
  unfold runSqlDelete.
  destruct (open_throws (w_sql w)) as [e|].
  { eexists. split; [reflexivity | grows_chain]. }
  destruct (execute_throws (w_sql w)) as [e|].
  { eexists. split; [reflexivity | grows_chain]. }
  set (ids := selectCandidates _ _).
  set (st1 := update_job wf _ None st).
  pose proof (dispatch_same_tables (w_cal w) clk target ids 0 0 0 st1) as Hd.
  destruct (dispatchDeletes (w_cal w) clk target 0 ids 0 0 st1) as [[st2 t] e].
  simpl in Hd. destruct Hd as (_ & Hj & _ & _).
  set (st3 := update_job wf _ None st2).
  assert (H3 : exists g, workflowJobs st3 = alter g wf (workflowJobs st) /\ grows g).
  { eexists. subst st3 st1. unfold update_job in *; simpl in *.
    rewrite Hj, alter_alter_eq. split; [reflexivity | grows_chain]. }
  clearbody st3. destruct H3 as (g3 & Hj3 & Hg3).
  destruct (close_throws (w_sql w)) as [e'|].
  { eexists. unfold update_job; simpl. rewrite Hj3, alter_alter_eq.
    split; [reflexivity | grows_chain]. }
  set (st4 := update_job wf _ None st3).
  pose proof (sync_same_tables (w_tb w) user st4) as (_ & Ha & _ & _).
  set (st5 := (tbsyncSyncAccountByUser (w_tb w) user st4).1) in *.
  pose proof (sync_same_tables (w_tb w) user st5) as (_ & Hb & _ & _).
  eexists. unfold update_job; simpl. rewrite Hb, Ha. subst st4.
  unfold update_job; simpl. rewrite Hj3, !alter_alter_eq.
  split; [reflexivity | grows_chain].
Qed.

Lemma resume_grows wf w clk st :
  exists g,
    workflowJobs (resume wf w clk st) = alter g wf (workflowJobs st) /\ grows g.
Proof.
  unfold resume. destruct (suspended st !! wf) as [k|].
  2:{ exists (fun job => job). split; [|apply grows_id].
      symmetry. apply map_eq. intros i. destruct (decide (wf = i)) as [->|Hne].
      - rewrite lookup_alter_eq. now destruct (workflowJobs st !! i).
      - now rewrite lookup_alter_ne. }
  destruct k as [args key|args key pre|user key pre cr|user key pre cr post
                |user target rs re needles].
  - pose proof (sync_same_tables (w_tb w) (tbsyncUser args) st) as (_ & Hs & _ & _).
    destruct (tbsyncSyncAccountByUser _ _ st) as [st0 [pre|e]]; simpl in Hs;
      eexists; (split; [unfold update_job; simpl; rewrite Hs; reflexivity | grows_chain]).
  - pose proof (create_same_tables (w_cal w) (clk 0) (clk 1) args st) as (_ & Hs & _ & _).
    destruct (createCalendarEvent _ _ _ _ st) as [st0 [cr|e]]; simpl in Hs;
      eexists; (split; [unfold update_job; simpl; rewrite Hs; reflexivity | grows_chain]).
  - pose proof (sync_same_tables (w_tb w) user st) as (_ & Hs & _ & _).
    destruct (tbsyncSyncAccountByUser _ _ st) as [st0 [post|e]]; simpl in Hs;
      eexists; (split; [unfold update_job; simpl; rewrite Hs; reflexivity | grows_chain]).
  - pose proof (sync_same_tables (w_tb w) user st) as (_ & Hs & _ & _).
    destruct (tbsyncSyncAccountByUser _ _ st) as [st0 [post2|e]]; simpl in Hs;
      eexists; (split; [unfold update_job; simpl; rewrite Hs; reflexivity | grows_chain]).
  - apply runSqlDelete_grows.
Qed.

Lemma step_extends wf ev st job :
  ids_issued st ->
  workflowJobs st !! wf = Some job ->
  exists job', workflowJobs (step ev st) !! wf = Some job' /\ extends job job'.
Proof.
  intros Hids Hjob.
  assert (Hissued : wf.2 <= workflowSeq st)
    by (apply (map_Forall_lookup_1 _ _ _ _ Hids Hjob)).
  destruct ev as [wf' w clk|args clk|args env clk]; cbn [step].
  - destruct (resume_grows wf' w clk st) as (g & -> & Hg).
    destruct (decide (wf' = wf)) as [->|Hne].
    + rewrite lookup_alter_eq, Hjob. exists (g job). split; [reflexivity | apply Hg].
    + rewrite lookup_alter_ne by assumption. exists job. split; [exact Hjob | apply extends_refl].
  - destruct (create_request_frame args clk st wf Hissued) as (-> & _).
    exists job. split; [exact Hjob | apply extends_refl].
  - destruct (delete_request_frame args env clk st wf Hissued) as (-> & _).
    exists job. split; [exact Hjob | apply extends_refl].
Qed.

Lemma step_ids_issued ev st : ids_issued st -> ids_issued (step ev st).
Proof.
  destruct ev as [wf w clk|args clk|args env clk]; cbn [step].
  - apply ids_issued_resume.
  - apply ids_issued_create_request.
  - apply ids_issued_delete_request.
Qed.

End Extends.

(** X19: a workflow record is never removed nor replaced: whatever the
    server does, the record keeps its id, its creation time and its meta
    data, the labels recorded so far stay a prefix of its history, and its
    current label stays the last one recorded. *)
Theorem workflow_records_only_grow (wf : JobId) (evs : list Event) (st : State)
  (job : WorkflowJob) :
  ids_issued st ->
  workflowJobs st !! wf = Some job ->
  exists job', workflowJobs (run evs st) !! wf = Some job' /\ extends job job'.
Proof.
  revert st job. induction evs as [|ev rest IH]; intros st job Hids Hjob; cbn [run].
  - exists job. split; [exact Hjob | apply extends_refl].
  - destruct (step_extends wf ev st job Hids Hjob) as (job1 & Hjob1 & H1).
    destruct (IH (step ev st) job1 (step_ids_issued ev st Hids) Hjob1) as (job2 & Hjob2 & H2).
    exists job2. split; [exact Hjob2 | eapply extends_trans; eassumption].
Qed.

Lemma workflow_records_only_grow_witness :
  let evs := [Resume Sample.wf1 Sample.world (Sample.clock 3000);
              CreateRequest Sample.standup (Sample.clock 4000);
              Resume Sample.wf1 Sample.world (Sample.clock 5000)] in
  ids_issued Demo.requested
  /\ exists job job',
       workflowJobs Demo.requested !! Sample.wf1 = Some job
       /\ workflowJobs (run evs Demo.requested) !! Sample.wf1 = Some job'
       /\ extends job job'.
Proof.
  intros evs.
  assert (H1 : ids_issued Demo.requested)
    by (refine (bool_decide_eq_true_1 _ _); vm_compute; reflexivity).
  split; [exact H1|].
  destruct (workflowJobs Demo.requested !! Sample.wf1) as [job|] eqn:Hjob;
    [|vm_compute in Hjob; discriminate Hjob].
  destruct (workflow_records_only_grow Sample.wf1 evs Demo.requested job H1 Hjob)
    as (job' & Hjob' & Hext).
  exists job, job'. auto.
Defined.

Section DeleteStretches.

Implicit Types (st : State) (wf : JobId) (ev : Event) (a : SqlAwait).

Lemma sqlStretch_ok wf a w clk st :
  sql_workflow_ok wf (Some a) st ->
  sql_workflow_ok wf (sqlStretch wf a w clk st).2 (sqlStretch wf a w clk st).1
  /\ awaits_left (sqlStretch wf a w clk st).2 < awaits_left (Some a).
Proof.
  intros (Hissued & (job & Hjob & Hlab & Hlast) & (user & target & rs & re & needles & Hk)).
  unfold sqlStretch. rewrite Hk.
  destruct a as [|clauses|raised].
  - (* open *)
    destruct (open_throws (w_sql w)) as [e|]; cbn [fst snd].
    + split; [|simpl; lia]. split; [exact Hissued|].
      split; [|apply update_job_suspended_eq].
      exists (set_error e (clk 0) job). rewrite update_job_jobs_eq, Hjob.
      split; [reflexivity|]. destruct Hlab as [Hrun Hsteps].
      split; [|apply last_snoc]. right. cbn. rewrite Hsteps. auto.
    + split; [|simpl; lia]. split; [exact Hissued|].
      split; [exists job; auto | eauto 10].
  - (* execute *)
    destruct Hlab as [Hrun Hsteps].
    destruct (execute_throws (w_sql w)) as [e|]; cbn [fst snd].
    + split; [|simpl; lia]. split; [exact Hissued|].
      split; [exists job; split; [exact Hjob|]; split; [split; assumption | exact Hlast]
             | eauto 10].
    + set (k := AwaitSql user target rs re needles).
      set (ids := selectCandidates clauses (cal_events (w_sql w))).
      set (st1 := update_job wf (set_step "delete" (clk 0)) (Some k) st).
      pose proof (dispatch_same_tables (w_cal w) clk target ids 0 0 0 st1) as Hd.
      destruct (dispatchDeletes (w_cal w) clk target 0 ids 0 0 st1) as [[st2 t] x].
      cbn [fst snd] in *. destruct Hd as (_ & Hj & Hq & Hs).
      split; [|simpl; lia]. split; [now rewrite update_job_workflowSeq, Hq|].
      split; [|rewrite update_job_suspended_eq; eauto 10].
      rewrite update_job_jobs_eq, Hj. subst st1. rewrite update_job_jobs_eq, Hjob.
      eexists. split; [reflexivity|]. unfold labelled. cbn. rewrite Hsteps.
      split; [split; [assumption | reflexivity] | reflexivity].
  - (* close *)
    assert (Herr : forall e,
      sql_workflow_ok wf None (update_job wf (set_error e (clk 0)) None st)).
    { intros e. split; [exact Hissued|]. split; [|apply update_job_suspended_eq].
      exists (set_error e (clk 0) job). rewrite update_job_jobs_eq, Hjob.
      split; [reflexivity|]. split; [|apply last_snoc]. right. cbn.
      destruct raised; destruct Hlab as [_ ->]; auto. }
    destruct (close_throws (w_sql w)) as [e|]; [split; [apply Herr | simpl; lia]|].
    destruct raised as [e|]; [split; [apply Herr | simpl; lia]|].
    cbn [fst snd]. split; [|simpl; lia].
    set (k := AwaitSql user target rs re needles).
    set (st1 := update_job wf (set_done (clk 1)) None
                  (update_job wf (set_step "postSync" (clk 0)) (Some k) st)).
    pose proof (sync_same_tables (w_tb w) user st1) as (_ & Ha & Hqa & Hsa).
    set (st2 := (tbsyncSyncAccountByUser (w_tb w) user st1).1) in *.
    pose proof (sync_same_tables (w_tb w) user st2) as (_ & Hb & Hqb & Hsb).
    set (st3 := (tbsyncSyncAccountByUser (w_tb w) user st2).1) in *.
    split; [now rewrite Hqb, Hqa|].
    split; [|rewrite Hsb, Hsa; apply update_job_suspended_eq].
    rewrite Hb, Ha. subst st1. rewrite !update_job_jobs_eq, Hjob.
    eexists. split; [reflexivity|]. destruct Hlab as [_ Hsteps].
    unfold labelled. cbn. rewrite Hsteps.
    split; [left; auto | reflexivity].
Qed.

(** What the server does meanwhile leaves the workflow where it is. *)
Lemma meanwhile_ok wf (o : option SqlAwait) ev st :
  resumes wf ev = false ->
  sql_workflow_ok wf o st -> sql_workflow_ok wf o (step ev st).
Proof.
  intros Hr (Hissued & Hrec & Hk).
  pose proof (step_workflowSeq ev st) as Hmono.
  destruct (request_frame wf ev st Hissued Hr) as [Hs _].
  assert (Hj : workflowJobs (step ev st) !! wf = workflowJobs st !! wf).
  { destruct ev as [wf' w clk|args clk|args env clk]; cbn [step].
    - cbn [resumes] in Hr. apply bool_decide_eq_false in Hr. now apply resume_jobs_ne.
    - now destruct (create_request_frame args clk st wf Hissued) as (-> & _).
    - now destruct (delete_request_frame args env clk st wf Hissued) as (-> & _). }
  split; [lia|]. rewrite Hj, Hs. auto.
Qed.

Lemma sqlRun_ok wf tr : forall (o : option SqlAwait) st,
  Forall (apart wf) tr ->
  sql_workflow_ok wf o st ->
  sql_workflow_ok wf (sqlRun wf o tr st).2 (sqlRun wf o tr st).1
  /\ awaits_left (sqlRun wf o tr st).2 <= awaits_left o - stretches tr.
Proof.
  induction tr as [|e rest IH]; intros o st Htr Hok; cbn [sqlRun].
  - split; [exact Hok|]. unfold stretches; simpl. lia.
  - inversion Htr as [|? ? He Hrest]; subst.
    unfold stretches in *. destruct e as [w clk|ev]; cbn [List.filter is_stretch length].
    + destruct o as [a|].
      * destruct (sqlStretch_ok wf a w clk st Hok) as [Hok' Hlt].
        destruct (sqlStretch wf a w clk st) as [st' a'] eqn:E. cbn [fst snd] in *.
        destruct (IH a' st' Hrest Hok') as [Hok'' Hle]. split; [exact Hok''|]. lia.
      * destruct (IH None st Hrest Hok) as [Hok' Hle]. split; [exact Hok'|].
        simpl in *. lia.
    + cbn [apart] in He.
      destruct (IH o (step ev st) Hrest (meanwhile_ok wf o ev st He Hok)) as [Hok' Hle].
      split; [exact Hok' | exact Hle].
Qed.

Lemma delete_request_ok (args : DeleteArgs) (env : CalEnv) (clk : Clock) st wf :
  (syncAndDeleteEventsBySql args env clk st).2 = Returned (DelStarted wf) ->
  sql_workflow_ok wf (Some AtOpen) (syncAndDeleteEventsBySql args env clk st).1.
Proof.
  unfold syncAndDeleteEventsBySql.
  destruct (negb (Js.truthy (d_tbsyncUser args))); [discriminate|].
  destruct (negb (Js.truthy (d_start args)) || negb (Js.truthy (d_end args)));
    [discriminate|].
  destruct (negb (cal_available env)); [discriminate|].
  destruct (resolveCalendar _ _ _) as [target|]; [|discriminate].
  destruct (cal_readOnly target); [discriminate|].
  destruct (makeTimedRange _ _ _) as [|msg|rs re]; try discriminate.
  cbn [fst snd newWorkflowJobId]. intros [= <-].
  unfold with_suspended, with_workflowJobs, with_workflowSeq.
  split; [cbn; lia|]. cbn [workflowJobs suspended].
  rewrite !lookup_insert_eq. split; [|eauto 10].
  eexists. split; [reflexivity|]. repeat split.
Qed.

(** The delete loop does not look at the continuations. *)
Lemma dispatch_with_suspended env clk target f ids : forall n t e st,
  dispatchDeletes env clk target n ids t e (with_suspended f st)
  = (with_suspended f (dispatchDeletes env clk target n ids t e st).1.1,
     (dispatchDeletes env clk target n ids t e st).1.2,
     (dispatchDeletes env clk target n ids t e st).2).
Proof.
  induction ids as [|[id ttl] rest IH]; intros n t e st; simpl; [reflexivity|].
  destruct (createInstance_throws env n); [apply IH|].
  apply (IH (S n) (S t) e
           (startDeleteItemJob env n target id (DeleteItem "sqlBulkDelete" ttl)
              (clk (3 * n + 1)) (clk (3 * n + 2)) st).1).
Qed.

Lemma sync_with_suspended tb user f st :
  (tbsyncSyncAccountByUser tb user (with_suspended f st)).1
  = with_suspended f (tbsyncSyncAccountByUser tb user st).1.
Proof.
  unfold tbsyncSyncAccountByUser.
  destruct (getTbSyncModule tb); [|reflexivity].
  destruct (acc_id <$> _) as [|? [|? ?]]; reflexivity.
Qed.

Lemma sync_with_workflowJobs tb user g st :
  (tbsyncSyncAccountByUser tb user (with_workflowJobs g st)).1
  = with_workflowJobs g (tbsyncSyncAccountByUser tb user st).1.
Proof.
  unfold tbsyncSyncAccountByUser.
  destruct (getTbSyncModule tb); [|reflexivity].
  destruct (acc_id <$> _) as [|? [|? ?]]; reflexivity.
Qed.

Lemma jobs_with_suspended g f st :
  with_workflowJobs g (with_suspended f st) = with_suspended f (with_workflowJobs g st).
Proof. reflexivity. Qed.

Lemma suspended_twice f g st :
  with_suspended f (with_suspended g st) = with_suspended (fun m => f (g m)) st.
Proof. reflexivity. Qed.

Lemma with_suspended_ext f g st :
  f (suspended st) = g (suspended st) -> with_suspended f st = with_suspended g st.
Proof. unfold with_suspended. now intros ->. Qed.

(** The three stretches of a delete workflow, taken one after the other in
    one world, are [runSqlDelete]. *)
Lemma stretches_together wf user target rs re needles w clk st :
  suspended st !! wf = Some (AwaitSql user target rs re needles) ->
  let n := length (selectCandidates (whereClauses (w_cal w) target rs re needles)
                     (cal_events (w_sql w))) in
  let late : Clock := match execute_throws (w_sql w) with
                      | Some _ => clk
                      | None => fun i => clk (3 * n + 1 + i)
                      end in
  (sqlRun wf (Some AtOpen) [Stretch w clk; Stretch w clk; Stretch w late] st).1
  = runSqlDelete wf user target rs re needles w clk st.
Proof.
  intros Hk n late. unfold runSqlDelete. cbn [sqlRun].
  unfold sqlStretch at 1. rewrite Hk.
  destruct (open_throws (w_sql w)) as [e|]; [reflexivity|].
  unfold sqlStretch at 1. rewrite Hk. subst late.
  destruct (execute_throws (w_sql w)) as [e|].
  { unfold sqlStretch. rewrite Hk.
    destruct (close_throws (w_sql w)); reflexivity. }
  fold n.
  set (ids := selectCandidates _ _) in *.
  set (k := AwaitSql user target rs re needles).
  unfold update_job. cbn [put_cont].
  rewrite !dispatch_with_suspended. cbn [fst snd].
  set (D := dispatchDeletes _ _ _ _ _ _ _ _).
  unfold sqlStretch.
  change (suspended (with_suspended ?f ?s)) with (f (suspended s)).
  cbn [put_cont]. rewrite lookup_insert_eq.
  replace (3 * n + 1 + 0) with (3 * n + 1) by lia.
  replace (3 * n + 1 + 1) with (3 * n + 2) by lia.
  assert (Hm : forall m : gmap JobId Continuation,
            delete wf (<[wf:=k]> m) = delete wf m).
  { intros m. apply map_eq. intros i. destruct (decide (i = wf)) as [->|Hne].
    - now rewrite !lookup_delete_eq.
    - now rewrite !lookup_delete_ne, lookup_insert_ne by congruence. }
  assert (Hd : forall m : gmap JobId Continuation, delete wf (delete wf m) = delete wf m).
  { intros m. apply map_eq. intros i. destruct (decide (i = wf)) as [->|Hne].
    - now rewrite !lookup_delete_eq.
    - now rewrite !lookup_delete_ne by congruence. }
  subst k. cbv beta iota.
  destruct (close_throws (w_sql w)) as [e|]; cbn [fst snd]; unfold update_job;
    repeat (rewrite sync_with_suspended || rewrite sync_with_workflowJobs
            || rewrite jobs_with_suspended || rewrite suspended_twice);
    apply with_suspended_ext; cbn [put_cont]; now rewrite ?Hm, ?Hd.
Qed.

End DeleteStretches.

(** X20: the record of a bulk SQL delete, at each of the three calls its
    background function awaits and at its end, whatever else the server
    does in between: it is running under the label querySql while the
    database is opened and queried (and while the connection is released
    after a failed query), running under querySql, delete while the
    connection is released after the delete loop, and at the end done under
    querySql, delete, postSync, done, or failed under querySql, error or
    querySql, delete, error.  The current label is the last one recorded,
    and the third stretch at the latest is the end. *)
Theorem delete_workflow_step_sequence (args : DeleteArgs) (env : CalEnv) (clk : Clock)
  (st : State) (wf : JobId) (tr : list SqlEvent) :
  (syncAndDeleteEventsBySql args env clk st).2 = Returned (DelStarted wf) ->
  Forall (apart wf) tr ->
  exists job,
    workflowJobs (sqlRun wf (Some AtOpen) tr (syncAndDeleteEventsBySql args env clk st).1).1
      !! wf = Some job
    /\ delete_labels
         (sqlRun wf (Some AtOpen) tr (syncAndDeleteEventsBySql args env clk st).1).2 job
    /\ last (wj_steps job) = Some (wj_step job)
    /\ (3 <= stretches tr ->
        (sqlRun wf (Some AtOpen) tr (syncAndDeleteEventsBySql args env clk st).1).2 = None).
Proof.
  intros Hresp Htr.
  destruct (sqlRun_ok wf tr (Some AtOpen) _ Htr (delete_request_ok args env clk st wf Hresp))
    as [(_ & (job & Hjob & Hlab & Hlast) & _) Hle].
  exists job. split; [exact Hjob|]. split; [exact Hlab|]. split; [exact Hlast|].
  intros Hn. destruct (sqlRun _ _ _ _).2 as [[| |]|]; simpl in Hle; [lia..|reflexivity].
Qed.

Lemma delete_workflow_step_sequence_witness :
  let req := syncAndDeleteEventsBySql (Sample.sweep ["standup"]) Sample.calenv
               (Sample.clock 1000) initial in
  let w := Sample.world_with [Sample.row "e1" "Standup"] in
  let tr := [Stretch w (Sample.clock 2000);
             Meanwhile (CreateRequest Sample.dentist (Sample.clock 2500));
             Stretch w (Sample.clock 3000)] in
  req.2 = Returned (DelStarted Sample.wf_sweep)
  /\ Forall (apart Sample.wf_sweep) tr
  /\ (sqlRun Sample.wf_sweep (Some AtOpen) tr req.1).2 = Some (AtClose None)
  /\ exists job,
       workflowJobs (sqlRun Sample.wf_sweep (Some AtOpen) tr req.1).1 !! Sample.wf_sweep
       = Some job
       /\ wj_status job = Running
       /\ wj_steps job = ["querySql"; "delete"].
Proof.
  intros req w tr.
  assert (H1 : req.2 = Returned (DelStarted Sample.wf_sweep)) by (vm_compute; reflexivity).
  assert (H2 : Forall (apart Sample.wf_sweep) tr) by (repeat constructor).
  assert (H3 : (sqlRun Sample.wf_sweep (Some AtOpen) tr req.1).2 = Some (AtClose None))
    by (vm_compute; reflexivity).
  split; [exact H1|]. split; [exact H2|]. split; [exact H3|].
  destruct (delete_workflow_step_sequence (Sample.sweep ["standup"]) Sample.calenv
              (Sample.clock 1000) initial Sample.wf_sweep tr H1 H2)
    as (job & Hjob & Hlab & _).
  exists job. split; [exact Hjob|].
  fold req in Hlab. rewrite H3 in Hlab. exact Hlab.
Defined.

Section FailedWorkflow.

Implicit Types (st : State) (wf : JobId) (ev : Event) (key : string).

Lemma sync_returns tb user st :
  getTbSyncModule tb = Returned tt ->
  exists reply, (tbsyncSyncAccountByUser tb user st).2 = Returned reply.
Proof.
  intros H. unfold tbsyncSyncAccountByUser. rewrite H.
  destruct (acc_id <$> _) as [|? [|? ?]]; eexists; reflexivity.
Qed.

(** A resumption that fails the workflow leaves the cache as it was. *)
Lemma resume_failure_keeps_cache wf w clk st k job :
  suspended st !! wf = Some k ->
  workflowJobs st !! wf = Some job ->
  wj_status job = Running ->
  (wj_status <$> workflowJobs (resume wf w clk st) !! wf) = Some WfError ->
  idempotency (resume wf w clk st) = idempotency st
  /\ suspended (resume wf w clk st) = delete wf (suspended st).
Proof.
  intros Hk Hjob Hrun. unfold resume. rewrite Hk.
  destruct k as [args key|args key pre|user key pre cr|user key pre cr post
                |user target rs re needles].
  - pose proof (sync_same_tables (w_tb w) (tbsyncUser args) st) as (Hi & Hj & _ & Hs).
    destruct (tbsyncSyncAccountByUser _ _ st) as [st0 [pre|e]]; simpl in Hi, Hj, Hs;
      rewrite update_job_jobs_eq, Hj, Hjob; cbn; [rewrite Hrun; discriminate|].
    intros _. unfold update_job; simpl. now rewrite Hi, Hs.
  - pose proof (create_same_tables (w_cal w) (clk 0) (clk 1) args st) as (Hi & Hj & _ & Hs).
    destruct (createCalendarEvent _ _ _ _ st) as [st0 [cr|e]]; simpl in Hi, Hj, Hs;
      rewrite update_job_jobs_eq, Hj, Hjob; cbn; [rewrite Hrun; discriminate|].
    intros _. unfold update_job; simpl. now rewrite Hi, Hs.
  - pose proof (sync_same_tables (w_tb w) user st) as (Hi & Hj & _ & Hs).
    destruct (tbsyncSyncAccountByUser _ _ st) as [st0 [post|e]]; simpl in Hi, Hj, Hs;
      rewrite update_job_jobs_eq, Hj, Hjob; cbn; [rewrite Hrun; discriminate|].
    intros _. unfold update_job; simpl. now rewrite Hi, Hs.
  - pose proof (sync_same_tables (w_tb w) user st) as (Hi & Hj & _ & Hs).
    destruct (tbsyncSyncAccountByUser _ _ st) as [st0 [post2|e]]; simpl in Hi, Hj, Hs.
    + change (workflowJobs (with_idempotency ?f ?s)) with (workflowJobs s).
      rewrite update_job_jobs_eq, Hj, Hjob. discriminate.
    + rewrite update_job_jobs_eq, Hj, Hjob. intros _.
      unfold update_job; simpl. now rewrite Hi, Hs.
  - intros _.
    destruct (runSqlDelete_tables wf user target rs re needles w clk st)
      as (g & _ & Hs & _ & Hi). auto.
Qed.

Lemma step_pending_kept wf key t ev st :
  t <> 0%Z -> sweeps_within t ev ->
  pending_kept wf key t st -> pending_kept wf key t (step ev st).
Proof.
  intros Ht Hev [Hentry Hnone]. unfold pending_kept, no_carrier in *.
  destruct ev as [wf' w clk|args clk|args env clk]; cbn [step].
  - destruct (suspended st !! wf') as [k|] eqn:E.
    2:{ rewrite resume_idle by assumption. now split. }
    assert (Hk : cont_key k <> Some key) by (apply (map_Forall_lookup_1 _ _ _ _ Hnone E)).
    destruct (resume_tables wf' w clk st k E) as (g & k' & _ & -> & _ & Hi).
    destruct k' as [c|]; cbn [put_cont].
    + destruct Hi as [Hc ->]. split; [exact Hentry|].
      apply map_Forall_insert_2; [congruence | exact Hnone].
    + split; [|now apply map_Forall_delete].
      destruct Hi as [-> | (key0 & e & Hk0 & ->)]; [exact Hentry|].
      rewrite lookup_insert_ne; [exact Hentry | congruence].
  - cbn [sweeps_within] in Hev.
    destruct (Js.truthy (tbsyncUser args)) eqn:Hu.
    2:{ unfold syncAndCreateCalendarEvent. rewrite Hu. now split. }
    assert (Hkept : idempotency (cleanupIdempotency (clk 0) st) !! key
                    = Some {| ts := t; created := PendingWorkflow wf |}).
    { rewrite cleanup_lookup, Hentry. now rewrite fresh_within_ttl. }
    destruct (idempotency (cleanupIdempotency (clk 0) st) !! fingerprint args)
      as [e|] eqn:Hk.
    + rewrite (request_suppressed _ _ _ e) by assumption. now split.
    + rewrite request_starts by assumption. unfold started_state; cbn [fst idempotency suspended].
      assert (Hne : fingerprint args <> key) by (intros E; rewrite E in Hk; congruence).
      split; [now rewrite lookup_insert_ne|].
      apply map_Forall_insert_2; [cbn; congruence | exact Hnone].
  - unfold syncAndDeleteEventsBySql.
    destruct (negb (Js.truthy (d_tbsyncUser args))); [now split|].
    destruct (negb (Js.truthy (d_start args)) || negb (Js.truthy (d_end args)));
      [now split|].
    destruct (negb (cal_available env)); [now split|].
    destruct (resolveCalendar _ _ _) as [target|]; [|now split].
    destruct (cal_readOnly target); [now split|].
    destruct (makeTimedRange _ _ _) as [|msg|rs re]; [now split | now split |].
    cbn [fst newWorkflowJobId]. unfold with_suspended. cbn [suspended idempotency].
    split; [exact Hentry|]. apply map_Forall_insert_2; [discriminate | exact Hnone].
Qed.

Lemma step_failure_keeps_pending wf key t ev st :
  t <> 0%Z -> sweeps_within t ev ->
  create_workflow_ok wf st -> holds_pending wf key t st ->
  failure_keeps_pending wf key t st ->
  failure_keeps_pending wf key t (step ev st).
Proof.
  intros Ht Hev Hok Hpend Hfail Hnone Herr.
  destruct Hok as (Hissued & job & Hjob & _ & _ & Hk).
  destruct (suspended st !! wf) as [k|] eqn:E.
  - destruct (resumes wf ev) eqn:Hr.
    2:{ destruct (request_frame wf ev st Hissued Hr) as [Hs _]. congruence. }
    destruct ev as [wf' w clk| |]; try discriminate Hr.
    cbn [resumes] in Hr. apply bool_decide_eq_true in Hr. subst wf'. cbn [step] in *.
    destruct Hk as (Hrun & _).
    destruct (resume_failure_keeps_cache wf w clk st k job E Hjob Hrun Herr) as [Hi Hs].
    unfold holds_pending in Hpend. rewrite E in Hpend.
    destruct Hpend as (_ & Hentry & Hothers).
    split; [now rewrite Hi|]. unfold no_carrier. rewrite Hs.
    apply map_Forall_lookup. intros wf' k' Hk'.
    apply lookup_delete_Some in Hk' as [Hne Hk']. now apply (Hothers wf' k').
  - destruct (step_settled wf ev st Hissued E) as [Hj _]. rewrite Hj in Herr.
    apply step_pending_kept; auto.
Qed.

Lemma run_failure_keeps_pending wf key t evs : forall st,
  t <> 0%Z -> Forall (sweeps_within t) evs ->
  create_workflow_ok wf st -> holds_pending wf key t st ->
  failure_keeps_pending wf key t st ->
  failure_keeps_pending wf key t (run evs st).
Proof.
  induction evs as [|ev rest IH]; intros st Ht Hevs Hok Hpend Hfail; cbn [run];
    [exact Hfail|].
  inversion Hevs as [|? ? Hev Hrest]; subst.
  apply IH; auto using step_create_ok, step_holds_pending, step_failure_keeps_pending.
Qed.

End FailedWorkflow.

(** X21: a create workflow that failed leaves its pending entry in the
    cache: within the TTL of that entry the identical request is still
    suppressed and answered with the id of the failed workflow, whatever
    requests and resumptions came in between. *)
Theorem failed_workflow_still_suppresses (args : CreateArgs) (clk1 clk2 : Clock)
  (evs : list Event) (st : State) :
  Js.truthy (tbsyncUser args) = true ->
  idempotency (cleanupIdempotency (clk1 0) st) !! fingerprint args = None ->
  no_carrier (fingerprint args) st ->
  let wf := (clk1 1, S (workflowSeq st)) in
  let st1 := (syncAndCreateCalendarEvent args clk1 st).1 in
  let st2 := run evs st1 in
  (wj_status <$> workflowJobs st2 !! wf) = Some WfError ->
  clk1 4 <> 0%Z ->
  Forall (sweeps_within (clk1 4)) evs ->
  (clk2 0%nat - clk1 4%nat <= IDEMPOTENCY_TTL_MS)%Z ->
  syncAndCreateCalendarEvent args clk2 st2
  = (cleanupIdempotency (clk2 0) st2,
     RespAlreadyCreated (fingerprint args) (PendingWorkflow wf)).
Proof.
  intros Hu Hnew Hothers wf st1 st2. subst st2 st1 wf.
  rewrite request_starts by assumption. cbn [fst].
  set (wf := (clk1 1, S (workflowSeq st))). intros Herr Hts Hevs Httl.
  pose proof (started_create_ok args clk1 st) as Hok0.
  pose proof (started_holds_pending args clk1 st Hothers) as Hpend0.
  fold wf in Hok0, Hpend0.
  assert (Hfail0 : failure_keeps_pending wf (fingerprint args) (clk1 4)
                     (started_state args clk1 st)).
  { intros Hnone. unfold started_state in Hnone. cbn [suspended] in Hnone.
    fold wf in Hnone. rewrite lookup_insert_eq in Hnone. discriminate Hnone. }
  pose proof (run_create_ok _ evs _ Hok0) as Hok.
  pose proof (run_failure_keeps_pending _ _ _ evs _ Hts Hevs Hok0 Hpend0 Hfail0) as Hfail.
  assert (Hnone : suspended (run evs (started_state args clk1 st)) !! wf = None).
  { destruct Hok as (_ & job & Hjob & _ & _ & Hk).
    assert (Herr' : wj_status <$> Some job = Some WfError)
      by (rewrite <- Hjob; exact Herr).
    injection Herr' as Herr'.
    match type of Hk with
    | match ?x with _ => _ end =>
        change (x = None); destruct x; [|reflexivity]
    end.
    destruct Hk as [Hrun _]. congruence. }
  destruct (Hfail Hnone Herr) as [Hentry _].
  rewrite (request_suppressed args clk2 _
             {| ts := clk1 4; created := PendingWorkflow wf |}); [reflexivity | assumption |].
  rewrite cleanup_lookup, Hentry. now rewrite fresh_within_ttl.
Qed.

Lemma failed_workflow_still_suppresses_witness :
  let evs := [Resume Sample.wf1 Demo.bare_world (Sample.clock 3000);
              CreateRequest Sample.standup (Sample.clock 4000)] in
  let st2 := run evs Demo.requested in
  Js.truthy (tbsyncUser Sample.dentist) = true
  /\ idempotency (cleanupIdempotency (Sample.clock 1000 0) initial)
       !! fingerprint Sample.dentist = None
  /\ no_carrier (fingerprint Sample.dentist) initial
  /\ (wj_status <$> workflowJobs st2 !! Sample.wf1) = Some WfError
  /\ Sample.clock 1000 4 <> 0%Z
  /\ Forall (sweeps_within (Sample.clock 1000 4)) evs
  /\ (Sample.clock 5000 0%nat - Sample.clock 1000 4%nat <= IDEMPOTENCY_TTL_MS)%Z
  /\ (syncAndCreateCalendarEvent Sample.dentist (Sample.clock 5000) st2).2
     = RespAlreadyCreated (fingerprint Sample.dentist) (PendingWorkflow Sample.wf1).
Proof.
  intros evs st2.
  assert (H1 : Js.truthy (tbsyncUser Sample.dentist) = true) by reflexivity.
  assert (H2 : idempotency (cleanupIdempotency (Sample.clock 1000 0) initial)
                 !! fingerprint Sample.dentist = None) by (vm_compute; reflexivity).
  assert (H3 : no_carrier (fingerprint Sample.dentist) initial)
    by (refine (bool_decide_eq_true_1 _ _); vm_compute; reflexivity).
  assert (H4 : (wj_status <$> workflowJobs st2 !! Sample.wf1) = Some WfError)
    by (vm_compute; reflexivity).
  assert (H5 : Sample.clock 1000 4 <> 0%Z) by (vm_compute; discriminate).
  assert (H6 : Forall (sweeps_within (Sample.clock 1000 4)) evs).
  { constructor; [exact I|]. constructor; [vm_compute; discriminate | constructor]. }
  assert (H7 : (Sample.clock 5000 0%nat - Sample.clock 1000 4%nat
                <= IDEMPOTENCY_TTL_MS)%Z) by (vm_compute; discriminate).
  pose proof (failed_workflow_still_suppresses Sample.dentist (Sample.clock 1000)
                (Sample.clock 5000) evs initial H1 H2 H3 H4 H5 H6 H7) as Hdup.
  split; [exact H1|]. split; [exact H2|]. split; [exact H3|]. split; [exact H4|].
  split; [exact H5|]. split; [exact H6|]. split; [exact H7|].
  exact (f_equal snd Hdup).
Defined.

(** The last resumption of a create workflow whose second post-sync
    returns: the record is done and the cache takes the results. *)
Lemma resume_completion (wf : JobId) (w : World) (clk : Clock) (st : State)
  (user : option string) (key : string) (pre : SyncReply) (cr : CreateReply)
  (post : SyncReply) (job : WorkflowJob) :
  suspended st !! wf = Some (AwaitPostSync2 user key pre cr post) ->
  workflowJobs st !! wf = Some job ->
  getTbSyncModule (w_tb w) = Returned tt ->
  exists post2,
    workflowJobs (resume wf w clk st) !! wf
    = Some (set_result (ResultCreate pre cr post post2) (clk 0) (set_done (clk 0) job))
    /\ idempotency (resume wf w clk st)
       = <[key := {| ts := clk 1; created := Completed pre cr post post2 |}]>
           (idempotency st)
    /\ suspended (resume wf w clk st) !! wf = None.
Proof.
  intros Hk Hjob Hm. unfold resume. rewrite Hk.
  pose proof (sync_same_tables (w_tb w) user st) as (Hi & Hj & _ & _).
  destruct (sync_returns (w_tb w) user st Hm) as [post2 Hr].
  destruct (tbsyncSyncAccountByUser (w_tb w) user st) as [st0 out].
  cbn [fst snd] in Hi, Hj, Hr. subst out. exists post2.
  change (workflowJobs (with_idempotency ?f ?s)) with (workflowJobs s).
  change (suspended (with_idempotency ?f ?s)) with (suspended s).
  rewrite update_job_jobs_eq, update_job_suspended_eq, Hj, Hjob.
  split; [reflexivity|]. split; [|reflexivity].
  unfold with_idempotency, update_job; simpl. now rewrite Hi.
Qed.

(** X22: when the last step of a create workflow returns, the record is
    done, its result is the four replies, and the cache entry of the
    request is replaced by those replies with a new time stamp: the
    identical request, within the TTL of the completion, is answered with
    them, also when the reply of the create step is an error. *)
Theorem completed_workflow_caches_result (args : CreateArgs) (clk1 clk3 clk4 : Clock)
  (evs : list Event) (st : State) (w : World) (user : option string) (key : string)
  (pre post : SyncReply) (cr : CreateReply) :
  Js.truthy (tbsyncUser args) = true ->
  idempotency (cleanupIdempotency (clk1 0) st) !! fingerprint args = None ->
  no_carrier (fingerprint args) st ->
  let wf := (clk1 1, S (workflowSeq st)) in
  let st2 := run evs (syncAndCreateCalendarEvent args clk1 st).1 in
  let st3 := resume wf w clk3 st2 in
  clk1 4 <> 0%Z ->
  Forall (sweeps_within (clk1 4)) evs ->
  suspended st2 !! wf = Some (AwaitPostSync2 user key pre cr post) ->
  getTbSyncModule (w_tb w) = Returned tt ->
  clk3 1 <> 0%Z ->
  (clk4 0%nat - clk3 1%nat <= IDEMPOTENCY_TTL_MS)%Z ->
  key = fingerprint args
  /\ exists post2 view,
       getWorkflowJob wf st3 = WorkflowFound view
       /\ v_status view = WfDone
       /\ v_step view = "done"
       /\ v_result view = Some (ResultCreate pre cr post post2)
       /\ syncAndCreateCalendarEvent args clk4 st3
          = (cleanupIdempotency (clk4 0) st3,
             RespAlreadyCreated key (Completed pre cr post post2)).
Proof.
  intros Hu Hnew Hothers wf st2 st3. subst st3 st2 wf.
  rewrite request_starts by assumption. cbn [fst].
  set (wf := (clk1 1, S (workflowSeq st))).
  intros Hts Hevs Hk Hm Hts3 Httl.
  pose proof (started_create_ok args clk1 st) as Hok0.
  pose proof (started_holds_pending args clk1 st Hothers) as Hpend0.
  fold wf in Hok0, Hpend0.
  pose proof (run_create_ok _ evs _ Hok0) as (_ & job & Hjob & _).
  pose proof (run_holds_pending _ _ _ evs _ Hok0 Hts Hevs Hpend0) as Hpend.
  assert (Hkey : key = fingerprint args).
  { unfold holds_pending in Hpend.
    match type of Hpend with
    | match ?x with _ => _ end =>
        assert (Hx : x = Some (AwaitPostSync2 user key pre cr post)) by exact Hk;
        rewrite Hx in Hpend
    end.
    destruct Hpend as [Hc _]. now injection Hc. }
  split; [exact Hkey|].
  destruct (resume_completion wf w clk3 _ user key pre cr post job Hk Hjob Hm)
    as (post2 & Hjob3 & Hi3 & _).
  exists post2. unfold getWorkflowJob.
  match goal with
  | |- context [match ?x with Some _ => _ | None => _ end] =>
      assert (Hx : x = Some (set_result (ResultCreate pre cr post post2) (clk3 0)
                               (set_done (clk3 0) job))) by exact Hjob3;
      rewrite Hx
  end.
  eexists. split; [reflexivity|]. cbn [v_status v_step v_result set_result set_done
                                       wj_status wj_step wj_result].
  do 3 (split; [reflexivity|]).
  rewrite (request_suppressed args clk4 _
             {| ts := clk3 1; created := Completed pre cr post post2 |});
    [now rewrite Hkey | assumption |].
  rewrite cleanup_lookup, Hi3, Hkey, lookup_insert_eq. now rewrite fresh_within_ttl.
Qed.

Lemma completed_workflow_caches_result_witness :
  let evs := [Resume Sample.wf1 Sample.world (Sample.clock 3000);
              Resume Sample.wf1 Sample.world (Sample.clock 5000);
              Resume Sample.wf1 Sample.world (Sample.clock 7000)] in
  let st2 := run evs (syncAndCreateCalendarEvent Demo.lost (Sample.clock 1000) initial).1 in
  let st3 := resume Sample.wf1 Sample.world (Sample.clock 9000) st2 in
  let synced := SyncTriggered "1" "me@example.org" in
  let refused := CreateError "Calendar not found (name=Nowhere, id=)" in
  suspended st2 !! Sample.wf1
  = Some (AwaitPostSync2 (Some "me@example.org") (fingerprint Demo.lost) synced refused
            synced)
  /\ exists post2,
       (wj_status <$> workflowJobs st3 !! Sample.wf1) = Some WfDone
       /\ (syncAndCreateCalendarEvent Demo.lost (Sample.clock 10000) st3).2
          = RespAlreadyCreated (fingerprint Demo.lost)
              (Completed synced refused synced post2).
Proof.
  intros evs st2 st3 synced refused.
  assert (H1 : Js.truthy (tbsyncUser Demo.lost) = true) by reflexivity.
  assert (H2 : idempotency (cleanupIdempotency (Sample.clock 1000 0) initial)
                 !! fingerprint Demo.lost = None) by (vm_compute; reflexivity).
  assert (H3 : no_carrier (fingerprint Demo.lost) initial)
    by (refine (bool_decide_eq_true_1 _ _); vm_compute; reflexivity).
  assert (H4 : Sample.clock 1000 4 <> 0%Z) by (vm_compute; discriminate).
  assert (H5 : Forall (sweeps_within (Sample.clock 1000 4)) evs)
    by (repeat constructor).
  assert (H6 : suspended st2 !! Sample.wf1
               = Some (AwaitPostSync2 (Some "me@example.org") (fingerprint Demo.lost)
                         synced refused synced)) by (vm_compute; reflexivity).
  assert (H7 : getTbSyncModule (w_tb Sample.world) = Returned tt) by reflexivity.
  assert (H8 : Sample.clock 9000 1 <> 0%Z) by (vm_compute; discriminate).
  assert (H9 : (Sample.clock 10000 0%nat - Sample.clock 9000 1%nat
                <= IDEMPOTENCY_TTL_MS)%Z) by (vm_compute; discriminate).
  destruct (completed_workflow_caches_result Demo.lost (Sample.clock 1000)
              (Sample.clock 9000) (Sample.clock 10000) evs initial Sample.world
              (Some "me@example.org") (fingerprint Demo.lost) synced synced refused
              H1 H2 H3 H4 H5 H6 H7 H8 H9)
    as (_ & post2 & view & Hview & Hst & _ & _ & Hdup).
  split; [exact H6|]. exists post2. split; [|exact (f_equal snd Hdup)].
  vm_compute. reflexivity.
Defined.

Lemma callTool_cases (name : string) :
  (exists h, callTool name = Returned h /\ name = handler_name h)
  \/ (~ In name tools /\ callTool name = Threw (Error ("Unknown tool: " +:+ name))).
Proof.
  unfold callTool.
  repeat match goal with
         | |- context [String.eqb name ?lit] =>
             destruct (String.eqb_spec name lit) as [->|?];
             [left; eexists; split; [reflexivity|]; reflexivity|]
         end.
  right. split; [|reflexivity]. unfold tools. simpl. intuition congruence.
Qed.

(** X23: the tool table and the dispatcher agree: each of the twenty
    functions is dispatched under its name and advertised under it, a name
    is dispatched to one function only, the advertised names are distinct,
    and any name that is not advertised raises "Unknown tool". *)
Theorem advertised_tools_are_dispatched :
  (forall h, callTool (handler_name h) = Returned h /\ In (handler_name h) tools)
  /\ (forall name h, callTool name = Returned h -> name = handler_name h)
  /\ (forall name, ~ In name tools ->
                   callTool name = Threw (Error ("Unknown tool: " +:+ name)))
  /\ NoDup tools /\ length tools = 20.
Proof.
  split; [|split; [|split; [|split]]].
  - intros h. destruct h; split; vm_compute; tauto.
  - intros name h H. destruct (callTool_cases name) as [(h' & Hh' & ->)|[_ Ht]]; congruence.
  - intros name Hout. destruct (callTool_cases name) as [(h & _ & ->)|[_ Ht]]; [|exact Ht].
    exfalso. apply Hout. destruct h; vm_compute; tauto.
  - refine (bool_decide_eq_true_1 _ _). vm_compute. reflexivity.
  - reflexivity.
Qed.

Lemma starts_once_started (setups : list (option Exn)) (s : Server.ServerFlags) :
  Server.serverStarted s = true ->
  Server.starts setups s
  = (s, (fun _ => Server.AlreadyStarted (Server.portOrDefault (Server.serverPort s))) <$> setups, 0).
Proof.
  intros H. induction setups as [|setup rest IH]; [reflexivity|].
  cbn [Server.starts]. unfold Server.start. rewrite H, IH. reflexivity.
Qed.

(** X24: whatever the sequence of calls of [start], the port is bound at
    most once: by the first call whose set-up does not raise; every call
    after it answers "already started" on port 8766, a failed call leaves
    the flags as they were, and no call leaves the server marked as
    starting. *)
Theorem start_binds_at_most_once (setups : list (option Exn)) :
  let s := (Server.starts setups Server.stopped).1.1 in
  let replies := (Server.starts setups Server.stopped).1.2 in
  let bound := (Server.starts setups Server.stopped).2 in
  bound <= 1
  /\ Server.serverStarting s = false
  /\ (bound = 1 <-> Server.serverStarted s = true)
  /\ (bound = 1 <-> In (Server.StartedOn Server.MCP_PORT) replies)
  /\ (bound = 1 <-> In None setups)
  /\ (Server.serverStarted s = true -> forall setup,
        Server.start setup s = (s, Server.AlreadyStarted Server.MCP_PORT, false)).
Proof.
  cbv zeta. induction setups as [|setup rest IH].
  - cbn. repeat split; try lia; try discriminate; try tauto.
  - cbn [Server.starts]. destruct setup as [e|].
    + change (Server.start (Some e) Server.stopped)
        with (Server.stopped, Server.StartFailed (exn_toString e), false).
      cbv beta iota zeta.
      destruct (Server.starts rest Server.stopped) as [[s replies] n].
      cbn [fst snd Nat.add] in *.
      destruct IH as (H1 & H2 & H3 & H4 & H5 & H6).
      split; [exact H1|]. split; [exact H2|]. split; [exact H3|].
      split; [|split; [|exact H6]].
      * rewrite H4. simpl. split; [now right | intros [H|H]; [discriminate H | exact H]].
      * rewrite H5. simpl. split; [now right | intros [H|H]; [discriminate H | exact H]].
    + change (Server.start None Server.stopped)
        with ({| Server.serverStarted := true; Server.serverStarting := false;
                 Server.serverPort := Some Server.MCP_PORT |}, Server.StartedOn Server.MCP_PORT, true).
      cbv beta iota zeta.
      rewrite starts_once_started by reflexivity.
      cbn. repeat split; auto.
Qed.

Section Bridge.

Implicit Types (s t a b : string).

Lemma length_append s t : String.length (s +:+ t) = String.length s + String.length t.
Proof. induction s as [|c r IH]; simpl; [reflexivity | now rewrite IH]. Qed.

Lemma cutLine_shorter s a b :
  cutLine s = Some (a, b) -> String.length b < String.length s.
Proof.
  revert a. induction s as [|c r IH]; intros a; simpl; [discriminate|].
  destruct (Ascii.eqb c LF); [intros [= <- <-]; lia|].
  destruct (cutLine r) as [[a' b']|]; [|discriminate].
  intros [= <- <-]. specialize (IH a' eq_refl). lia.
Qed.

Lemma cutLine_app s t :
  cutLine (s +:+ t)
  = match cutLine s with
    | Some (a, b) => Some (a, b +:+ t)
    | None => match cutLine t with
              | Some (a, b) => Some (s +:+ a, b)
              | None => None
              end
    end.
Proof.
  induction s as [|c r IH]; simpl.
  - now destruct (cutLine t) as [[a b]|].
  - destruct (Ascii.eqb c LF); [reflexivity|]. rewrite IH.
    destruct (cutLine r) as [[a b]|]; [reflexivity|].
    now destruct (cutLine t) as [[a b]|].
Qed.

(** More fuel than the length of the buffer changes nothing. *)
Lemma drain_fuel n : forall m s,
  String.length s <= n -> String.length s <= m -> drain n s = drain m s.
Proof.
  induction n as [|n IH]; intros m s Hn Hm.
  - destruct s; [|simpl in Hn; lia]. now destruct m.
  - destruct m as [|m].
    + destruct s; [reflexivity | simpl in Hm; lia].
    + simpl. destruct (cutLine s) as [[a b]|] eqn:E; [|reflexivity].
      apply cutLine_shorter in E. rewrite (IH m b) by lia. reflexivity.
Qed.

Lemma drain_unfold s :
  drain (String.length s) s
  = match cutLine s with
    | None => ([], s)
    | Some (raw, rest) =>
        let '(lines, buffer') := drain (String.length rest) rest in
        (if String.eqb (Js.trim raw) "" then lines else Js.trim raw :: lines, buffer')
    end.
Proof.
  destruct s as [|c r]; [reflexivity|].
  change (String.length (String c r)) with (S (String.length r)).
  cbn [drain]. destruct (cutLine (String c r)) as [[a b]|] eqn:E; [|reflexivity].
  apply cutLine_shorter in E. simpl in E.
  rewrite (drain_fuel (String.length r) (String.length b) b) by lia. reflexivity.
Qed.

(** The loop over a buffer and what follows it is the loop over the
    buffer, then the loop over what that left and what follows. *)
Lemma drain_app n : forall s t,
  String.length s <= n ->
  drain (String.length (s +:+ t)) (s +:+ t)
  = let '(l1, r1) := drain (String.length s) s in
    let '(l2, r2) := drain (String.length (r1 +:+ t)) (r1 +:+ t) in
    (l1 ++ l2, r2).
Proof.
  induction n as [|n IH]; intros s t Hn.
  - destruct s; [|simpl in Hn; lia]. simpl.
    now destruct (drain (String.length t) t).
  - rewrite (drain_unfold s). destruct (cutLine s) as [[a b]|] eqn:E.
    + rewrite drain_unfold, cutLine_app, E.
      pose proof (cutLine_shorter _ _ _ E) as Hb.
      rewrite (IH b t) by lia.
      destruct (drain (String.length b) b) as [l1 r1].
      destruct (drain (String.length (r1 +:+ t)) (r1 +:+ t)) as [l2 r2].
      now destruct (String.eqb (Js.trim a) "").
    + now destruct (drain (String.length (s +:+ t)) (s +:+ t)).
Qed.

Lemma drain_leaves_no_line n : forall s,
  String.length s <= n -> cutLine (drain (String.length s) s).2 = None.
Proof.
  induction n as [|n IH]; intros s Hn.
  - destruct s; [reflexivity | simpl in Hn; lia].
  - rewrite drain_unfold. destruct (cutLine s) as [[a b]|] eqn:E; [|exact E].
    pose proof (cutLine_shorter _ _ _ E) as Hb. specialize (IH b ltac:(lia)).
    now destruct (drain (String.length b) b).
Qed.

Lemma drain_lines_trimmed n : forall s line,
  String.length s <= n ->
  In line (drain (String.length s) s).1 -> line <> "" /\ Js.trim line = line.
Proof.
  induction n as [|n IH]; intros s line Hn.
  - destruct s; [intros [] | simpl in Hn; lia].
  - rewrite drain_unfold. destruct (cutLine s) as [[a b]|] eqn:E; [|intros []].
    pose proof (cutLine_shorter _ _ _ E) as Hb. specialize (IH b line ltac:(lia)).
    destruct (drain (String.length b) b) as [ls r]. cbn [fst] in *.
    destruct (String.eqb_spec (Js.trim a) "") as [Ha|Ha]; [exact IH|].
    intros [<-|H]; [|now apply IH]. split; [exact Ha | apply trim_idem].
Qed.

Lemma concat_cons (chunk : string) (rest : list string) :
  String.concat "" (chunk :: rest) = chunk +:+ String.concat "" rest.
Proof. destruct rest; simpl; [now rewrite append_empty_r | reflexivity]. Qed.

Lemma onChunks_whole (chunks : list string) : forall buffer,
  cutLine buffer = None ->
  onChunks chunks buffer = onData (String.concat "" chunks) buffer.
Proof.
  induction chunks as [|chunk rest IH]; intros buffer Hb.
  - cbn [onChunks String.concat]. unfold onData.
    now rewrite append_empty_r, drain_unfold, Hb.
  - cbn [onChunks]. rewrite concat_cons. unfold onData at 2.
    rewrite <- append_assoc.
    rewrite (drain_app _ (buffer +:+ chunk) (String.concat "" rest) (le_n _)).
    pose proof (drain_leaves_no_line _ (buffer +:+ chunk) (le_n _)) as Hleft.
    unfold onData at 1.
    destruct (drain (String.length (buffer +:+ chunk)) (buffer +:+ chunk)) as [l1 r1].
    cbn [snd] in Hleft. rewrite (IH r1 Hleft). unfold onData.
    now destruct (drain _ (r1 +:+ String.concat "" rest)).
Qed.

End Bridge.

(** X25: the lines the bridge hands on do not depend on how its input
    arrives in chunks: feeding the chunks one by one gives the lines, and
    leaves the buffer, that feeding their concatenation at once gives; the
    buffer left holds no line feed, and every line handed on is trimmed and
    not empty. *)
Theorem bridge_framing_ignores_chunking (chunks : list string) :
  let whole := String.concat "" chunks in
  onChunks chunks "" = onData whole ""
  /\ cutLine (onData whole "").2 = None
  /\ forall line, In line (onData whole "").1 -> line <> "" /\ Js.trim line = line.
Proof.
  cbv zeta. split; [|split].
  - now apply onChunks_whole.
  - unfold onData. now apply (drain_leaves_no_line _ _ (le_n _)).
  - intros line. unfold onData. now apply (drain_lines_trimmed _ _ line (le_n _)).
Qed.

Section NativeTallies.

Lemma sync_effects (tb : TbSyncEnv) (user : option string) (st : State) :
  effects (tbsyncSyncAccountByUser tb user st).1 = effects st
  \/ exists accountID,
       effects (tbsyncSyncAccountByUser tb user st).1 = effects st ++ [SyncAccount accountID].
Proof.
  unfold tbsyncSyncAccountByUser.
  destruct (getTbSyncModule tb); [|now left].
  destruct (acc_id <$> _) as [|id [|? ?]]; [now left | right; now exists id | now left].
Qed.

Lemma deleteFound_tally (getItem : string -> ItemLookup) (ids : list (string * string)) :
  forall acc,
    let acc' := fold_left (fun a it => deleteFound (getItem it.1) a) ids acc in
    nt_deleted acc' + nt_notFound acc' + length (nt_errors acc')
    = nt_deleted acc + nt_notFound acc + length (nt_errors acc) + length ids
    /\ nt_deleted acc <= nt_deleted acc' /\ nt_notFound acc <= nt_notFound acc'.
Proof.
  induction ids as [|[id ttl] rest IH]; intros acc; cbn [fold_left length].
  - cbv zeta. lia.
  - specialize (IH (deleteFound (getItem (id, ttl).1) acc)). cbv zeta in *.
    destruct IH as (IH1 & IH2 & IH3). rewrite IH1.
    unfold deleteFound in *. cbn [fst] in *.
    destruct (getItem id) as [e| |[e|]];
      cbn [nt_deleted nt_notFound nt_errors] in *; rewrite ?length_app; simpl; lia.
Qed.

Lemma deleteInFolders_tally (ids : list (string * string)) (folders : list NativeFolder) :
  forall acc,
    let acc' := deleteInFolders folders ids acc in
    nt_deleted acc' + nt_notFound acc' + length (nt_errors acc')
    = nt_deleted acc + nt_notFound acc + length (nt_errors acc)
      + length ids * length (reachable folders)
      + (length folders - length (reachable folders))
    /\ length (reachable folders) <= length folders.
Proof.
  induction folders as [|f rest IH]; intros acc; cbn [deleteInFolders].
  - cbv zeta. simpl. lia.
  - unfold reachable in *. cbn [List.filter length].
    destruct (nf_getTarget_throws f) as [e|].
    + match goal with |- context [deleteInFolders rest ids ?a] => specialize (IH a) end.
      cbv zeta in *. destruct IH as [IH Hle]. rewrite IH.
      cbn [nt_deleted nt_notFound nt_errors]. rewrite length_app. simpl. lia.
    + match goal with |- context [deleteInFolders rest ids ?a] => specialize (IH a) end.
      cbv zeta in *. destruct IH as [IH Hle]. rewrite IH.
      destruct (deleteFound_tally (nf_getItem f) ids acc) as (Ht & _). cbv zeta in Ht.
      rewrite Ht. cbn [length]. lia.
Qed.

End NativeTallies.

(** X26: [tbsyncDeleteEasEventsNativeBySql] answers with tallies only when
    some folder is mapped to the calendar; every candidate in every folder
    whose target can be had is counted once, as deleted, not found or an
    error, and a folder whose target cannot be had counts one error; of
    the errors the reply keeps five at most, of the candidates a sample of
    ten at most, and one sync at most is triggered. *)
Theorem native_delete_tallies (args : DeleteArgs) (env : CalEnv) (tb : TbSyncEnv)
  (folders : list NativeFolder) (sql : SqlEnv) (st st' : State) (reply : NativeReply) :
  tbsyncDeleteEasEventsNativeBySql args env tb folders sql st = (st', Returned (inr reply)) ->
  exists target,
    resolveCalendar (calendars env) (d_calendarName args) (d_calendarId args) = Some target
    /\ nr_calendarId reply = cal_id target
    /\ nativeFolders folders target <> []
    /\ let matching := nativeFolders folders target in
       let turns := nr_candidateCount reply * length (reachable matching)
                    + (length matching - length (reachable matching)) in
       nr_deleted reply + nr_notFound reply + length (nr_errors reply) <= turns
       /\ (length (nr_errors reply) < 5 ->
           nr_deleted reply + nr_notFound reply + length (nr_errors reply) = turns)
       /\ length (nr_errors reply) <= 5
       /\ length (nr_sample reply) = Nat.min 10 (nr_candidateCount reply)
       /\ (effects st' = effects st
           \/ exists accountID, effects st' = effects st ++ [SyncAccount accountID]).
Proof.
  unfold tbsyncDeleteEasEventsNativeBySql.
  destruct (negb (Js.truthy (d_tbsyncUser args))); [discriminate|].
  destruct (negb (Js.truthy (d_start args)) || negb (Js.truthy (d_end args)));
    [discriminate|].
  destruct (negb (cal_available env)); [discriminate|].
  destruct (resolveCalendar _ _ _) as [target|]; [|discriminate].
  destruct (makeTimedRange _ _ _) as [|msg|rs re]; try discriminate.
  destruct (getTbSyncModule tb); [|discriminate].
  destruct (Nat.eqb_spec (length (nativeFolders folders target)) 0) as [|Hne];
    [discriminate|].
  destruct (open_throws sql); [discriminate|].
  destruct (execute_throws sql); [discriminate|].
  destruct (close_throws sql); [discriminate|].
  intros [= <- <-]. exists target. split; [reflexivity|]. split; [reflexivity|].
  split; [intros E; rewrite E in Hne; now apply Hne|].
  cbv zeta. cbn [nr_candidateCount nr_deleted nr_notFound nr_errors nr_sample].
  set (ids := (fun c : string * option string => (c.1, Js.orEmpty c.2)) <$> _).
  destruct (deleteInFolders_tally ids (nativeFolders folders target)
              {| nt_deleted := 0; nt_notFound := 0; nt_errors := [] |}) as [Ht Hle].
  cbv zeta in Ht. cbn [nt_deleted nt_notFound nt_errors length] in Ht.
  rewrite !length_firstn.
  split; [lia|]. split; [lia|]. split; [lia|]. split; [reflexivity|].
  apply sync_effects.
Qed.

Lemma native_delete_tallies_witness :
  let sql := Sample.sqlite_with [Sample.row "e1" "Standup"; Sample.row "e2" "Standup 2"] in
  let reply := {| nr_calendarId := "cal-1"; nr_candidateCount := 2; nr_deleted := 1;
                  nr_notFound := 1; nr_errors := [];
                  nr_sample := [("e1", "Standup"); ("e2", "Standup 2")] |} in
  tbsyncDeleteEasEventsNativeBySql (Sample.sweep ["standup"]) Sample.calenv Sample.tbsync
    [Demo.folder] sql initial
  = (emit (SyncAccount "1") initial, Returned (inr reply))
  /\ nativeFolders [Demo.folder] Sample.work <> []
  /\ nr_deleted reply + nr_notFound reply + length (nr_errors reply) = 2.
Proof.
  intros sql reply.
  assert (H : tbsyncDeleteEasEventsNativeBySql (Sample.sweep ["standup"]) Sample.calenv
                Sample.tbsync [Demo.folder] sql initial
              = (emit (SyncAccount "1") initial, Returned (inr reply)))
    by (vm_compute; reflexivity).
  destruct (native_delete_tallies _ _ _ _ _ _ _ _ H)
    as (target & Ht & _ & Hne & _ & Heq & _).
  injection Ht as <-.
  split; [exact H|]. split; [exact Hne|].
  rewrite (Heq ltac:(simpl; lia)). reflexivity.
Defined.

Section Calls.

Implicit Types (st : State) (wf : JobId).

Lemma createCalendarEvent_effects env t1 t2 (args : CreateArgs) st :
  effects (createCalendarEvent env t1 t2 args st).1 = effects st
  \/ exists calendar ttl,
       effects (createCalendarEvent env t1 t2 args st).1
       = effects st ++ [ProviderAddItem calendar ttl].
Proof.
  unfold createCalendarEvent, startAddItemJob.
  repeat match goal with
         | |- context [if ?b then _ else _] => destruct b; try (now left)
         | |- context [match ?x with _ => _ end] => destruct x; try (now left)
         end; right; eauto.
Qed.

Lemma sync_keeps_adds (tb : TbSyncEnv) (user : option string) st :
  List.filter is_add (effects (tbsyncSyncAccountByUser tb user st).1)
  = List.filter is_add (effects st).
Proof.
  destruct (sync_effects tb user st) as [->|[id ->]]; [reflexivity|].
  rewrite List.filter_app. simpl. apply app_nil_r.
Qed.

Lemma dispatch_keeps_adds env clk target ids : forall n t e st,
  List.filter is_add (effects (dispatchDeletes env clk target n ids t e st).1.1)
  = List.filter is_add (effects st).
Proof.
  intros n t e st.
  destruct (dispatch_tally env clk target ids n t e st) as (_ & _ & ->).
  rewrite List.filter_app. unfold delete_calls.
  induction (dispatched env n ids) as [|c rest IH]; simpl in *; [apply app_nil_r | exact IH].
Qed.

Lemma runSqlDelete_keeps_adds wf user target rs re needles w clk st :
  List.filter is_add (effects (runSqlDelete wf user target rs re needles w clk st))
  = List.filter is_add (effects st).
Proof.
  unfold runSqlDelete.
  destruct (open_throws (w_sql w)); [reflexivity|].
  destruct (execute_throws (w_sql w)); [reflexivity|].
  set (ids := selectCandidates _ _).
  set (st1 := update_job wf (set_step "delete" (clk 0)) None st).
  pose proof (dispatch_keeps_adds (w_cal w) clk target ids 0 0 0 st1) as Hd.
  destruct (dispatchDeletes (w_cal w) clk target 0 ids 0 0 st1) as [[st2 t] x].
  cbn [fst] in Hd. subst st1. rewrite update_job_effects in Hd.
  destruct (close_throws (w_sql w)).
  - now rewrite !update_job_effects.
  - now rewrite update_job_effects, !sync_keeps_adds, !update_job_effects.
Qed.

End Calls.

(** X27: no call leaves the server while a request is answered; of the
    resumptions, only the create step of a create workflow hands an item
    to a calendar, one at most, and never deletes; the other steps of a
    create workflow neither add nor delete, and a delete workflow never
    adds. *)
Theorem workflows_keep_to_their_calls :
  (forall (args : CreateArgs) (clk : Clock) (st : State),
      effects (syncAndCreateCalendarEvent args clk st).1 = effects st)
  /\ (forall (args : DeleteArgs) (env : CalEnv) (clk : Clock) (st : State),
        effects (syncAndDeleteEventsBySql args env clk st).1 = effects st)
  /\ (forall (wf : JobId) (w : World) (clk : Clock) (st : State) (k : Continuation),
        suspended st !! wf = Some k ->
        let st' := resume wf w clk st in
        match k with
        | AwaitCreate _ _ _ =>
            List.filter is_delete (effects st') = List.filter is_delete (effects st)
            /\ (effects st' = effects st
                \/ exists calendar ttl,
                     effects st' = effects st ++ [ProviderAddItem calendar ttl])
        | AwaitSql _ _ _ _ _ =>
            List.filter is_add (effects st') = List.filter is_add (effects st)
        | _ =>
            List.filter is_add (effects st') = List.filter is_add (effects st)
            /\ List.filter is_delete (effects st') = List.filter is_delete (effects st)
        end).
Proof.
  split; [|split].
  - intros args clk st. destruct (Js.truthy (tbsyncUser args)) eqn:Hu.
    2:{ unfold syncAndCreateCalendarEvent. now rewrite Hu. }
    destruct (idempotency (cleanupIdempotency (clk 0) st) !! fingerprint args)
      as [e|] eqn:Hk.
    + now rewrite (request_suppressed _ _ _ e).
    + now rewrite request_starts.
  - intros args env clk st. unfold syncAndDeleteEventsBySql.
    repeat match goal with
           | |- context [if ?b then _ else _] => destruct b; try reflexivity
           | |- context [match ?x with _ => _ end] => destruct x; try reflexivity
           end.
  - intros wf w clk st k Hk. cbv zeta. unfold resume. rewrite Hk.
    destruct k as [args key|args key pre|user key pre cr|user key pre cr post
                  |user target rs re needles].
    + pose proof (sync_keeps_adds (w_tb w) (tbsyncUser args) st) as Ha.
      pose proof (sync_keeps_deletes (w_tb w) (tbsyncUser args) st) as Hd.
      destruct (tbsyncSyncAccountByUser _ _ st) as [st0 [pre|e]];
        rewrite update_job_effects; auto.
    + pose proof (createCalendarEvent_effects (w_cal w) (clk 0) (clk 1) args st) as He.
      destruct (createCalendarEvent _ _ _ _ st) as [st0 [cr|e]];
        rewrite update_job_effects; cbn [fst] in He;
        (destruct He as [->|(c & t & ->)];
         [split; [reflexivity | now left]
         |split; [rewrite List.filter_app; simpl; apply app_nil_r | right; eauto]]).
    + pose proof (sync_keeps_adds (w_tb w) user st) as Ha.
      pose proof (sync_keeps_deletes (w_tb w) user st) as Hd.
      destruct (tbsyncSyncAccountByUser _ _ st) as [st0 [post|e]];
        rewrite update_job_effects; auto.
    + pose proof (sync_keeps_adds (w_tb w) user st) as Ha.
      pose proof (sync_keeps_deletes (w_tb w) user st) as Hd.
      destruct (tbsyncSyncAccountByUser _ _ st) as [st0 [post2|e]].
      * change (effects (with_idempotency ?f ?s)) with (effects s).
        rewrite update_job_effects; auto.
      * rewrite update_job_effects; auto.
    + apply runSqlDelete_keeps_adds.
Qed.
